(** * Rockchip ISP1 pipeline handler: frame table, completion gate, lifecycle

    Shallow embedding of [src/libcamera/pipeline/rkisp1/rkisp1.cpp].

    - [unsigned int] values are integers in [Z] with the wrap-around modulo
      [2^32] written out ([uint]).
    - A [Buffer *] is the record of the fields the handler reads, together
      with the address of the object; comparing pointers is comparing
      addresses.  A [Request *] and a [Camera *] are addresses.
    - [std::queue<Buffer *>] is a list (front at the head, [push] at the
      tail); [std::map<unsigned int, RkISP1FrameInfo *>] is an association
      list kept in ascending key order, which is the order the range-for
      loops of [find] visit.
    - Everything the handler calls but does not define (video devices, IPA,
      timeline scheduler, Request and PipelineHandler base class, logging) is
      an external call: it is appended to a trace, may change the outside
      world and returns an [int].  The outside world is a type class.
    - External calls return to the handler without calling back into it; an
      action thunk that the timeline runs is an entry point of its own.
    - A null-pointer dereference, a failed [ASSERT] and [LOG(Fatal)] end the
      run: the handler is a state-and-fault monad.
    - The handler serves one camera: [cameraData(camera)] is the camera data
      of the state, and [cameraData(activeCamera_)] faults while no camera is
      active.
    - Log messages are the string literals of the source; values streamed
      into a message are left out. *)

From Stdlib Require Import ZArith List Bool Lia String.
Import ListNotations.
Local Open Scope Z_scope.

(** ** Machine integers and constants *)

Definition UINT_MAX : Z := 4294967295.

Definition uint (z : Z) : Z := z mod 2 ^ 32.

Definition RKISP1_PARAM_BASE : Z := 0x100.
Definition RKISP1_STAT_BASE : Z := 0x200.
Definition ENOENT : Z := 2.

(** ** Data model *)

Definition Camera := Z.
Definition Request := Z.
Definition ControlList := list (Z * Z).

Module Buffer.
Record t := mk
  { addr : Z;            (* identity of the object *)
    index : Z;           (* Buffer::index() *)
    sequence : Z;        (* Buffer::sequence(), unsigned int *)
    timestamp : Z;       (* Buffer::timestamp() *)
    request : Request }. (* Buffer::request() *)

(* pointer comparison *)
Definition eqb (a b : t) : bool := addr a =? addr b.
End Buffer.

Inductive MemoryType := InternalMemory | ExternalMemory.

Record Stream := mkStream
  { memoryType : MemoryType;
    bufferCount : Z }.      (* configuration().bufferCount, unsigned int *)

Record RkISP1FrameInfo := mkInfo
  { frame : Z;
    request : Request;
    paramBuffer : Buffer.t;
    statBuffer : Buffer.t;
    videoBuffer : Buffer.t;
    paramFilled : bool;
    paramDequeued : bool;
    metadataProcessed : bool }.

Definition set_paramFilled (v : bool) (i : RkISP1FrameInfo) :=
  mkInfo (frame i) (request i) (paramBuffer i) (statBuffer i) (videoBuffer i)
         v (paramDequeued i) (metadataProcessed i).
Definition set_paramDequeued (v : bool) (i : RkISP1FrameInfo) :=
  mkInfo (frame i) (request i) (paramBuffer i) (statBuffer i) (videoBuffer i)
         (paramFilled i) v (metadataProcessed i).
Definition set_metadataProcessed (v : bool) (i : RkISP1FrameInfo) :=
  mkInfo (frame i) (request i) (paramBuffer i) (statBuffer i) (videoBuffer i)
         (paramFilled i) (paramDequeued i) v.

Inductive RkISP1ActionType := SetSensor | SOE | QueueBuffers.

(* ipa/rkisp1.h; any other operation code falls in the [default] case *)
Inductive RkISP1Operations :=
| RKISP1_IPA_ACTION_V4L2_SET
| RKISP1_IPA_ACTION_PARAM_FILLED
| RKISP1_IPA_ACTION_METADATA
| RKISP1_IPA_EVENT_SIGNAL_STAT_BUFFER
| RKISP1_IPA_EVENT_QUEUE_REQUEST
| RKISP1_IPA_OTHER (code : Z).

Record IPAOperationData := mkOp
  { operation : RkISP1Operations;
    data : list Z;
    controls : list ControlList }.

Inductive Pool := ParamPool | StatPool | StreamPool.

Record IPABuffer := mkIPABuffer
  { id : Z;
    memory : Pool * Z }.   (* pool.buffers()[i] *)

Inductive Device := Param | Stat | Video.   (* param_, stat_, video_ *)

Inductive LogSeverity := LogDebug | LogWarning | LogError | LogFatal.

(** External calls, in the order the handler makes them. *)
Inductive Call :=
| Log (sev : LogSeverity) (msg : string)
| BaseQueueRequest (c : Camera) (r : Request)   (* PipelineHandler::queueRequest *)
| CompleteBuffer (c : Camera) (r : Request) (b : Buffer.t)
| CompleteRequest (c : Camera) (r : Request)
| SetMetadata (r : Request) (m : ControlList)   (* request->metadata() = m *)
| ProcessEvent (op : IPAOperationData)          (* ipa_->processEvent *)
| Configure                                     (* ipa_->configure *)
| MapBuffers (l : list IPABuffer)
| UnmapBuffers (ids : list Z)
| ScheduleAction (frm : Z) (type : RkISP1ActionType) (ctrls : ControlList)
| TimelineBufferReady (b : Buffer.t)            (* notifyStartOfExposure *)
| TimelineReset
| QueueBuffer (d : Device) (b : Buffer.t)
| StreamOn (d : Device)
| StreamOff (d : Device)
| CreateBuffers (p : Pool) (count : Z)
| ExportBuffers (d : Device) (p : Pool)
| ImportBuffers (d : Device) (p : Pool)
| ReleaseBuffers (d : Device)
| DeleteBuffer (b : Buffer.t).

(** The world outside the handler. *)
Class World (W : Type) := mkWorld
  { hasPendingBuffers : W -> Request -> bool;      (* request->hasPendingBuffers() *)
    findBuffer : W -> Request -> option Buffer.t;  (* request->findBuffer(&stream_) *)
    requestControls : W -> Request -> ControlList; (* request->controls() *)
    call_result : W -> Call -> Z;                  (* value the call returns *)
    call_effect : W -> Call -> W }.                (* the world after the call *)

(** ** std::map and std::queue *)

Section StdMap.
Context {V : Type}.

Fixpoint map_find (k : Z) (m : list (Z * V)) : option V :=
  match m with
  | [] => None
  | (k', v) :: m' => if k =? k' then Some v else map_find k m'
  end.

(* m[k] = v *)
Fixpoint map_assign (k : Z) (v : V) (m : list (Z * V)) : list (Z * V) :=
  match m with
  | [] => [(k, v)]
  | (k', v') :: m' =>
      if k <? k' then (k, v) :: m
      else if k =? k' then (k, v) :: m'
      else (k', v') :: map_assign k v m'
  end.

Fixpoint map_erase (k : Z) (m : list (Z * V)) : list (Z * V) :=
  match m with
  | [] => []
  | (k', v') :: m' => if k =? k' then m' else (k', v') :: map_erase k m'
  end.

(* a write through a pointer to the value stored under [k] *)
Fixpoint map_update (k : Z) (f : V -> V) (m : list (Z * V)) : list (Z * V) :=
  match m with
  | [] => []
  | (k', v') :: m' =>
      if k =? k' then (k', f v') :: m' else (k', v') :: map_update k f m'
  end.

(* the first entry, in key order, whose value satisfies [p] *)
Fixpoint map_search (p : V -> bool) (m : list (Z * V)) : option (Z * V) :=
  match m with
  | [] => None
  | (k, v) :: m' => if p v then Some (k, v) else map_search p m'
  end.
End StdMap.

Definition queue_push {A} (q : list A) (a : A) : list A := q ++ [a].
Definition queue_pop {A} (q : list A) : list A := tl q.

(** ** Handler state *)

Record State (W : Type) := mkState
  { frame_ : Z;                                  (* RkISP1CameraData::frame_ *)
    ipaBuffers_ : list IPABuffer;
    frameInfo_ : list (Z * RkISP1FrameInfo);     (* RkISP1Frames::frameInfo_ *)
    paramBuffers_ : list Buffer.t;
    statBuffers_ : list Buffer.t;
    activeCamera_ : option Camera;
    heap_ : Z;                                   (* next address [new] hands out *)
    world : W;
    trace : list Call }.

Arguments mkState {W}.
Arguments frame_ {W}.
Arguments ipaBuffers_ {W}.
Arguments frameInfo_ {W}.
Arguments paramBuffers_ {W}.
Arguments statBuffers_ {W}.
Arguments activeCamera_ {W}.
Arguments heap_ {W}.
Arguments world {W}.
Arguments trace {W}.

Section Setters.
Context {W : Type}.
Implicit Type st : State W.

Definition set_frame_ v st :=
  mkState v (ipaBuffers_ st) (frameInfo_ st) (paramBuffers_ st)
          (statBuffers_ st) (activeCamera_ st) (heap_ st)
          (world st) (trace st).
Definition set_ipaBuffers_ v st :=
  mkState (frame_ st) v (frameInfo_ st) (paramBuffers_ st)
          (statBuffers_ st) (activeCamera_ st) (heap_ st)
          (world st) (trace st).
Definition set_frameInfo_ v st :=
  mkState (frame_ st) (ipaBuffers_ st) v (paramBuffers_ st)
          (statBuffers_ st) (activeCamera_ st) (heap_ st)
          (world st) (trace st).
Definition set_paramBuffers_ v st :=
  mkState (frame_ st) (ipaBuffers_ st) (frameInfo_ st) v
          (statBuffers_ st) (activeCamera_ st) (heap_ st)
          (world st) (trace st).
Definition set_statBuffers_ v st :=
  mkState (frame_ st) (ipaBuffers_ st) (frameInfo_ st) (paramBuffers_ st)
          v (activeCamera_ st) (heap_ st)
          (world st) (trace st).
Definition set_activeCamera_ v st :=
  mkState (frame_ st) (ipaBuffers_ st) (frameInfo_ st) (paramBuffers_ st)
          (statBuffers_ st) v (heap_ st)
          (world st) (trace st).
Definition set_heap_ v st :=
  mkState (frame_ st) (ipaBuffers_ st) (frameInfo_ st) (paramBuffers_ st)
          (statBuffers_ st) (activeCamera_ st) v
          (world st) (trace st).
End Setters.

(** ** The handler monad: state, external calls, faults *)

Inductive result (A : Type) :=
| Ok (a : A)
| Fault.
Arguments Ok {A}.
Arguments Fault {A}.

Definition M (W A : Type) := State W -> result (A * State W).

Section Monad.
Context {W : Type} `{World W}.

Definition ret {A} (a : A) : M W A := fun st => Ok (a, st).
Definition bind {A B} (c : M W A) (k : A -> M W B) : M W B :=
  fun st => match c st with
            | Ok (a, st') => k a st'
            | Fault => Fault
            end.
Definition fault {A} : M W A := fun _ => Fault.
Definition get : M W (State W) := fun st => Ok (st, st).
Definition modify (f : State W -> State W) : M W unit :=
  fun st => Ok (tt, f st).

(* the state after an external call *)
Definition emit (c : Call) (st : State W) : State W :=
  mkState (frame_ st) (ipaBuffers_ st) (frameInfo_ st) (paramBuffers_ st)
          (statBuffers_ st) (activeCamera_ st) (heap_ st)
          (call_effect (world st) c) (trace st ++ [c]).

Definition call (c : Call) : M W Z :=
  fun st => Ok (call_result (world st) c, emit c st).

Definition log (sev : LogSeverity) (msg : string) : M W unit :=
  fun st => Ok (tt, emit (Log sev msg) st).
End Monad.

Declare Scope handler_scope.
Delimit Scope handler_scope with handler.
Notation "x <- c ;; k" := (bind c (fun x => k))
  (at level 61, c at next level, right associativity) : handler_scope.
Notation "c ;; k" := (bind c (fun _ => k))
  (at level 61, right associativity) : handler_scope.
Local Open Scope handler_scope.

(** ** RkISP1Frames *)

Section Handler.
Context {W : Type} `{World W}.

Definition find_frame (frm : Z) : M W (option RkISP1FrameInfo) :=
  st <- get ;;
  match map_find frm (frameInfo_ st) with
  | Some info => ret (Some info)
  | None => log LogError "Can't locate info from frame" ;; ret None
  end.

Definition holds_buffer (buffer : Buffer.t) (info : RkISP1FrameInfo) : bool :=
  Buffer.eqb (paramBuffer info) buffer
  || Buffer.eqb (statBuffer info) buffer
  || Buffer.eqb (videoBuffer info) buffer.

(* the pointer returned is the slot of the map: key and value *)
Definition find_buffer (buffer : Buffer.t)
  : M W (option (Z * RkISP1FrameInfo)) :=
  st <- get ;;
  match map_search (holds_buffer buffer) (frameInfo_ st) with
  | Some slot => ret (Some slot)
  | None => log LogError "Can't locate info from buffer" ;; ret None
  end.

Definition find_request (req : Request)
  : M W (option (Z * RkISP1FrameInfo)) :=
  st <- get ;;
  match map_search (fun info => request info =? req)
                   (frameInfo_ st) with
  | Some slot => ret (Some slot)
  | None => log LogError "Can't locate info from request" ;; ret None
  end.

Definition create (frm : Z) (req : Request)
  : M W (option RkISP1FrameInfo) :=
  st <- get ;;
  match paramBuffers_ st with
  | [] => log LogError "Parameters buffer underrun" ;; ret None
  | paramBuffer :: _ =>
    match statBuffers_ st with
    | [] => log LogError "Statisitc buffer underrun" ;; ret None
    | statBuffer :: _ =>
      match findBuffer (world st) req with
      | None =>
          log LogError "Attempt to queue request with invalid stream" ;;
          ret None
      | Some videoBuffer =>
          modify (fun st => set_paramBuffers_ (queue_pop (paramBuffers_ st)) st) ;;
          modify (fun st => set_statBuffers_ (queue_pop (statBuffers_ st)) st) ;;
          let info := mkInfo frm req paramBuffer statBuffer videoBuffer
                             false false false in
          modify (fun st => set_frameInfo_ (map_assign frm info (frameInfo_ st)) st) ;;
          ret (Some info)
      end
    end
  end.

Definition destroy (frm : Z) : M W Z :=
  info <- find_frame frm ;;
  match info with
  | None => ret (- ENOENT)
  | Some info =>
      modify (fun st => set_paramBuffers_
                          (queue_push (paramBuffers_ st) (paramBuffer info)) st) ;;
      modify (fun st => set_statBuffers_
                          (queue_push (statBuffers_ st) (statBuffer info)) st) ;;
      modify (fun st => set_frameInfo_
                          (map_erase (frame info) (frameInfo_ st)) st) ;;
      ret 0
  end.

(** ** RkISP1ActionQueueBuffers::run *)

Definition RkISP1ActionQueueBuffers_run (frm : Z) : M W unit :=
  info <- find_frame frm ;;
  match info with
  | None => log LogFatal "Frame not known" ;; fault
  | Some info =>
      (if paramFilled info
       then call (QueueBuffer Param (paramBuffer info)) ;; ret tt
       else log LogError "Parameters not ready on time for frame, ignore parameters.") ;;
      call (QueueBuffer Stat (statBuffer info)) ;;
      call (QueueBuffer Video (videoBuffer info)) ;;
      ret tt
  end.

(** ** Buffer handling *)

(* cameraData(activeCamera_): no camera data is registered for a null camera *)
Definition activeCameraData : M W Camera :=
  st <- get ;;
  match activeCamera_ st with
  | Some camera => ret camera
  | None => fault
  end.

Definition tryCompleteRequest (req : Request) : M W unit :=
  camera <- activeCameraData ;;
  slot <- find_request req ;;
  match slot with
  | None => ret tt
  | Some (_, info) =>
      st <- get ;;
      if hasPendingBuffers (world st) req then ret tt
      else if negb (metadataProcessed info) then ret tt
      else if negb (paramDequeued info) then ret tt
      else
        call (CompleteRequest camera req) ;;
        destroy (frame info) ;;
        ret tt
  end.

Definition bufferReady (buffer : Buffer.t) : M W unit :=
  camera <- activeCameraData ;;                 (* ASSERT(activeCamera_) *)
  let req := Buffer.request buffer in
  call (TimelineBufferReady buffer) ;;
  st <- get ;;
  (if frame_ st <=? Buffer.sequence buffer
   then modify (set_frame_ (uint (Buffer.sequence buffer + 1)))
   else ret tt) ;;
  call (CompleteBuffer camera req buffer) ;;
  tryCompleteRequest req.

Definition paramReady (buffer : Buffer.t) : M W unit :=
  _ <- activeCameraData ;;
  slot <- find_buffer buffer ;;
  match slot with
  | None => fault                                (* info->paramDequeued on a null info *)
  | Some (k, info) =>
      modify (fun st => set_frameInfo_
                          (map_update k (set_paramDequeued true) (frameInfo_ st)) st) ;;
      tryCompleteRequest (request info)
  end.

Definition statReady (buffer : Buffer.t) : M W unit :=
  _ <- activeCameraData ;;
  slot <- find_buffer buffer ;;
  match slot with
  | None => ret tt
  | Some (_, info) =>
      let frm := frame info in
      let statid := Z.lor RKISP1_STAT_BASE (Buffer.index (statBuffer info)) in
      call (ProcessEvent (mkOp RKISP1_IPA_EVENT_SIGNAL_STAT_BUFFER
                               [frm; statid] [])) ;;
      ret tt
  end.

(** ** IPA replies *)

Definition metadataReady (frm : Z) (metadata : ControlList) : M W unit :=
  info <- find_frame frm ;;
  match info with
  | None => ret tt
  | Some info =>
      call (SetMetadata (request info) metadata) ;;
      modify (fun st => set_frameInfo_
                          (map_update frm (set_metadataProcessed true)
                                      (frameInfo_ st)) st) ;;
      tryCompleteRequest (request info)
  end.

Definition queueFrameAction (frm : Z) (action : IPAOperationData) : M W unit :=
  match operation action with
  | RKISP1_IPA_ACTION_V4L2_SET =>
      match controls action with
      | ctrls :: _ => call (ScheduleAction frm SetSensor ctrls) ;; ret tt
      | [] => fault                               (* action.controls[0] *)
      end
  | RKISP1_IPA_ACTION_PARAM_FILLED =>
      info <- find_frame frm ;;
      match info with
      | Some _ =>
          modify (fun st => set_frameInfo_
                              (map_update frm (set_paramFilled true)
                                          (frameInfo_ st)) st)
      | None => ret tt
      end
  | RKISP1_IPA_ACTION_METADATA =>
      match controls action with
      | metadata :: _ => metadataReady frm metadata
      | [] => fault
      end
  | _ => log LogError "Unkown action"
  end.

(** ** Pipeline operations *)

Definition new_Buffer (i : Z) : M W Buffer.t :=
  st <- get ;;
  modify (set_heap_ (heap_ st + 1)) ;;
  ret (Buffer.mk (heap_ st) i 0 0 0).

(* for (unsigned int i = 0; i < count; i++) { ipaBuffers_.push_back(...);
   queue.push(new Buffer(i)); } *)
Fixpoint registerBuffers (base : Z) (pool : Pool)
         (push : Buffer.t -> State W -> State W)
         (n : nat) (i : Z) : M W unit :=
  match n with
  | O => ret tt
  | S n' =>
      modify (fun st => set_ipaBuffers_
                          (ipaBuffers_ st ++ [mkIPABuffer (Z.lor base i) (pool, i)])
                          st) ;;
      b <- new_Buffer i ;;
      modify (push b) ;;
      registerBuffers base pool push n' (i + 1)
  end.

Definition push_paramBuffers_ (b : Buffer.t) (st : State W) :=
  set_paramBuffers_ (queue_push (paramBuffers_ st) b) st.
Definition push_statBuffers_ (b : Buffer.t) (st : State W) :=
  set_statBuffers_ (queue_push (statBuffers_ st) b) st.

Definition allocateBuffers (camera : Camera) (streams : list Stream) : M W Z :=
  match streams with
  | [] => fault                                   (* *streams.begin() *)
  | stream :: _ =>
      r <- (match memoryType stream with
            | InternalMemory => call (ExportBuffers Video StreamPool)
            | ExternalMemory => call (ImportBuffers Video StreamPool)
            end) ;;
      if negb (r =? 0) then ret r else
      let count := uint (bufferCount stream + 1) in
      call (CreateBuffers ParamPool count) ;;
      r <- call (ExportBuffers Param ParamPool) ;;
      if negb (r =? 0) then
        call (ReleaseBuffers Video) ;; ret r
      else
      call (CreateBuffers StatPool count) ;;
      r <- call (ExportBuffers Stat StatPool) ;;
      if negb (r =? 0) then
        call (ReleaseBuffers Param) ;;
        call (ReleaseBuffers Video) ;;
        ret r
      else
      registerBuffers RKISP1_PARAM_BASE ParamPool push_paramBuffers_
                      (Z.to_nat count) 0 ;;
      registerBuffers RKISP1_STAT_BASE StatPool push_statBuffers_
                      (Z.to_nat count) 0 ;;
      st <- get ;;
      call (MapBuffers (ipaBuffers_ st)) ;;
      ret r
  end.

(* while (!queue.empty()) { delete queue.front(); queue.pop(); } *)
Fixpoint deleteBuffers (pop : State W -> State W) (q : list Buffer.t)
  : M W unit :=
  match q with
  | [] => ret tt
  | b :: q' =>
      call (DeleteBuffer b) ;;
      modify pop ;;
      deleteBuffers pop q'
  end.

Definition pop_paramBuffers_ (st : State W) :=
  set_paramBuffers_ (queue_pop (paramBuffers_ st)) st.
Definition pop_statBuffers_ (st : State W) :=
  set_statBuffers_ (queue_pop (statBuffers_ st)) st.

Definition freeBuffers (camera : Camera) (streams : list Stream) : M W Z :=
  st <- get ;;
  deleteBuffers pop_statBuffers_ (statBuffers_ st) ;;
  st <- get ;;
  deleteBuffers pop_paramBuffers_ (paramBuffers_ st) ;;
  st <- get ;;
  let ids := map id (ipaBuffers_ st) in
  call (UnmapBuffers ids) ;;
  modify (set_ipaBuffers_ []) ;;
  r <- call (ReleaseBuffers Param) ;;
  (if negb (r =? 0)
   then log LogError "Failed to release parameters buffers" else ret tt) ;;
  r <- call (ReleaseBuffers Stat) ;;
  (if negb (r =? 0)
   then log LogError "Failed to release stat buffers" else ret tt) ;;
  r <- call (ReleaseBuffers Video) ;;
  (if negb (r =? 0)
   then log LogError "Failed to release video buffers" else ret tt) ;;
  ret 0.

Definition start (camera : Camera) : M W Z :=
  modify (set_frame_ 0) ;;
  r <- call (StreamOn Param) ;;
  if negb (r =? 0) then
    log LogError "Failed to start parameters" ;; ret r
  else
  r <- call (StreamOn Stat) ;;
  if negb (r =? 0) then
    call (StreamOff Param) ;;
    log LogError "Failed to start statistics" ;;
    ret r
  else
  r <- call (StreamOn Video) ;;
  (if negb (r =? 0) then
     call (StreamOff Param) ;;
     call (StreamOff Stat) ;;
     log LogError "Failed to start camera"
   else ret tt) ;;
  modify (set_activeCamera_ (Some camera)) ;;
  call Configure ;;
  ret r.

Definition stop (camera : Camera) : M W unit :=
  r <- call (StreamOff Video) ;;
  (if negb (r =? 0) then log LogWarning "Failed to stop camera" else ret tt) ;;
  r <- call (StreamOff Stat) ;;
  (if negb (r =? 0) then log LogWarning "Failed to stop statistics" else ret tt) ;;
  r <- call (StreamOff Param) ;;
  (if negb (r =? 0) then log LogWarning "Failed to stop parameters" else ret tt) ;;
  call TimelineReset ;;
  modify (set_activeCamera_ None).

Definition queueRequest (camera : Camera) (req : Request) : M W Z :=
  call (BaseQueueRequest camera req) ;;
  st <- get ;;
  info <- create (frame_ st) req ;;
  match info with
  | None => ret (- ENOENT)
  | Some info =>
      st <- get ;;
      call (ProcessEvent
              (mkOp RKISP1_IPA_EVENT_QUEUE_REQUEST
                    [frame_ st;
                     Z.lor RKISP1_PARAM_BASE (Buffer.index (paramBuffer info))]
                    [requestControls (world st) req])) ;;
      call (ScheduleAction (frame_ st) QueueBuffers []) ;;
      modify (fun st => set_frame_ (uint (frame_ st + 1)) st) ;;
      ret 0
  end.

(** ** Entry points as events *)

Inductive Event :=
| EvAllocateBuffers (camera : Camera) (streams : list Stream)
| EvFreeBuffers (camera : Camera) (streams : list Stream)
| EvStart (camera : Camera)
| EvStop (camera : Camera)
| EvQueueRequest (camera : Camera) (req : Request)
| EvBufferReady (buffer : Buffer.t)
| EvParamReady (buffer : Buffer.t)
| EvStatReady (buffer : Buffer.t)
| EvFrameAction (frm : Z) (action : IPAOperationData)
| EvRunQueueBuffers (frm : Z).    (* the timeline fires the action *)

Definition handle (e : Event) : M W unit :=
  match e with
  | EvAllocateBuffers camera streams => allocateBuffers camera streams ;; ret tt
  | EvFreeBuffers camera streams => freeBuffers camera streams ;; ret tt
  | EvStart camera => start camera ;; ret tt
  | EvStop camera => stop camera
  | EvQueueRequest camera req => queueRequest camera req ;; ret tt
  | EvBufferReady buffer => bufferReady buffer
  | EvParamReady buffer => paramReady buffer
  | EvStatReady buffer => statReady buffer
  | EvFrameAction frm action => queueFrameAction frm action
  | EvRunQueueBuffers frm => RkISP1ActionQueueBuffers_run frm
  end.

Fixpoint run (es : list Event) : M W unit :=
  match es with
  | [] => ret tt
  | e :: es' => handle e ;; run es'
  end.
End Handler.

(** ** A scripted world, to run the handler on concrete inputs *)

Record Script := mkScript
  { pending : list (Request * Z);          (* (request, address of a buffer still pending) *)
    carried : list (Request * Buffer.t);   (* the buffer a request carries for the stream *)
    results : Call -> Z }.                 (* what each external call returns *)

Definition script_effect (w : Script) (c : Call) : Script :=
  match c with
  | CompleteBuffer _ r b =>
      mkScript (filter (fun p => negb ((fst p =? r) && (snd p =? Buffer.addr b)))
                       (pending w))
               (carried w) (results w)
  | _ => w
  end.

#[export] Instance Script_World : World Script :=
  {| hasPendingBuffers w r := existsb (fun p => fst p =? r) (pending w);
     findBuffer w r := option_map snd (find (fun p => fst p =? r) (carried w));
     requestControls w r := [];
     call_result w c := results w c;
     call_effect := script_effect |}.

Definition all_succeed (c : Call) : Z := 0.

(** ** Well-formed frame tables

    [frameInfo_[frame] = info] is the only insertion and stores an info whose
    [frame] field is the key; keys of a [std::map] are distinct and visited in
    ascending order. *)

Fixpoint keys_from (lo : Z) (m : list (Z * RkISP1FrameInfo)) : bool :=
  match m with
  | [] => true
  | (k, info) :: m' => (lo <? k) && (frame info =? k) && keys_from k m'
  end.

Definition table_ok (m : list (Z * RkISP1FrameInfo)) : bool :=
  match m with
  | [] => true
  | (k, _) :: _ => keys_from (k - 1) m
  end.

(** ** Vocabulary of the properties *)

Section Vocabulary.
Context {W : Type} `{World W}.
Implicit Type st : State W.

(* the state RkISP1Frames::destroy leaves when it finds [info] *)
Definition destroyed (info : RkISP1FrameInfo) st : State W :=
  set_frameInfo_ (map_erase (frame info) (frameInfo_ st))
    (set_statBuffers_ (queue_push (statBuffers_ st) (statBuffer info))
       (set_paramBuffers_ (queue_push (paramBuffers_ st) (paramBuffer info)) st)).

(* the completion gate of tryCompleteRequest *)
Definition gate st (req : Request) (info : RkISP1FrameInfo) : bool :=
  negb (hasPendingBuffers (world st) req)
  && metadataProcessed info && paramDequeued info.

(* how many times completeRequest was called for [req] *)
Definition is_completion (req : Request) (c : Call) : bool :=
  match c with
  | CompleteRequest _ r => r =? req
  | _ => false
  end.

Definition completions (req : Request) (t : list Call) : nat :=
  List.length (filter (is_completion req) t).

(* how many live FrameInfos serve [req] *)
Definition live (req : Request) (m : list (Z * RkISP1FrameInfo)) : nat :=
  List.length (filter (fun kv => request (snd kv) =? req) m).

(* how many times [req] is handed to queueRequest *)
Definition is_admission (req : Request) (e : Event) : bool :=
  match e with
  | EvQueueRequest _ r => r =? req
  | _ => false
  end.

Definition admissions (req : Request) (es : list Event) : nat :=
  List.length (filter (is_admission req) es).

Definition credit (req : Request) st : nat :=
  (completions req (trace st) + live req (frameInfo_ st))%nat.

(* free queue plus buffers held by live FrameInfos, per role *)
Definition param_total st : nat :=
  (List.length (paramBuffers_ st) + List.length (frameInfo_ st))%nat.
Definition stat_total st : nat :=
  (List.length (statBuffers_ st) + List.length (frameInfo_ st))%nat.

(* entry points that neither allocate nor free the pools *)
Definition streaming_event (e : Event) : bool :=
  match e with
  | EvAllocateBuffers _ _ | EvFreeBuffers _ _ => false
  | _ => true
  end.

(* a state transformation under which the table stays well formed, no
   further completion of [req] is owed and the pools stay balanced *)
Definition steady (req : Request) st st' : Prop :=
  table_ok (frameInfo_ st) = true ->
  table_ok (frameInfo_ st') = true
  /\ (credit req st' <= credit req st)%nat
  /\ param_total st' = param_total st
  /\ stat_total st' = stat_total st.

Definition steadily {A} (req : Request) (c : M W A) : Prop :=
  forall st a st', c st = Ok (a, st') -> steady req st st'.

(* [c] leaves the projection [proj] of the state alone *)
Definition keeps {X A} (proj : State W -> X) (c : M W A) : Prop :=
  forall st a st', c st = Ok (a, st') -> proj st' = proj st.

Definition view (req : Request) st :=
  (frameInfo_ st, paramBuffers_ st, statBuffers_ st,
   completions req (trace st)).

(* a write through an info pointer that changes neither frame nor request *)
Definition keeps_identity (f : RkISP1FrameInfo -> RkISP1FrameInfo) : Prop :=
  forall i, frame (f i) = frame i /\ request (f i) = request i.

(* runs of streaming entry points in which every queueRequest draws a
   frame number that is not in the table *)
Inductive fresh_run : list Event -> State W -> State W -> Prop :=
| fresh_nil st : fresh_run [] st st
| fresh_cons e es st st1 st' :
    streaming_event e = true ->
    (forall camera req, e = EvQueueRequest camera req ->
                        map_find (frame_ st) (frameInfo_ st) = None) ->
    handle e st = Ok (tt, st1) ->
    fresh_run es st1 st' ->
    fresh_run (e :: es) st st'.

(* [st'] differs from [st] in the free queues, the IPA buffer list and the
   allocator only *)
Definition same_outside st st' : Prop :=
  frame_ st' = frame_ st /\ frameInfo_ st' = frameInfo_ st
  /\ activeCamera_ st' = activeCamera_ st
  /\ world st' = world st /\ trace st' = trace st.

Definition is_log (c : Call) : bool :=
  match c with
  | Log _ _ => true
  | _ => false
  end.

Definition table_view (req : Request) st :=
  (frameInfo_ st, completions req (trace st)).
End Vocabulary.

(** ** Concrete runs on the scripted world *)

Definition state_of {A} (r : result (A * State Script)) (dflt : State Script)
  : State Script :=
  match r with
  | Ok (_, st) => st
  | Fault => dflt
  end.

(* two requests, 70 and 71, carrying the image buffers at addresses 500 and 501 *)
Definition image70 : Buffer.t := Buffer.mk 500 0 0 0 70.
Definition image71 : Buffer.t := Buffer.mk 501 1 1 0 71.

Definition two_requests : Script :=
  mkScript [(70, 500); (71, 501)] [(70, image70); (71, image71)] all_succeed.

Definition idle : State Script :=
  mkState 0 [] [] [] [] None 1000 two_requests [].

Definition allocated : State Script :=
  Eval vm_compute in
    state_of (allocateBuffers 1 [mkStream InternalMemory 4] idle) idle.

(* allocateBuffers with bufferCount = 4, then start *)
Definition streaming : State Script :=
  Eval vm_compute in
    state_of (run [EvAllocateBuffers 1 [mkStream InternalMemory 4]; EvStart 1] idle)
             idle.

(* request 70 admitted as frame 0 *)
Definition admitted : State Script :=
  Eval vm_compute in state_of (run [EvQueueRequest 1 70] streaming) idle.

Definition param0 : Buffer.t := Buffer.mk 1000 0 0 0 0.
Definition stat0 : Buffer.t := Buffer.mk 1005 0 0 0 0.

Definition PARAM_FILLED : IPAOperationData :=
  mkOp RKISP1_IPA_ACTION_PARAM_FILLED [] [].
Definition METADATA : IPAOperationData :=
  mkOp RKISP1_IPA_ACTION_METADATA [] [[(1, 1)]].

(* frame 0 has its parameters and metadata; only the image is outstanding *)
Definition awaiting_image : State Script :=
  Eval vm_compute in
    state_of (run [EvFrameAction 0 PARAM_FILLED; EvRunQueueBuffers 0;
                   EvParamReady param0; EvStatReady stat0;
                   EvFrameAction 0 METADATA] admitted)
             idle.

(* ... and the image buffer has just been handed to completeBuffer *)
Definition image_done : State Script :=
  Eval vm_compute in emit (CompleteBuffer 1 70 image70) awaiting_image.

(* every event of frame 0 delivered, then delivered again *)
Definition frame0_events : list Event :=
  [EvFrameAction 0 PARAM_FILLED; EvRunQueueBuffers 0;
   EvParamReady param0; EvStatReady stat0;
   EvFrameAction 0 METADATA; EvBufferReady image70;
   EvBufferReady image70; EvFrameAction 0 METADATA; EvStatReady stat0].

Definition frame0_completed : State Script :=
  Eval vm_compute in state_of (run frame0_events admitted) idle.

(* after stop and start the frame counter is back at 0 while frame 0 is still
   in the table: the next queueRequest assigns frame 0 again *)
Definition restarted : State Script :=
  Eval vm_compute in
    state_of (run [EvStop 1; EvStart 1; EvQueueRequest 1 71] admitted) idle.

(* worlds in which one external call fails *)
Definition video_streamOn_fails (c : Call) : Z :=
  match c with
  | StreamOn Video => -5
  | _ => 0
  end.

Definition configure_fails (c : Call) : Z :=
  match c with
  | Configure => -22
  | _ => 0
  end.

Definition stat_streamOn_fails (c : Call) : Z :=
  match c with
  | StreamOn Stat => -5
  | _ => 0
  end.

Definition stopped (results : Call -> Z) : State Script :=
  mkState 7 [] [] [] [] None 1000 (mkScript [] [] results) [].

(* the sixth request in a row: both free queues are empty *)
Definition exhausted : State Script :=
  Eval vm_compute in
    state_of (run [EvQueueRequest 1 70; EvQueueRequest 1 71; EvQueueRequest 1 70;
                   EvQueueRequest 1 71; EvQueueRequest 1 70] streaming) idle.

(* an image buffer the kernel returns with the largest sequence number *)
Definition image_last : Buffer.t := Buffer.mk 500 0 UINT_MAX 0 70.
Definition image_seq7 : Buffer.t := Buffer.mk 500 0 7 0 70.

(** ** Vocabulary of the frame ledger *)

Section LedgerVocabulary.
Context {W : Type} `{World W}.
Implicit Type st : State W.

(* [i'] is [i] with, possibly, more completion flags set *)
Definition flags_grow (i i' : RkISP1FrameInfo) : Prop :=
  frame i' = frame i /\ request i' = request i
  /\ paramBuffer i' = paramBuffer i /\ statBuffer i' = statBuffer i
  /\ videoBuffer i' = videoBuffer i
  /\ (paramFilled i = true -> paramFilled i' = true)
  /\ (paramDequeued i = true -> paramDequeued i' = true)
  /\ (metadataProcessed i = true -> metadataProcessed i' = true).

(* every entry of [m'] is an entry of [m] under the same key, flags grown *)
Definition descends (m m' : list (Z * RkISP1FrameInfo)) : Prop :=
  forall k i', In (k, i') m' -> exists i, In (k, i) m /\ flags_grow i i'.

Definition descending {A} (c : M W A) : Prop :=
  forall st a st', c st = Ok (a, st') -> descends (frameInfo_ st) (frameInfo_ st').

Definition is_queueRequest (e : Event) : bool :=
  match e with
  | EvQueueRequest _ _ => true
  | _ => false
  end.

(* the entry points from which tryCompleteRequest is reached *)
Definition may_complete (e : Event) : bool :=
  match e with
  | EvBufferReady _ | EvParamReady _ => true
  | EvFrameAction _ action =>
      match operation action with
      | RKISP1_IPA_ACTION_METADATA => true
      | _ => false
      end
  | _ => false
  end.

(* every frame number in the table is below the frame counter *)
Definition keys_below st : bool :=
  forallb (fun kv => fst kv <? frame_ st) (frameInfo_ st).

(* entry points of one streaming session whose counters do not wrap: no
   allocateBuffers, freeBuffers or start; queueRequest while the counter is
   below UINT_MAX; image buffers with a sequence number below UINT_MAX *)
Definition session_event (e : Event) st : bool :=
  match e with
  | EvAllocateBuffers _ _ | EvFreeBuffers _ _ | EvStart _ => false
  | EvQueueRequest _ _ => (0 <=? frame_ st) && (frame_ st <? UINT_MAX)
  | EvBufferReady b =>
      (0 <=? Buffer.sequence b) && (Buffer.sequence b <? UINT_MAX)
  | _ => true
  end.

Inductive session_run : list Event -> State W -> State W -> Prop :=
| session_nil st : session_run [] st st
| session_cons e es st st1 st' :
    session_event e st = true ->
    handle e st = Ok (tt, st1) ->
    session_run es st1 st' ->
    session_run (e :: es) st st'.

(* the IPA buffer entries and the queue buffers that a registration loop of
   [n] rounds adds, starting at slot [i] with the allocator at [heap] *)
Definition ipa_entries (base : Z) (pool : Pool) (i : Z) (n : nat)
  : list IPABuffer :=
  map (fun j => mkIPABuffer (Z.lor base (i + Z.of_nat j)) (pool, i + Z.of_nat j))
      (seq 0 n).

Definition new_buffers (heap : Z) (i : Z) (n : nat) : list Buffer.t :=
  map (fun j => Buffer.mk (heap + Z.of_nat j) (i + Z.of_nat j) 0 0 0) (seq 0 n).

(* the ids under which allocateBuffers registers [n] buffers of each role *)
Definition registered_ids (n : nat) : list Z :=
  map id (ipa_entries RKISP1_PARAM_BASE ParamPool 0 n
          ++ ipa_entries RKISP1_STAT_BASE StatPool 0 n).
End LedgerVocabulary.

(** ** Camera configurations

    [RkISP1CameraConfiguration::validate] and
    [PipelineHandlerRkISP1::generateConfiguration].  The pixel format and
    media bus codes come from kernel headers and are parameters; the sensor
    ([CameraSensor::getFormat], [CameraSensor::resolution]) is a record of
    its two const methods.  The division of [validate] by a zero width is a
    fault. *)

Module Size.
Record t := mk
  { width : Z;       (* unsigned int *)
    height : Z }.

Definition eqb (a b : t) : bool :=
  (width a =? width b) && (height a =? height b).
End Size.

Module StreamConfiguration.
Record t := mk
  { pixelFormat : Z;
    size : Size.t;
    bufferCount : Z }.
End StreamConfiguration.

Module V4L2SubdeviceFormat.
Record t := mk
  { mbus_code : Z;
    size : Size.t }.
End V4L2SubdeviceFormat.

Inductive Status := Valid | Adjusted | Invalid.

Record CameraSensor := mkSensor
  { getFormat : list Z -> Size.t -> V4L2SubdeviceFormat.t;
    resolution : Size.t }.

(* linux/videodev2.h and linux/media-bus-format.h *)
Class Uapi := mkUapi
  { V4L2_PIX_FMT_YUYV : Z;
    V4L2_PIX_FMT_YVYU : Z;
    V4L2_PIX_FMT_VYUY : Z;
    V4L2_PIX_FMT_NV16 : Z;
    V4L2_PIX_FMT_NV61 : Z;
    V4L2_PIX_FMT_NV21 : Z;
    V4L2_PIX_FMT_NV12 : Z;
    V4L2_PIX_FMT_GREY : Z;
    V4L2_PIX_FMT_UYVY : Z;
    V4L2_PIX_FMT_SRGGB10P : Z;
    MEDIA_BUS_FMT_SBGGR12_1X12 : Z;
    MEDIA_BUS_FMT_SGBRG12_1X12 : Z;
    MEDIA_BUS_FMT_SGRBG12_1X12 : Z;
    MEDIA_BUS_FMT_SRGGB12_1X12 : Z;
    MEDIA_BUS_FMT_SBGGR10_1X10 : Z;
    MEDIA_BUS_FMT_SGBRG10_1X10 : Z;
    MEDIA_BUS_FMT_SGRBG10_1X10 : Z;
    MEDIA_BUS_FMT_SRGGB10_1X10 : Z;
    MEDIA_BUS_FMT_SBGGR8_1X8 : Z;
    MEDIA_BUS_FMT_SGBRG8_1X8 : Z;
    MEDIA_BUS_FMT_SGRBG8_1X8 : Z;
    MEDIA_BUS_FMT_SRGGB8_1X8 : Z;
    MEDIA_BUS_FMT_UYVY8_2X8 : Z;
    MEDIA_BUS_FMT_YUYV8_2X8 : Z;
    V4L2_META_FMT_RK_ISP1_PARAMS : Z;
    V4L2_META_FMT_RK_ISP1_STAT_3A : Z }.

(* the members of a CameraConfiguration that validate reads and writes *)
Record CameraConfiguration := mkConfiguration
  { config_ : list StreamConfiguration.t;
    sensorFormat_ : V4L2SubdeviceFormat.t }.

Definition RKISP1_BUFFER_COUNT : Z := 4.

Section Configuration.
Context `{Uapi}.

Definition formats : list Z :=
  [V4L2_PIX_FMT_YUYV; V4L2_PIX_FMT_YVYU; V4L2_PIX_FMT_VYUY; V4L2_PIX_FMT_NV16;
   V4L2_PIX_FMT_NV61; V4L2_PIX_FMT_NV21; V4L2_PIX_FMT_NV12; V4L2_PIX_FMT_GREY].

Definition sensor_codes : list Z :=
  [MEDIA_BUS_FMT_SBGGR12_1X12; MEDIA_BUS_FMT_SGBRG12_1X12;
   MEDIA_BUS_FMT_SGRBG12_1X12; MEDIA_BUS_FMT_SRGGB12_1X12;
   MEDIA_BUS_FMT_SBGGR10_1X10; MEDIA_BUS_FMT_SGBRG10_1X10;
   MEDIA_BUS_FMT_SGRBG10_1X10; MEDIA_BUS_FMT_SRGGB10_1X10;
   MEDIA_BUS_FMT_SBGGR8_1X8; MEDIA_BUS_FMT_SGBRG8_1X8;
   MEDIA_BUS_FMT_SGRBG8_1X8; MEDIA_BUS_FMT_SRGGB8_1X8].

(* sensorFormat_ = sensor->getFormat(codes, size), falling back to the
   sensor resolution when a dimension is 0 *)
Definition select_sensor_format (sensor : CameraSensor) (codes : list Z)
           (size : Size.t) : V4L2SubdeviceFormat.t :=
  let f := getFormat sensor codes size in
  if (Size.width (V4L2SubdeviceFormat.size f) =? 0)
     || (Size.height (V4L2SubdeviceFormat.size f) =? 0)
  then V4L2SubdeviceFormat.mk (V4L2SubdeviceFormat.mbus_code f) (resolution sensor)
  else f.

(* the result of validate: status, the object's members, debug messages *)
Definition validate (sensor : CameraSensor) (c : CameraConfiguration)
  : result (Status * CameraConfiguration * list string) :=
  match config_ c with
  | [] => Ok (Invalid, c, [])
  | cfg :: others =>
      (* config_.resize(1) *)
      let status := match others with [] => Valid | _ => Adjusted end in
      (* pixel format *)
      let listed := existsb (Z.eqb (StreamConfiguration.pixelFormat cfg)) formats in
      let pixelFormat :=
        if listed then StreamConfiguration.pixelFormat cfg else V4L2_PIX_FMT_NV12 in
      let status := if listed then status else Adjusted in
      let msgs := if listed then [] else ["Adjusting format to NV12"%string] in
      (* sensor format *)
      let size := StreamConfiguration.size cfg in
      let sensorFormat := select_sensor_format sensor sensor_codes size in
      let ssize := V4L2SubdeviceFormat.size sensorFormat in
      (* default size *)
      let defaulted : result Size.t :=
        if (Size.width size =? 0) || (Size.height size =? 0) then
          if Size.width ssize =? 0 then Fault
          else Ok (Size.mk 1280 (uint (1280 * Size.height ssize) / Size.width ssize))
        else Ok size in
      match defaulted with
      | Fault => Fault
      | Ok s =>
          let s := Size.mk (Z.max 32 (Z.min 4416 (Size.width s)))
                           (Z.max 16 (Z.min 3312 (Size.height s))) in
          let changed := negb (Size.eqb s size) in
          let status := if changed then Adjusted else status in
          let msgs := if changed then msgs ++ ["Adjusting size"%string] else msgs in
          Ok (status,
              mkConfiguration
                [StreamConfiguration.mk pixelFormat s RKISP1_BUFFER_COUNT]
                sensorFormat,
              msgs)
      end
  end.

(* a default-constructed V4L2SubdeviceFormat *)
Definition no_format : V4L2SubdeviceFormat.t :=
  V4L2SubdeviceFormat.mk 0 (Size.mk 0 0).

(* [roles] is the StreamRoles vector; only its emptiness is read *)
Definition generateConfiguration (sensor : CameraSensor) (roles : list Z)
  : result (CameraConfiguration * list string) :=
  let config := mkConfiguration [] no_format in
  match roles with
  | [] => Ok (config, [])
  | _ :: _ =>
      let cfg := StreamConfiguration.mk V4L2_PIX_FMT_NV12 (resolution sensor) 0 in
      (* config->addConfiguration(cfg); config->validate(); *)
      match validate sensor (mkConfiguration (config_ config ++ [cfg])
                                             (sensorFormat_ config)) with
      | Ok (_, config, msgs) => Ok (config, msgs)
      | Fault => Fault
      end
  end.
End Configuration.

(** ** The simple pipeline handler ([src/libcamera/pipeline/simple.cpp])

    [video_[0]] is the device [Video]; the handler reads and writes only the
    active camera of the state. *)

Module Simple.

Record SimplePipelineInfo := mkPipelineInfo
  { driverName : string;
    phyNames : list string;      (* std::string[MAX_PHYS] *)
    subdevNames : list string;
    vdevNames : list string;
    v4l2PixFmt : Z;
    mediaBusFmt : Z;
    maxWidth : Z;
    maxHeight : Z }.

Section SimpleConfiguration.
Context `{Uapi}.

(* the table of PipelineHandlerSimple::match *)
(* an unset element of the name arrays *)
Definition no_name : string := EmptyString.

Definition infos : list SimplePipelineInfo :=
  [mkPipelineInfo "sun6i-csi"%string
                  ["sun6i-csi"%string; no_name; no_name; no_name]
                  [no_name; no_name; no_name; no_name]
                  ["sun6i-csi"%string; no_name; no_name; no_name]
                  V4L2_PIX_FMT_UYVY MEDIA_BUS_FMT_UYVY8_2X8 1280 720;
   mkPipelineInfo "qcom-camss"%string
                  ["msm_csiphy0"%string; no_name; no_name; no_name]
                  ["msm_csid0"%string; "msm_ispif0"%string; no_name; no_name]
                  ["msm_vfe0_video0"%string; no_name; no_name; no_name]
                  V4L2_PIX_FMT_SRGGB10P MEDIA_BUS_FMT_SRGGB10_1X10 1920 1080].

Definition validate (pipelineInfo_ : SimplePipelineInfo) (sensor : CameraSensor)
           (c : CameraConfiguration)
  : result (Status * CameraConfiguration * list string) :=
  match config_ c with
  | [] => Ok (Invalid, c, [])
  | cfg :: others =>
      let status := match others with [] => Valid | _ => Adjusted end in
      let same := StreamConfiguration.pixelFormat cfg =? v4l2PixFmt pipelineInfo_ in
      let status := if same then status else Adjusted in
      let msgs := if same then [] else ["Adjusting pixel format"%string] in
      let size := StreamConfiguration.size cfg in
      let sensorFormat :=
        select_sensor_format sensor [mediaBusFmt pipelineInfo_] size in
      let ssize := V4L2SubdeviceFormat.size sensorFormat in
      let pipelineMaxWidth := Z.min (Size.width ssize) (maxWidth pipelineInfo_) in
      let pipelineMaxHeight := Z.min (Size.height ssize) (maxHeight pipelineInfo_) in
      let defaulted : result Size.t :=
        if (Size.width size =? 0) || (Size.height size =? 0) then
          if Size.width ssize =? 0 then Fault
          else Ok (Size.mk pipelineMaxWidth
                           (uint (pipelineMaxWidth * Size.height ssize)
                            / Size.width ssize))
        else Ok size in
      match defaulted with
      | Fault => Fault
      | Ok s =>
          let s := Size.mk (Z.min pipelineMaxWidth (Size.width s))
                           (Z.min pipelineMaxHeight (Size.height s)) in
          let s := Size.mk (Z.max 32 (Z.min 4416 (Size.width s)))
                           (Z.max 16 (Z.min 3312 (Size.height s))) in
          let changed := negb (Size.eqb s size) in
          let status := if changed then Adjusted else status in
          let msgs := if changed then msgs ++ ["Adjusting size"%string] else msgs in
          Ok (status,
              mkConfiguration
                [StreamConfiguration.mk (v4l2PixFmt pipelineInfo_) s 3]
                sensorFormat,
              msgs)
      end
  end.
End SimpleConfiguration.

Section SimpleHandler.
Context {W : Type} `{World W}.

Definition allocateBuffers (camera : Camera) (streams : list Stream) : M W Z :=
  match streams with
  | [] => fault                                   (* *streams.begin() *)
  | stream :: _ =>
      match memoryType stream with
      | InternalMemory => call (ExportBuffers Video StreamPool)
      | ExternalMemory => call (ImportBuffers Video StreamPool)
      end
  end.

Definition freeBuffers (camera : Camera) (streams : list Stream) : M W Z :=
  r <- call (ReleaseBuffers Video) ;;
  (if negb (r =? 0) then log LogError "Failed to release buffers" else ret tt) ;;
  ret 0.

Definition start (camera : Camera) : M W Z :=
  r <- call (StreamOn Video) ;;
  (if negb (r =? 0) then log LogError "Failed to start camera" else ret tt) ;;
  modify (set_activeCamera_ (Some camera)) ;;
  ret r.

Definition stop (camera : Camera) : M W unit :=
  r <- call (StreamOff Video) ;;
  (if negb (r =? 0) then log LogWarning "Failed to stop camera" else ret tt) ;;
  modify (set_activeCamera_ None).

Definition queueRequest (camera : Camera) (req : Request) : M W Z :=
  st <- get ;;
  match findBuffer (world st) req with
  | None =>
      log LogError "Attempt to queue request with invalid stream" ;;
      ret (- ENOENT)
  | Some buffer =>
      r <- call (QueueBuffer Video buffer) ;;
      if r <? 0 then ret r
      else
        call (BaseQueueRequest camera req) ;;
        ret 0
  end.

Definition bufferReady (buffer : Buffer.t) : M W unit :=
  camera <- activeCameraData ;;                   (* ASSERT(activeCamera_) *)
  log LogDebug "bufferReady" ;;
  let req := Buffer.request buffer in
  call (CompleteBuffer camera req buffer) ;;
  call (CompleteRequest camera req) ;;
  ret tt.
End SimpleHandler.
End Simple.

(** ** Concrete inputs for the configuration and pool properties *)

(* the values of linux/videodev2.h and linux/media-bus-format.h *)
Definition linux_uapi : Uapi :=
  mkUapi 0x56595559 0x55595659 0x59555956 0x3631564e 0x3136564e 0x3132564e
         0x3231564e 0x59455247 0x59565955 0x41415270
         0x3008 0x3010 0x3011 0x3012 0x3007 0x300e 0x300a 0x300f
         0x3001 0x3013 0x3002 0x3014 0x2006 0x2008
         0x50314b52 0x53314b52.

(* a sensor that always proposes its full resolution, 2592x1944 *)
Definition sensor_5mp : CameraSensor :=
  mkSensor (fun _ _ => V4L2SubdeviceFormat.mk 0x3007 (Size.mk 2592 1944))
           (Size.mk 2592 1944).

(* a sensor that reports no size at all *)
Definition sensor_blank : CameraSensor :=
  mkSensor (fun _ _ => V4L2SubdeviceFormat.mk 0 (Size.mk 0 0)) (Size.mk 0 0).

(* two requested streams: an unsupported format at 8000x10, and a second one *)
Definition requested : CameraConfiguration :=
  mkConfiguration
    [StreamConfiguration.mk 0x47504a4d (Size.mk 8000 10) 9;
     StreamConfiguration.mk 0x3231564e (Size.mk 640 480) 9]
    (V4L2SubdeviceFormat.mk 0 (Size.mk 0 0)).

Definition requested_valid : CameraConfiguration :=
  mkConfiguration [StreamConfiguration.mk 0x3231564e (Size.mk 640 480) 9]
                  (V4L2SubdeviceFormat.mk 0 (Size.mk 0 0)).

Definition param_export_fails (c : Call) : Z :=
  match c with
  | ExportBuffers Param _ => -12
  | _ => 0
  end.

Definition after_param_set : State Script :=
  Eval vm_compute in
    state_of (queueFrameAction 0 PARAM_FILLED admitted) idle.

(* ... and then the params device returned the parameter buffer of frame 0 *)
Definition after_param_dequeued : State Script :=
  Eval vm_compute in state_of (paramReady param0 after_param_set) idle.

Definition admitted_twice : State Script :=
  Eval vm_compute in state_of (queueRequest 1 71 admitted) idle.

Definition created : State Script :=
  Eval vm_compute in state_of (create 9 70 streaming) idle.

Definition generated : CameraConfiguration :=
  mkConfiguration [StreamConfiguration.mk 0x3231564e (Size.mk 2592 1944) 4]
                  (V4L2SubdeviceFormat.mk 0x3007 (Size.mk 2592 1944)).

(** ** configure and initLinks

    The media graph, the sensor, the two subdevices and the video devices are
    outside the handler: a call on them is recorded, returns an [int] and,
    for the format calls, the format written back through the pointer
    argument. *)

Definition EINVAL : Z := 22.
Definition ENODEV : Z := 19.

Inductive Subdev := Dphy | Isp.      (* dphy_, isp_ *)

Record V4L2DeviceFormat := mkDeviceFormat
  { fourcc : Z;
    dev_size : Size.t;
    planesCount : Z }.

Record MediaLink := mkLink
  { link_id : Z;                     (* identity of the link *)
    source_entity : Z }.             (* link->source()->entity() *)

Inductive MediaCall :=
| MediaLog (sev : LogSeverity) (msg : string)
| DisableLinks                                       (* media_->disableLinks() *)
| SetEnabled (l : MediaLink) (enable : bool)         (* link->setEnabled() *)
| SensorSetFormat (f : V4L2SubdeviceFormat.t)
| SubdevSetFormat (d : Subdev) (pad : Z) (f : V4L2SubdeviceFormat.t)
| SubdevGetFormat (d : Subdev) (pad : Z) (f : V4L2SubdeviceFormat.t)
| VideoSetFormat (d : Device) (f : V4L2DeviceFormat)
| SetStream.                                         (* cfg.setStream(&stream_) *)

Class Media (G : Type) := mkMedia
  { linkEnabled : G -> MediaLink -> bool;   (* link->flags() & MEDIA_LNK_FL_ENABLED *)
    findLink : G -> string -> Z -> string -> Z -> option MediaLink;  (* media_->link() *)
    media_result : G -> MediaCall -> Z;
    subdev_format : G -> MediaCall -> V4L2SubdeviceFormat.t;
    device_format : G -> MediaCall -> V4L2DeviceFormat;
    media_effect : G -> MediaCall -> G }.

Record Setup (G : Type) := mkSetup
  { media : G;
    calls : list MediaCall }.
Arguments mkSetup {G}.
Arguments media {G}.
Arguments calls {G}.

Definition K (G A : Type) := Setup G -> result (A * Setup G).

Section SetupMonad.
Context {G : Type} `{Media G}.

Definition kret {A} (a : A) : K G A := fun s => Ok (a, s).
Definition kbind {A B} (c : K G A) (k : A -> K G B) : K G B :=
  fun s => match c s with
           | Ok (a, s') => k a s'
           | Fault => Fault
           end.
Definition kfault {A} : K G A := fun _ => Fault.
Definition kget : K G (Setup G) := fun s => Ok (s, s).

Definition record (c : MediaCall) (s : Setup G) : Setup G :=
  mkSetup (media_effect (media s) c) (calls s ++ [c]).

Definition kcall (c : MediaCall) : K G Z :=
  fun s => Ok (media_result (media s) c, record c s).
Definition kcall_subdev (c : MediaCall) : K G (Z * V4L2SubdeviceFormat.t) :=
  fun s => Ok ((media_result (media s) c, subdev_format (media s) c), record c s).
Definition kcall_video (c : MediaCall) : K G (Z * V4L2DeviceFormat) :=
  fun s => Ok ((media_result (media s) c, device_format (media s) c), record c s).
Definition klog (sev : LogSeverity) (msg : string) : K G unit :=
  fun s => Ok (tt, record (MediaLog sev msg) s).
End SetupMonad.

Declare Scope setup_scope.
Delimit Scope setup_scope with setup.
Notation "x <- c ;; k" := (kbind c (fun x => k))
  (at level 61, c at next level, right associativity) : setup_scope.
Notation "' pat <- c ;; k" := (kbind c (fun x => match x with pat => k end))
  (at level 61, pat pattern, c at next level, right associativity) : setup_scope.
Notation "c ;; k" := (kbind c (fun _ => k))
  (at level 61, right associativity) : setup_scope.

Section Configure.
Context {G : Type} `{Media G} `{Uapi}.
Local Open Scope setup_scope.

(* the loop over pad->links(); a negative result is the return value of
   configure, 0 means the loop ran to its end *)
Fixpoint configureLinks (sensor_entity : Z) (links : list MediaLink) : K G Z :=
  match links with
  | [] => kret 0
  | link :: rest =>
      s <- kget ;;
      let enable := source_entity link =? sensor_entity in
      if Bool.eqb (linkEnabled (media s) link) enable
      then configureLinks sensor_entity rest
      else
        klog LogDebug (if enable then "Enabling link from sensor to CSI-2 receiver"
                       else "Disabling link from sensor to CSI-2 receiver") ;;
        r <- kcall (SetEnabled link enable) ;;
        if r <? 0 then kret r else configureLinks sensor_entity rest
  end.

Definition size_differs (a b : Size.t) : bool := negb (Size.eqb a b).

(* [pad] is dphy_->entity()->getPadByIndex(0) with its links, [config] the
   stream configurations of the CameraConfiguration *)
Definition configure (sensor_entity : Z) (pad : option (list MediaLink))
           (sensorFormat : V4L2SubdeviceFormat.t)
           (config : list StreamConfiguration.t) : K G Z :=
  match config with
  | [] => kfault                                       (* config->at(0) *)
  | cfg :: _ =>
  match pad with
  | None => kfault                                     (* pad->links() *)
  | Some links =>
      r <- configureLinks sensor_entity links ;;
      if r <? 0 then kret r else
      let format := sensorFormat in
      klog LogDebug "Configuring sensor with" ;;
      '(r, format) <- kcall_subdev (SensorSetFormat format) ;;
      if r <? 0 then kret r else
      klog LogDebug "Sensor configured with" ;;
      '(r, format) <- kcall_subdev (SubdevSetFormat Dphy 0 format) ;;
      if r <? 0 then kret r else
      klog LogDebug "Configuring ISP input pad with" ;;
      '(r, format) <- kcall_subdev (SubdevGetFormat Dphy 1 format) ;;
      if r <? 0 then kret r else
      '(r, format) <- kcall_subdev (SubdevSetFormat Isp 0 format) ;;
      if r <? 0 then kret r else
      klog LogDebug "ISP input pad configured with" ;;
      let format := V4L2SubdeviceFormat.mk MEDIA_BUS_FMT_YUYV8_2X8
                                           (V4L2SubdeviceFormat.size format) in
      klog LogDebug "Configuring ISP output pad with" ;;
      '(r, format) <- kcall_subdev (SubdevSetFormat Isp 2 format) ;;
      if r <? 0 then kret r else
      klog LogDebug "ISP output pad configured with" ;;
      let outputFormat :=
        mkDeviceFormat (StreamConfiguration.pixelFormat cfg)
                       (StreamConfiguration.size cfg) 2 in
      '(r, outputFormat) <- kcall_video (VideoSetFormat Video outputFormat) ;;
      if negb (r =? 0) then kret r else
      if size_differs (dev_size outputFormat) (StreamConfiguration.size cfg)
         || negb (fourcc outputFormat =? StreamConfiguration.pixelFormat cfg)
      then
        klog LogError "Unable to configure capture in" ;;
        kret (- EINVAL)
      else
      let paramFormat :=
        mkDeviceFormat V4L2_META_FMT_RK_ISP1_PARAMS (Size.mk 0 0) 0 in
      '(r, _) <- kcall_video (VideoSetFormat Param paramFormat) ;;
      if negb (r =? 0) then kret r else
      let statFormat :=
        mkDeviceFormat V4L2_META_FMT_RK_ISP1_STAT_3A (Size.mk 0 0) 0 in
      '(r, _) <- kcall_video (VideoSetFormat Stat statFormat) ;;
      if negb (r =? 0) then kret r else
      kcall SetStream ;;
      kret 0
  end
  end.

Definition initLinks : K G Z :=
  r <- kcall DisableLinks ;;
  if r <? 0 then kret r else
  s <- kget ;;
  match findLink (media s) "rockchip-sy-mipi-dphy" 1 "rkisp1-isp-subdev" 0 with
  | None => kret (- ENODEV)
  | Some link =>
      r <- kcall (SetEnabled link true) ;;
      if r <? 0 then kret r else
      s <- kget ;;
      match findLink (media s) "rkisp1-isp-subdev" 2 "rkisp1_mainpath" 0 with
      | None => kret (- ENODEV)
      | Some link =>
          r <- kcall (SetEnabled link true) ;;
          if r <? 0 then kret r else kret 0
      end
  end.
End Configure.

Section ConfigureVocabulary.
Context `{Uapi}.

(* the calls the link loop may make for the sensor [sensor_entity] *)
Definition link_call (sensor_entity : Z) (links : list MediaLink)
           (c : MediaCall) : Prop :=
  match c with
  | MediaLog _ _ => True
  | SetEnabled l enable =>
      In l links /\ enable = (source_entity l =? sensor_entity)
  | _ => False
  end.

(* the constraints on what configure asks of the devices *)
Definition format_call (cfg : StreamConfiguration.t) (c : MediaCall) : Prop :=
  match c with
  | SubdevSetFormat Isp 2 f =>
      V4L2SubdeviceFormat.mbus_code f = MEDIA_BUS_FMT_YUYV8_2X8
  | VideoSetFormat Video f =>
      f = mkDeviceFormat (StreamConfiguration.pixelFormat cfg)
                         (StreamConfiguration.size cfg) 2
  | VideoSetFormat Param f =>
      f = mkDeviceFormat V4L2_META_FMT_RK_ISP1_PARAMS (Size.mk 0 0) 0
  | VideoSetFormat Stat f =>
      f = mkDeviceFormat V4L2_META_FMT_RK_ISP1_STAT_3A (Size.mk 0 0) 0
  | _ => True
  end.

Definition is_SetEnabled (c : MediaCall) : bool :=
  match c with
  | SetEnabled _ _ => true
  | _ => false
  end.

(* the calls on the sensor, the subdevices, the video devices and the stream
   configuration, as opposed to log messages and link set-up *)
Definition is_device_call (c : MediaCall) : bool :=
  match c with
  | MediaLog _ _ | DisableLinks | SetEnabled _ _ => false
  | _ => true
  end.

(* what a successful configure asks for, in this order; [f1] .. [f4] are the
   formats the sensor and the subdevices answered with *)
Definition configure_requests (sf : V4L2SubdeviceFormat.t)
           (cfg : StreamConfiguration.t)
           (f1 f2 f3 f4 : V4L2SubdeviceFormat.t) : list MediaCall :=
  [SensorSetFormat sf;
   SubdevSetFormat Dphy 0 f1;
   SubdevGetFormat Dphy 1 f2;
   SubdevSetFormat Isp 0 f3;
   SubdevSetFormat Isp 2 (V4L2SubdeviceFormat.mk MEDIA_BUS_FMT_YUYV8_2X8
                                                 (V4L2SubdeviceFormat.size f4));
   VideoSetFormat Video (mkDeviceFormat (StreamConfiguration.pixelFormat cfg)
                                        (StreamConfiguration.size cfg) 2);
   VideoSetFormat Param (mkDeviceFormat V4L2_META_FMT_RK_ISP1_PARAMS (Size.mk 0 0) 0);
   VideoSetFormat Stat (mkDeviceFormat V4L2_META_FMT_RK_ISP1_STAT_3A (Size.mk 0 0) 0);
   SetStream].

(* the same with each format the answer to the request before it, given in
   the media states [g1] .. [g4] *)
Definition configure_chain {G : Type} `{Media G}
           (sf : V4L2SubdeviceFormat.t) (cfg : StreamConfiguration.t)
           (g1 g2 g3 g4 : G) : list MediaCall :=
  let f1 := subdev_format g1 (SensorSetFormat sf) in
  let f2 := subdev_format g2 (SubdevSetFormat Dphy 0 f1) in
  let f3 := subdev_format g3 (SubdevGetFormat Dphy 1 f2) in
  let f4 := subdev_format g4 (SubdevSetFormat Isp 0 f3) in
  configure_requests sf cfg f1 f2 f3 f4.
End ConfigureVocabulary.

(** A board for the concrete runs of configure and initLinks: two sensors
    (entities 100 and 200) are wired to the CSI-2 receiver through the links
    1 and 2; the state of the media graph is the list of the ids of the
    enabled links.  Every call succeeds and the devices take the formats as
    they are asked. *)
Definition board_effect (g : list Z) (c : MediaCall) : list Z :=
  match c with
  | DisableLinks => []
  | SetEnabled l true => link_id l :: g
  | SetEnabled l false => filter (fun i => negb (i =? link_id l)) g
  | _ => g
  end.

Definition board_link (source : string) : option MediaLink :=
  if String.eqb source "rockchip-sy-mipi-dphy" then Some (mkLink 10 1)
  else if String.eqb source "rkisp1-isp-subdev" then Some (mkLink 11 2)
  else None.

Definition board_subdev_format (c : MediaCall) : V4L2SubdeviceFormat.t :=
  match c with
  | SensorSetFormat f | SubdevSetFormat _ _ f | SubdevGetFormat _ _ f => f
  | _ => V4L2SubdeviceFormat.mk 0 (Size.mk 0 0)
  end.

Definition board_device_format (c : MediaCall) : V4L2DeviceFormat :=
  match c with
  | VideoSetFormat _ f => f
  | _ => mkDeviceFormat 0 (Size.mk 0 0) 0
  end.

#[export] Instance Board_Media : Media (list Z) :=
  @mkMedia (list Z) (fun g l => existsb (Z.eqb (link_id l)) g)
          (fun _ source _ _ _ => board_link source)
          (fun _ _ => 0)
          (fun _ => board_subdev_format)
          (fun _ => board_device_format)
          board_effect.

Definition sensor_links : list MediaLink := [mkLink 1 100; mkLink 2 200].

(* the link of the other sensor is the enabled one *)
Definition board_other_sensor : Setup (list Z) := mkSetup [2] [].

(* the link of this sensor is the enabled one *)
Definition board_this_sensor : Setup (list Z) := mkSetup [1] [].

Definition configured_from (s : Setup (list Z)) : Z * Setup (list Z) :=
  match @configure _ Board_Media linux_uapi 100 (Some sensor_links)
                   (sensorFormat_ generated) (config_ generated) s with
  | Ok x => x
  | Fault => (0, s)
  end.

Definition board_configured : Z * Setup (list Z) :=
  Eval vm_compute in configured_from board_other_sensor.

Definition board_reconfigured : Z * Setup (list Z) :=
  Eval vm_compute in configured_from board_this_sensor.

(** ** PipelineHandlerSimple::configure

    The handler of simple.cpp runs the same loop over the links of pad 0 of
    [dphy_[0]] and then sets the format of the sensor and of [video_[0]]
    only. *)
Module SimpleSetup.
Section Configure.
Context {G : Type} `{Media G}.

Local Open Scope setup_scope.

Definition configure (sensor_entity : Z) (pad : option (list MediaLink))
           (sensorFormat : V4L2SubdeviceFormat.t)
           (config : list StreamConfiguration.t) : K G Z :=
  match config with
  | [] => kfault                                       (* config->at(0) *)
  | cfg :: _ =>
  match pad with
  | None => kfault                                     (* pad->links() *)
  | Some links =>
      r <- configureLinks sensor_entity links ;;
      if r <? 0 then kret r else
      let format := sensorFormat in
      klog LogDebug "Configuring sensor with" ;;
      '(r, format) <- kcall_subdev (SensorSetFormat format) ;;
      if r <? 0 then kret r else
      klog LogDebug "Sensor configured with" ;;
      let outputFormat :=
        mkDeviceFormat (StreamConfiguration.pixelFormat cfg)
                       (StreamConfiguration.size cfg) 2 in
      '(r, outputFormat) <- kcall_video (VideoSetFormat Video outputFormat) ;;
      if negb (r =? 0) then kret r else
      if size_differs (dev_size outputFormat) (StreamConfiguration.size cfg)
         || negb (fourcc outputFormat =? StreamConfiguration.pixelFormat cfg)
      then
        klog LogError "Unable to configure capture in" ;;
        kret (- EINVAL)
      else
      kcall SetStream ;;
      kret 0
  end
  end.
End Configure.

(* the calls the simple handler makes after the link loop *)
Definition format_call (sf : V4L2SubdeviceFormat.t)
           (cfg : StreamConfiguration.t) (c : MediaCall) : Prop :=
  match c with
  | MediaLog _ _ | SetStream => True
  | SensorSetFormat f => f = sf
  | VideoSetFormat Video f =>
      f = mkDeviceFormat (StreamConfiguration.pixelFormat cfg)
                         (StreamConfiguration.size cfg) 2
  | _ => False
  end.
End SimpleSetup.

Definition simple_configured : Z * Setup (list Z) :=
  Eval vm_compute in
    match @SimpleSetup.configure _ Board_Media 100 (Some sensor_links)
            (sensorFormat_ generated) (config_ generated) board_other_sensor with
    | Ok x => x
    | Fault => (0, board_other_sensor)
    end.

(** ** What the devices and the timeline can deliver

    The buffer-ready slots are signalled by the V4L2 devices and the
    QueueBuffers action is run by the timeline.  A device returns a buffer
    that was queued on it and not yet returned; the timeline runs an action
    that was scheduled and not yet run.  [Outstanding] keeps that account
    beside the handler state; it is read off the calls the handler makes. *)
Record Outstanding := mkOutstanding
  { in_flight : list (Device * Z);   (* device, address of the queued buffer *)
    scheduled : list Z }.            (* frames of the pending QueueBuffers actions *)

Definition device_eqb (a b : Device) : bool :=
  match a, b with
  | Param, Param | Stat, Stat | Video, Video => true
  | _, _ => false
  end.

Definition slot_eqb (a b : Device * Z) : bool :=
  device_eqb (fst a) (fst b) && (snd a =? snd b).

(* remove the first occurrence, if there is one *)
Fixpoint take {A} (eqb : A -> A -> bool) (a : A) (l : list A) : option (list A) :=
  match l with
  | [] => None
  | x :: l' => if eqb a x then Some l'
               else option_map (cons x) (take eqb a l')
  end.

Definition note_call (o : Outstanding) (c : Call) : Outstanding :=
  match c with
  | QueueBuffer d b =>
      mkOutstanding (in_flight o ++ [(d, Buffer.addr b)]) (scheduled o)
  | ScheduleAction frm QueueBuffers _ =>
      mkOutstanding (in_flight o) (scheduled o ++ [frm])
  | StreamOff d | ReleaseBuffers d =>
      mkOutstanding (filter (fun q => negb (device_eqb (fst q) d)) (in_flight o))
                    (scheduled o)
  | TimelineReset => mkOutstanding (in_flight o) []
  | _ => o
  end.

(* the account after the event was taken from it, when it could be *)
Definition deliver (e : Event) (o : Outstanding) : option Outstanding :=
  match e with
  | EvBufferReady b =>
      option_map (fun q => mkOutstanding q (scheduled o))
                 (take slot_eqb (Video, Buffer.addr b) (in_flight o))
  | EvParamReady b =>
      option_map (fun q => mkOutstanding q (scheduled o))
                 (take slot_eqb (Param, Buffer.addr b) (in_flight o))
  | EvStatReady b =>
      option_map (fun q => mkOutstanding q (scheduled o))
                 (take slot_eqb (Stat, Buffer.addr b) (in_flight o))
  | EvRunQueueBuffers frm =>
      option_map (mkOutstanding (in_flight o)) (take Z.eqb frm (scheduled o))
  | _ => Some o
  end.

(* the parameter buffers the params device holds *)
Definition param_slots (l : list (Device * Z)) : list Z :=
  map snd (filter (fun q => device_eqb (fst q) Param) l).

Definition flying (o : Outstanding) : list Z := param_slots (in_flight o).

Section Deliveries.
Context {W : Type} `{World W}.

(* the calls [st'] has recorded since [st] *)
Definition calls_since (st st' : State W) : list Call :=
  skipn (List.length (trace st)) (trace st').

(* A run in which every event passes [allowed] in the state it arrives
   in, every buffer handed back was in flight on its device, and every action
   run was pending; nothing is delivered after the handler has faulted. *)
Fixpoint delivered (allowed : Event -> State W -> bool)
         (es : list Event) (o : Outstanding) (st : State W) : bool :=
  match es with
  | [] => true
  | e :: es' =>
      allowed e st
      && match deliver e o with
         | None => false
         | Some o1 =>
             match handle e st with
             | Ok (_, st1) =>
                 delivered allowed es' (fold_left note_call (calls_since st st1) o1) st1
             | Fault => true
             end
         end
  end.

Definition receivable : list Event -> Outstanding -> State W -> bool :=
  delivered (fun _ _ => true).

(* the image buffer a queued request carries is none of the parameter buffers,
   whose addresses are [P] *)
Definition foreign_image (P : list Z) (e : Event) (st : State W) : bool :=
  match e with
  | EvQueueRequest camera req =>
      match findBuffer (call_effect (world st) (BaseQueueRequest camera req)) req with
      | Some vb => negb (existsb (Z.eqb (Buffer.addr vb)) P)
      | None => true
      end
  | _ => true
  end.

(* a receivable run of one streaming session whose counters do not wrap *)
Definition orderly (P : list Z) : list Event -> Outstanding -> State W -> bool :=
  delivered (fun e st => session_event e st && foreign_image P e st).
End Deliveries.

(** The account of a session: what ties the flags of the live FrameInfos to
    the parameter buffers in flight [fl] and to the pending actions [sc]. *)
Definition settled (P fl sc : list Z) (k : Z) (info : RkISP1FrameInfo) : Prop :=
  In (Buffer.addr (paramBuffer info)) P
  /\ ~ In (Buffer.addr (statBuffer info)) P
  /\ ~ In (Buffer.addr (videoBuffer info)) P
  /\ (paramDequeued info = true -> paramFilled info = true)
  /\ (In k sc -> paramDequeued info = false)
  /\ (In (Buffer.addr (paramBuffer info)) fl ->
      paramFilled info = true /\ paramDequeued info = false /\ ~ In k sc).

Record Ledger (P fl sc : list Z) (frm : Z)
       (table : list (Z * RkISP1FrameInfo)) (pq sq : list Buffer.t) : Prop :=
  mkLedger
  { ledger_ok : table_ok table = true;
    ledger_below : forall k info, In (k, info) table -> k < frm;
    ledger_pending : NoDup sc /\ forall f, In f sc -> f < frm;
    ledger_flying : NoDup fl /\ forall a, In a fl -> In a P;
    ledger_queue :
      NoDup (map Buffer.addr pq)
      /\ forall b, In b pq ->
           In (Buffer.addr b) P
           /\ ~ In (Buffer.addr b) fl
           /\ forall k info, In (k, info) table ->
                Buffer.addr (paramBuffer info) <> Buffer.addr b;
    ledger_stats : forall b, In b sq -> ~ In (Buffer.addr b) P;
    ledger_owner :
      forall k1 i1 k2 i2,
        In (k1, i1) table -> In (k2, i2) table ->
        Buffer.addr (paramBuffer i1) = Buffer.addr (paramBuffer i2) -> k1 = k2;
    ledger_info : forall k info, In (k, info) table -> settled P fl sc k info }.

Definition ledger_of {W : Type} (P : list Z) (o : Outstanding) (st : State W)
  : Prop :=
  Ledger P (flying o) (scheduled o) (frame_ st) (frameInfo_ st)
         (paramBuffers_ st) (statBuffers_ st).

(* calls that leave the account alone *)
Definition inert (c : Call) : bool :=
  match c with
  | QueueBuffer _ _ | StreamOff _ | ReleaseBuffers _ | TimelineReset => false
  | ScheduleAction _ QueueBuffers _ => false
  | _ => true
  end.

(* for every request completed between [st] and [st'], the FrameInfo that
   find(request) returns in [st] had its parameters filled *)
Definition completes_filled {W : Type} `{World W} (st st' : State W) : Prop :=
  forall req,
    completions req (trace st') <> completions req (trace st) ->
    exists k info,
      map_search (fun i => request i =? req) (frameInfo_ st) = Some (k, info)
      /\ paramFilled info = true.

(** Six requests, 70 .. 75, each carrying its own image buffer; the pool holds
    bufferCount + 1 = 5 parameter and 5 statistics buffers. *)
Definition image (n : Z) : Buffer.t := Buffer.mk (500 + n) n 0 0 (70 + n).
Definition param (n : Z) : Buffer.t := Buffer.mk (1000 + n) n 0 0 0.
Definition stat (n : Z) : Buffer.t := Buffer.mk (1005 + n) n 0 0 0.

(* the image buffer of request 70 + n as the capture device returns it *)
Definition captured (n sequence : Z) : Buffer.t :=
  Buffer.mk (500 + n) n sequence 0 (70 + n).

Definition six_requests : Script :=
  mkScript (map (fun n => (70 + n, 500 + n)) [0; 1; 2; 3; 4; 5])
           (map (fun n => (70 + n, image n)) [0; 1; 2; 3; 4; 5])
           all_succeed.

Definition camera_ready : State Script :=
  Eval vm_compute in
    (let boot := mkState 0 [] [] [] [] None 1000 six_requests [] in
     state_of (run [EvAllocateBuffers 1 [mkStream InternalMemory 4]; EvStart 1] boot)
              boot).

(* five requests in a row use up the pool *)
Definition pool_exhausted : State Script :=
  Eval vm_compute in
    state_of (run (map (EvQueueRequest 1) [70; 71; 72; 73; 74]) camera_ready)
             camera_ready.

(* The capture device returns the image of request 70 with the largest
   sequence number, so the frame counter wraps to 0 while the QueueBuffers
   action of frame 1 is still pending; requests 72 and 73 are then admitted as
   frames 0 and 1 again.  Frame 1 now has two pending actions: the second one
   queues the parameter buffer of request 73 once more after the device had
   returned it. *)
Definition reuse_events : list Event :=
  [EvQueueRequest 1 70; EvQueueRequest 1 71;
   EvRunQueueBuffers 0;
   EvBufferReady (captured 0 UINT_MAX);
   EvQueueRequest 1 72; EvQueueRequest 1 73;
   EvFrameAction 1 PARAM_FILLED;
   EvRunQueueBuffers 1;
   EvParamReady (param 3); EvStatReady (stat 3); EvBufferReady (captured 3 2);
   EvRunQueueBuffers 1;
   EvFrameAction 1 METADATA].

Definition reuse_done : State Script :=
  Eval vm_compute in state_of (run reuse_events camera_ready) camera_ready.




Definition nothing_outstanding : Outstanding := mkOutstanding [] [].

(* request 70 through an orderly session: admitted, parameters filled, buffers
   queued, parameter and statistics buffers back, metadata in; the image
   buffer comes back last *)
Definition session_events : list Event :=
  [EvQueueRequest 1 70; EvFrameAction 0 PARAM_FILLED; EvRunQueueBuffers 0;
   EvParamReady (param 0); EvStatReady (stat 0); EvFrameAction 0 METADATA].

Definition session_before : State Script :=
  Eval vm_compute in state_of (run session_events camera_ready) camera_ready.

Definition session_after : State Script :=
  Eval vm_compute in
    state_of (bufferReady (captured 0 0) session_before) camera_ready.


(** * Properties *)

Lemma keys_from_weaken (lo lo' : Z) m :
  lo' <= lo -> keys_from lo m = true -> keys_from lo' m = true.
Proof.
  destruct m as [|[k i] m]; simpl; auto.
  intros Hle Hk. apply andb_true_iff in Hk as [Hk Hm].
  apply andb_true_iff in Hk as [Hlt Hf].
  rewrite Hf, Hm. apply Z.ltb_lt in Hlt.
  replace (lo' <? k) with true by (symmetry; apply Z.ltb_lt; lia).
  reflexivity.
Qed.

Lemma keys_from_find_below (lo k : Z) m :
  keys_from lo m = true -> k <= lo -> map_find k m = None.
Proof.
  revert lo. induction m as [|[k' i] m IH]; simpl; intros lo Hk Hle; auto.
  apply andb_true_iff in Hk as [Hk Hm].
  apply andb_true_iff in Hk as [Hlt Hf]. apply Z.ltb_lt in Hlt.
  destruct (Z.eqb_spec k k'); [lia|].
  apply (IH k'); auto; lia.
Qed.

Lemma keys_from_search (p : RkISP1FrameInfo -> bool) lo m k info :
  keys_from lo m = true ->
  map_search p m = Some (k, info) ->
  frame info = k /\ map_find k m = Some info /\ p info = true.
Proof.
  revert lo. induction m as [|[k' i] m IH]; simpl; intros lo Hk Hs; [discriminate|].
  apply andb_true_iff in Hk as [Hk Hm].
  apply andb_true_iff in Hk as [Hlt Hf].
  apply Z.ltb_lt in Hlt. apply Z.eqb_eq in Hf.
  destruct (p i) eqn:Hp.
  - inversion Hs; subst. rewrite Z.eqb_refl. auto.
  - destruct (IH k' Hm Hs) as (Hfr & Hfind & Hpi).
    repeat split; auto.
    destruct (Z.eqb_spec k k') as [e|]; auto.
    rewrite (keys_from_find_below k' k m Hm) in Hfind by lia.
    discriminate.
Qed.

Lemma keys_from_erase lo k m :
  keys_from lo m = true -> keys_from lo (map_erase k m) = true.
Proof.
  revert lo. induction m as [|[k' i] m IH]; simpl; intros lo Hk; auto.
  apply andb_true_iff in Hk as [Hk Hm].
  apply andb_true_iff in Hk as [Hlt Hf].
  destruct (Z.eqb_spec k k').
  - apply keys_from_weaken with (lo := k'); auto.
    apply Z.ltb_lt in Hlt. lia.
  - simpl. rewrite Hlt, Hf. simpl. apply IH; auto.
Qed.

Lemma find_erase_same lo k m :
  keys_from lo m = true -> map_find k (map_erase k m) = None.
Proof.
  revert lo. induction m as [|[k' i] m IH]; simpl; intros lo Hk; auto.
  apply andb_true_iff in Hk as [Hk Hm].
  destruct (Z.eqb_spec k k').
  - subst. apply (keys_from_find_below k'); auto; lia.
  - simpl. destruct (Z.eqb_spec k k'); [contradiction|]. apply (IH k'); auto.
Qed.

Lemma keys_from_update lo k f m :
  (forall i, frame (f i) = frame i) ->
  keys_from lo m = true -> keys_from lo (map_update k f m) = true.
Proof.
  intros Hf. revert lo. induction m as [|[k' i] m IH]; simpl; intros lo Hk; auto.
  apply andb_true_iff in Hk as [Hk Hm].
  apply andb_true_iff in Hk as [Hlt Hfr].
  destruct (k =? k'); simpl; rewrite ?Hf, Hlt, Hfr; simpl; auto.
Qed.

Lemma keys_from_assign lo k info m :
  lo < k -> frame info = k ->
  keys_from lo m = true -> keys_from lo (map_assign k info m) = true.
Proof.
  intros Hlo Hfr. revert lo Hlo.
  induction m as [|[k' i] m IH]; simpl; intros lo Hlo Hk.
  - rewrite Hfr, Z.eqb_refl.
    replace (lo <? k) with true by (symmetry; apply Z.ltb_lt; lia). reflexivity.
  - apply andb_true_iff in Hk as [Hk Hm].
    apply andb_true_iff in Hk as [Hlt Hf].
    assert (Hlok : (lo <? k) = true) by (apply Z.ltb_lt; lia).
    destruct (Z.ltb_spec k k').
    + simpl. rewrite Hfr, Z.eqb_refl, Hlok, Hf, Hm.
      replace (k <? k') with true by (symmetry; apply Z.ltb_lt; lia).
      reflexivity.
    + destruct (Z.eqb_spec k k').
      * subst k'. simpl. rewrite Hlok, Hfr, Z.eqb_refl. simpl. exact Hm.
      * simpl. rewrite Hlt, Hf. simpl. apply IH; auto. lia.
Qed.

Lemma table_ok_keys m : table_ok m = true -> exists lo, keys_from lo m = true.
Proof.
  destruct m as [|[k i] m]; intros Hok.
  - exists 0. reflexivity.
  - exists (k - 1). exact Hok.
Qed.

Lemma keys_table_ok lo m : keys_from lo m = true -> table_ok m = true.
Proof.
  destruct m as [|[k i] m]; intros Hk; [reflexivity|].
  unfold table_ok. simpl in *.
  apply andb_true_iff in Hk as [Hk Hm].
  apply andb_true_iff in Hk as [Hlt Hf].
  rewrite Hf, Hm.
  replace (k - 1 <? k) with true by (symmetry; apply Z.ltb_lt; lia).
  reflexivity.
Qed.

Lemma table_ok_search (p : RkISP1FrameInfo -> bool) m k info :
  table_ok m = true ->
  map_search p m = Some (k, info) ->
  frame info = k /\ map_find k m = Some info /\ p info = true.
Proof.
  intros Hok. destruct (table_ok_keys m Hok) as [lo Hk].
  apply (keys_from_search p lo). exact Hk.
Qed.

Lemma table_ok_erase k m : table_ok m = true -> table_ok (map_erase k m) = true.
Proof.
  intros Hok. destruct (table_ok_keys m Hok) as [lo Hk].
  apply (keys_table_ok lo). apply keys_from_erase. exact Hk.
Qed.

Lemma table_ok_find_erase k m :
  table_ok m = true -> map_find k (map_erase k m) = None.
Proof.
  intros Hok. destruct (table_ok_keys m Hok) as [lo Hk].
  apply (find_erase_same lo). exact Hk.
Qed.

Lemma table_ok_update k f m :
  (forall i, frame (f i) = frame i) ->
  table_ok m = true -> table_ok (map_update k f m) = true.
Proof.
  intros Hf Hok. destruct (table_ok_keys m Hok) as [lo Hk].
  apply (keys_table_ok lo). apply keys_from_update; assumption.
Qed.

Lemma table_ok_assign k info m :
  frame info = k -> table_ok m = true -> table_ok (map_assign k info m) = true.
Proof.
  intros Hf Hok. destruct (table_ok_keys m Hok) as [lo Hk].
  apply (keys_table_ok (Z.min lo (k - 1))).
  apply keys_from_assign; [lia|assumption|].
  apply keys_from_weaken with (lo := lo); [lia|assumption].
Qed.

Lemma length_erase_found k (m : list (Z * RkISP1FrameInfo)) info :
  map_find k m = Some info -> S (List.length (map_erase k m)) = List.length m.
Proof.
  induction m as [|[k' i] m IH]; simpl; [discriminate|].
  destruct (k =? k'); simpl; auto.
Qed.

Lemma length_assign_fresh k info (m : list (Z * RkISP1FrameInfo)) :
  map_find k m = None -> List.length (map_assign k info m) = S (List.length m).
Proof.
  induction m as [|[k' i] m IH]; simpl; auto.
  destruct (Z.eqb_spec k k'); [discriminate|].
  destruct (k <? k'); simpl; auto.
Qed.

(** ** Running the handler: equations of the frame table operations *)

Section FrameTable.
Context {W : Type} `{World W}.
Implicit Type st : State W.

Lemma bind_ok {A B} (c : M W A) (k : A -> M W B) st a st' :
  c st = Ok (a, st') -> bind c k st = k a st'.
Proof. unfold bind. intros ->. reflexivity. Qed.

Lemma bind_fault {A B} (c : M W A) (k : A -> M W B) st :
  c st = Fault -> bind c k st = Fault.
Proof. unfold bind. intros ->. reflexivity. Qed.

Lemma find_frame_some frm st info :
  map_find frm (frameInfo_ st) = Some info ->
  find_frame frm st = Ok (Some info, st).
Proof. unfold find_frame, bind, get. intros ->. reflexivity. Qed.

Lemma find_frame_none frm st :
  map_find frm (frameInfo_ st) = None ->
  find_frame frm st
  = Ok (None, emit (Log LogError "Can't locate info from frame") st).
Proof. unfold find_frame, bind, get. intros ->. reflexivity. Qed.

Lemma find_request_some req st slot :
  map_search (fun i => request i =? req) (frameInfo_ st) = Some slot ->
  find_request req st = Ok (Some slot, st).
Proof. unfold find_request, bind, get. intros ->. reflexivity. Qed.

Lemma find_request_none req st :
  map_search (fun i => request i =? req) (frameInfo_ st) = None ->
  find_request req st
  = Ok (None, emit (Log LogError "Can't locate info from request") st).
Proof. unfold find_request, bind, get. intros ->. reflexivity. Qed.

Lemma find_buffer_some buffer st slot :
  map_search (holds_buffer buffer) (frameInfo_ st) = Some slot ->
  find_buffer buffer st = Ok (Some slot, st).
Proof. unfold find_buffer, bind, get. intros ->. reflexivity. Qed.

Lemma find_buffer_none buffer st :
  map_search (holds_buffer buffer) (frameInfo_ st) = None ->
  find_buffer buffer st
  = Ok (None, emit (Log LogError "Can't locate info from buffer") st).
Proof. unfold find_buffer, bind, get. intros ->. reflexivity. Qed.

Lemma destroy_found frm st info :
  map_find frm (frameInfo_ st) = Some info ->
  destroy frm st = Ok (0, destroyed info st).
Proof.
  intros Hf. unfold destroy.
  rewrite (bind_ok _ _ _ _ _ (find_frame_some _ _ _ Hf)).
  reflexivity.
Qed.

Lemma destroy_missing frm st :
  map_find frm (frameInfo_ st) = None ->
  destroy frm st
  = Ok (- ENOENT, emit (Log LogError "Can't locate info from frame") st).
Proof.
  intros Hf. unfold destroy.
  rewrite (bind_ok _ _ _ _ _ (find_frame_none _ _ Hf)).
  reflexivity.
Qed.

Lemma activeCameraData_some st camera :
  activeCamera_ st = Some camera -> activeCameraData st = Ok (camera, st).
Proof. unfold activeCameraData, bind, get. intros ->. reflexivity. Qed.

Lemma activeCameraData_none st :
  activeCamera_ st = None -> activeCameraData st = Fault.
Proof. unfold activeCameraData, bind, get. intros ->. reflexivity. Qed.

Lemma tryCompleteRequest_absent st camera req :
  activeCamera_ st = Some camera ->
  map_search (fun i => request i =? req) (frameInfo_ st) = None ->
  tryCompleteRequest req st
  = Ok (tt, emit (Log LogError "Can't locate info from request") st).
Proof.
  intros Ha Hs. unfold tryCompleteRequest.
  rewrite (bind_ok _ _ _ _ _ (activeCameraData_some _ _ Ha)).
  rewrite (bind_ok _ _ _ _ _ (find_request_none _ _ Hs)).
  reflexivity.
Qed.

Lemma tryCompleteRequest_blocked st camera req k info :
  activeCamera_ st = Some camera ->
  map_search (fun i => request i =? req) (frameInfo_ st) = Some (k, info) ->
  gate st req info = false ->
  tryCompleteRequest req st = Ok (tt, st).
Proof.
  intros Ha Hs Hg. unfold tryCompleteRequest.
  rewrite (bind_ok _ _ _ _ _ (activeCameraData_some _ _ Ha)).
  rewrite (bind_ok _ _ _ _ _ (find_request_some _ _ _ Hs)).
  unfold gate in Hg. unfold bind at 1, get.
  destruct (hasPendingBuffers (world st) req); [reflexivity|].
  destruct (metadataProcessed info); [|reflexivity].
  destruct (paramDequeued info); [discriminate|reflexivity].
Qed.

Lemma tryCompleteRequest_passes st camera req k info :
  activeCamera_ st = Some camera ->
  table_ok (frameInfo_ st) = true ->
  map_search (fun i => request i =? req) (frameInfo_ st) = Some (k, info) ->
  gate st req info = true ->
  tryCompleteRequest req st
  = Ok (tt, destroyed info (emit (CompleteRequest camera req) st)).
Proof.
  intros Ha Hok Hs Hg. unfold tryCompleteRequest.
  rewrite (bind_ok _ _ _ _ _ (activeCameraData_some _ _ Ha)).
  rewrite (bind_ok _ _ _ _ _ (find_request_some _ _ _ Hs)).
  unfold gate in Hg. unfold bind at 1, get.
  destruct (hasPendingBuffers (world st) req); [discriminate|].
  destruct (metadataProcessed info); [|discriminate].
  destruct (paramDequeued info); [|discriminate].
  cbn [negb].
  destruct (table_ok_search _ _ _ _ Hok Hs) as (Hfr & Hfind & _).
  unfold bind at 1, call.
  rewrite (bind_ok _ _ _ _ _
             (destroy_found (frame info)
                (emit (CompleteRequest camera req) st) info
                ltac:(rewrite Hfr; exact Hfind))).
  reflexivity.
Qed.
End FrameTable.

(** ** The completion gate *)

Section CompletionGate.
Context {W : Type} `{World W}.
Implicit Type st : State W.

(** C1. With a camera active and [info] the FrameInfo that
  [frameInfo_.find(request)] returns, tryCompleteRequest completes the
  request exactly when the request has no pending buffers,
  [metadataProcessed] and [paramDequeued] hold: then it calls
  completeRequest and afterwards destroys the entry of [info->frame]
  (its parameter and statistics buffers go back to the free queues and the
  frame is no longer in the table); in every other state it returns with
  the state, trace included, untouched. *)
Theorem tryCompleteRequest_gate st camera req k info :
activeCamera_ st = Some camera ->
table_ok (frameInfo_ st) = true ->
map_search (fun i => request i =? req) (frameInfo_ st) = Some (k, info) ->
let done := destroyed info (emit (CompleteRequest camera req) st) in
tryCompleteRequest req st = Ok (tt, if gate st req info then done else st)
/\ trace done = trace st ++ [CompleteRequest camera req]
/\ map_find (frame info) (frameInfo_ done) = None
/\ paramBuffers_ done = paramBuffers_ st ++ [paramBuffer info]
/\ statBuffers_ done = statBuffers_ st ++ [statBuffer info].
Proof.
intros Ha Hok Hs done. split; [|split; [|split; [|split]]]; try reflexivity.
- destruct (gate st req info) eqn:Hg.
  + apply (tryCompleteRequest_passes st camera req k info); assumption.
  + apply (tryCompleteRequest_blocked st camera req k info); assumption.
- apply table_ok_find_erase. exact Hok.
Qed.
End CompletionGate.

Lemma tryCompleteRequest_gate_witness :
  (gate image_done 70 (mkInfo 0 70 param0 stat0 image70 true true true) = true
   /\ exists st', tryCompleteRequest 70 image_done = Ok (tt, st')
                  /\ frameInfo_ st' = []
                  /\ trace st' = trace image_done ++ [CompleteRequest 1 70])
  /\ (gate admitted 70 (mkInfo 0 70 param0 stat0 image70 false false false) = false
      /\ tryCompleteRequest 70 admitted = Ok (tt, admitted)).
Proof.
  split.
  - split; [reflexivity|].
    destruct (tryCompleteRequest_gate image_done 1 70 0
                (mkInfo 0 70 param0 stat0 image70 true true true)
                eq_refl eq_refl eq_refl) as (Hrun & _).
    eexists. split; [exact Hrun|]. split; reflexivity.
  - split; [reflexivity|].
    exact (proj1 (tryCompleteRequest_gate admitted 1 70 0
                    (mkInfo 0 70 param0 stat0 image70 false false false)
                    eq_refl eq_refl eq_refl)).
Defined.

(** ** Frame rules: what an operation leaves alone *)

Section Frames.
Context {W : Type} `{World W}.
Implicit Type st : State W.

Lemma keeps_ret {X A} (proj : State W -> X) (a : A) : keeps proj (ret a).
Proof. intros st a' st' E. inversion E. reflexivity. Qed.

Lemma keeps_get {X} (proj : State W -> X) : keeps proj get.
Proof. intros st a' st' E. inversion E. reflexivity. Qed.

Lemma keeps_fault {X A} (proj : State W -> X) : keeps proj (@fault W A).
Proof. intros st a' st' E. discriminate. Qed.

Lemma keeps_bind {X A B} (proj : State W -> X) (c : M W A) (k : A -> M W B) :
  keeps proj c -> (forall a, keeps proj (k a)) -> keeps proj (bind c k).
Proof.
  intros Hc Hk st b st' E. unfold bind in E.
  destruct (c st) as [[a st1]|] eqn:Ec; [|discriminate].
  rewrite (Hk a _ _ _ E). exact (Hc _ _ _ Ec).
Qed.

Lemma keeps_modify {X} (proj : State W -> X) (f : State W -> State W) :
  (forall st, proj (f st) = proj st) -> keeps proj (modify f).
Proof. intros Hf st a st' E. inversion E. apply Hf. Qed.

Lemma keeps_call {X} (proj : State W -> X) (c : Call) :
  (forall st, proj (emit c st) = proj st) -> keeps proj (call c).
Proof. intros Hf st a st' E. inversion E. apply Hf. Qed.

Lemma keeps_log {X} (proj : State W -> X) sev msg :
  (forall st, proj (emit (Log sev msg) st) = proj st) -> keeps proj (log sev msg).
Proof. intros Hf st a st' E. inversion E. apply Hf. Qed.

Lemma completions_app req t1 t2 :
  completions req (t1 ++ t2) = (completions req t1 + completions req t2)%nat.
Proof. unfold completions. rewrite filter_app, length_app. reflexivity. Qed.

Lemma view_emit req c st :
  is_completion req c = false -> view req (emit c st) = view req st.
Proof.
  intros Hc. unfold view, emit. cbn [frameInfo_ paramBuffers_ statBuffers_ trace].
  rewrite completions_app. unfold completions at 2. cbn [filter].
  rewrite Hc. cbn. rewrite Nat.add_0_r. reflexivity.
Qed.

Lemma table_view_emit req c st :
  is_completion req c = false -> table_view req (emit c st) = table_view req st.
Proof.
  intros Hc. pose proof (view_emit req c st Hc) as E.
  unfold view in E. unfold table_view. congruence.
Qed.

Lemma keeps_new_Buffer req i : keeps (W:=W) (view req) (new_Buffer i).
Proof.
  unfold new_Buffer. apply keeps_bind; [apply keeps_get|intros st0].
  apply keeps_bind; [apply keeps_modify; reflexivity|intros _].
  apply keeps_ret.
Qed.

Lemma keeps_find_frame req frm : keeps (W:=W) (view req) (find_frame frm).
Proof.
  intros st a st' E. unfold find_frame, bind, get in E.
  destruct (map_find frm (frameInfo_ st)); inversion E; auto.
  apply view_emit. reflexivity.
Qed.

Lemma keeps_find_buffer req b : keeps (W:=W) (view req) (find_buffer b).
Proof.
  intros st a st' E. unfold find_buffer, bind, get in E.
  destruct (map_search _ (frameInfo_ st)); inversion E; auto.
  apply view_emit. reflexivity.
Qed.

Lemma keeps_activeCameraData req : keeps (W:=W) (view req) activeCameraData.
Proof.
  intros st a st' E. unfold activeCameraData, bind, get in E.
  destruct (activeCamera_ st); inversion E; auto.
Qed.
End Frames.

Ltac keeps_step :=
  first
    [ apply keeps_ret
    | apply keeps_get
    | apply keeps_fault
    | apply keeps_new_Buffer
    | apply keeps_find_frame
    | apply keeps_find_buffer
    | apply keeps_activeCameraData
    | apply keeps_log; intros; apply view_emit; reflexivity
    | apply keeps_call; intros; apply view_emit; reflexivity
    | apply keeps_modify; intros; reflexivity
    | apply keeps_bind; [|intros]
    | match goal with
      | |- keeps _ (match ?x with _ => _ end) => destruct x
      end ].

Section Steady.
Context {W : Type} `{World W}.
Implicit Type st : State W.

Lemma steady_refl req st : steady req st st.
Proof. intros Hok. repeat split; auto. Qed.

Lemma steady_trans req st1 st2 st3 :
  steady req st1 st2 -> steady req st2 st3 -> steady req st1 st3.
Proof.
  intros H12 H23 Hok.
  destruct (H12 Hok) as (Hok2 & Hc2 & Hp2 & Hs2).
  destruct (H23 Hok2) as (Hok3 & Hc3 & Hp3 & Hs3).
  repeat split; auto; try congruence. lia.
Qed.

Lemma view_steady req st st' : view req st' = view req st -> steady req st st'.
Proof.
  unfold view. intros E Hok. inversion E as [[Hf Hp Hs Hc]].
  unfold credit, param_total, stat_total. rewrite Hf, Hp, Hs, Hc.
  repeat split; auto.
Qed.

Lemma keeps_steadily {A} req (c : M W A) : keeps (view req) c -> steadily req c.
Proof. intros Hk st a st' E. apply view_steady. exact (Hk _ _ _ E). Qed.

Lemma steadily_bind {A B} req (c : M W A) (k : A -> M W B) :
  steadily req c -> (forall a, steadily req (k a)) -> steadily req (bind c k).
Proof.
  intros Hc Hk st b st' E. unfold bind in E.
  destruct (c st) as [[a st1]|] eqn:Ec; [|discriminate].
  eapply steady_trans; [exact (Hc _ _ _ Ec)|exact (Hk _ _ _ _ E)].
Qed.

Lemma length_update k f (m : list (Z * RkISP1FrameInfo)) :
  List.length (map_update k f m) = List.length m.
Proof.
  induction m as [|[k' i] m IH]; simpl; auto.
  destruct (k =? k'); simpl; auto.
Qed.

Lemma live_update req k f m :
  keeps_identity f -> live req (map_update k f m) = live req m.
Proof.
  intros Hf. unfold live. induction m as [|[k' i] m IH]; simpl; auto.
  destruct (k =? k'); simpl.
  - destruct (Hf i) as [_ ->]. destruct (request i =? req); reflexivity.
  - destruct (request i =? req); simpl; auto.
Qed.

Lemma steadily_update req k f :
  keeps_identity f ->
  steadily (W:=W) req (modify (fun st => set_frameInfo_ (map_update k f (frameInfo_ st)) st)).
Proof.
  intros Hf st a st' E. inversion E; subst. intros Hok.
  unfold credit, param_total, stat_total.
  cbn [frameInfo_ set_frameInfo_ trace paramBuffers_ statBuffers_].
  rewrite live_update, length_update by assumption.
  repeat split; auto.
  apply table_ok_update; auto. intros i. apply Hf.
Qed.

Lemma live_erase req k m info :
  map_find k m = Some info ->
  (live req (map_erase k m) + (if Z.eqb (request info) req then 1 else 0))%nat
  = live req m.
Proof.
  unfold live. induction m as [|[k' i] m IH]; simpl; [discriminate|].
  destruct (k =? k').
  - intros E. inversion E; subst.
    destruct (request info =? req); simpl; lia.
  - intros E. specialize (IH E). simpl.
    destruct (request i =? req); simpl; lia.
Qed.

Lemma steadily_tryCompleteRequest req r :
  steadily (W:=W) req (tryCompleteRequest r).
Proof.
  intros st a st' E.
  destruct (activeCamera_ st) as [camera|] eqn:Ha.
  2:{ unfold tryCompleteRequest in E.
      rewrite (bind_fault _ _ _ (activeCameraData_none _ Ha)) in E.
      discriminate. }
  destruct (map_search (fun i => request i =? r) (frameInfo_ st))
    as [[k info]|] eqn:Hs.
  2:{ rewrite (tryCompleteRequest_absent st camera r Ha Hs) in E.
      inversion E. apply view_steady, view_emit. reflexivity. }
  destruct (gate st r info) eqn:Hg.
  2:{ rewrite (tryCompleteRequest_blocked st camera r k info Ha Hs Hg) in E.
      inversion E. apply steady_refl. }
  intros Hok.
  rewrite (tryCompleteRequest_passes st camera r k info Ha Hok Hs Hg) in E.
  inversion E; subst st'. clear E.
  destruct (table_ok_search _ _ _ _ Hok Hs) as (Hfr & Hfind & Hreq).
  rewrite <- Hfr in Hfind.
  pose proof (live_erase req _ _ _ Hfind) as Hl.
  pose proof (length_erase_found _ _ _ Hfind) as Hlen.
  apply Z.eqb_eq in Hreq.
  unfold credit, param_total, stat_total, destroyed, queue_push.
  cbn [frameInfo_ set_frameInfo_ set_statBuffers_ set_paramBuffers_ emit
       trace paramBuffers_ statBuffers_].
  rewrite completions_app, !length_app. unfold completions at 2.
  cbn [filter is_completion List.length].
  rewrite Hreq in Hl.
  repeat split.
  - apply table_ok_erase. exact Hok.
  - destruct (r =? req); cbn [List.length]; lia.
  - cbn [List.length]. lia.
  - cbn [List.length]. lia.
Qed.
End Steady.

Ltac steady_step :=
  first
    [ apply steadily_tryCompleteRequest
    | apply steadily_update; intros ?; split; reflexivity
    | apply keeps_steadily; solve [repeat keeps_step]
    | apply steadily_bind; [|intros]
    | match goal with
      | |- steadily _ (match ?x with _ => _ end) => destruct x
      end ].

Section Handlers.
Context {W : Type} `{World W}.
Implicit Type st : State W.

Lemma steadily_bufferReady req b : steadily (W:=W) req (bufferReady b).
Proof. unfold bufferReady. repeat steady_step. Qed.

Lemma steadily_paramReady req b : steadily (W:=W) req (paramReady b).
Proof. unfold paramReady. repeat steady_step. Qed.

Lemma steadily_statReady req b : steadily (W:=W) req (statReady b).
Proof. unfold statReady. repeat steady_step. Qed.

Lemma steadily_metadataReady req frm m :
  steadily (W:=W) req (metadataReady frm m).
Proof. unfold metadataReady. repeat steady_step. Qed.

Lemma steadily_queueFrameAction req frm a :
  steadily (W:=W) req (queueFrameAction frm a).
Proof.
  unfold queueFrameAction.
  destruct (operation a); try (repeat steady_step).
  all: try apply steadily_metadataReady.
Qed.

Lemma steadily_run_action req frm :
  steadily (W:=W) req (RkISP1ActionQueueBuffers_run frm).
Proof. unfold RkISP1ActionQueueBuffers_run. repeat steady_step. Qed.

Lemma steadily_start req camera : steadily (W:=W) req (start camera).
Proof. unfold start. repeat steady_step. Qed.

Lemma steadily_stop req camera : steadily (W:=W) req (stop camera).
Proof. unfold stop. repeat steady_step. Qed.
End Handlers.

(** ** queueRequest and RkISP1Frames::create *)

Section Admission.
Context {W : Type} `{World W}.
Implicit Type st : State W.

Lemma create_fails frm req st :
  paramBuffers_ st = [] \/ statBuffers_ st = [] \/ findBuffer (world st) req = None ->
  exists msg, create frm req st = Ok (None, emit (Log LogError msg) st).
Proof.
  intros Hc. unfold create, bind, get.
  destruct (paramBuffers_ st) as [|pb p]; [eexists; reflexivity|].
  destruct (statBuffers_ st) as [|sb s]; [eexists; reflexivity|].
  destruct (findBuffer (world st) req); [|eexists; reflexivity].
  destruct Hc as [Hc|[Hc|Hc]]; discriminate.
Qed.

Lemma create_succeeds frm req st pb p sb s vb :
  paramBuffers_ st = pb :: p ->
  statBuffers_ st = sb :: s ->
  findBuffer (world st) req = Some vb ->
  let info := mkInfo frm req pb sb vb false false false in
  create frm req st
  = Ok (Some info,
        set_frameInfo_ (map_assign frm info (frameInfo_ st))
          (set_statBuffers_ s (set_paramBuffers_ p st))).
Proof.
  intros Hp Hs Hv. unfold create, bind, get. rewrite Hp, Hs, Hv.
  unfold modify, ret, queue_pop.
  cbn [paramBuffers_ statBuffers_ set_paramBuffers_ set_statBuffers_ frameInfo_].
  rewrite Hp, Hs. reflexivity.
Qed.

Lemma live_assign_le req k info m :
  (live req (map_assign k info m)
   <= live req m + (if Z.eqb (request info) req then 1 else 0))%nat.
Proof.
  unfold live. induction m as [|[k' i] m IH]; cbn [map_assign filter snd].
  - destruct (request info =? req); cbn [List.length]; lia.
  - destruct (k <? k'); [|destruct (k =? k')]; cbn [filter snd].
    + destruct (request info =? req), (request i =? req); cbn [List.length]; lia.
    + destruct (request info =? req), (request i =? req); cbn [List.length]; lia.
    + destruct (request info =? req), (request i =? req);
        cbn [List.length] in *; lia.
Qed.

(* what one queueRequest may do to the ledger *)
Lemma queueRequest_ledger req camera r st a st' :
  queueRequest camera r st = Ok (a, st') ->
  table_ok (frameInfo_ st) = true ->
  table_ok (frameInfo_ st') = true
  /\ (credit req st' <= credit req st + (if Z.eqb r req then 1 else 0))%nat
  /\ (map_find (frame_ st) (frameInfo_ st) = None ->
      param_total st' = param_total st /\ stat_total st' = stat_total st).
Proof.
  intros E Hok. unfold queueRequest in E.
  unfold bind at 1, call at 1 in E. unfold bind at 1, get at 1 in E.
  set (st1 := emit (BaseQueueRequest camera r) st) in E.
  assert (Hv1 : view req st1 = view req st) by (apply view_emit; reflexivity).
  assert (Hf1 : frame_ st1 = frame_ st) by reflexivity.
  destruct (paramBuffers_ st1) as [|pb p] eqn:Hp.
  { destruct (create_fails (frame_ st1) r st1 (or_introl Hp)) as [msg Hc].
    rewrite (bind_ok _ _ _ _ _ Hc) in E. inversion E; subst.
    assert (Hv : view req (emit (Log LogError msg) st1) = view req st)
      by (rewrite view_emit by reflexivity; exact Hv1).
    destruct (view_steady req _ _ Hv Hok) as (? & ? & ? & ?).
    repeat split; auto. lia. }
  destruct (statBuffers_ st1) as [|sb s] eqn:Hs.
  { destruct (create_fails (frame_ st1) r st1 (or_intror (or_introl Hs))) as [msg Hc].
    rewrite (bind_ok _ _ _ _ _ Hc) in E. inversion E; subst.
    assert (Hv : view req (emit (Log LogError msg) st1) = view req st)
      by (rewrite view_emit by reflexivity; exact Hv1).
    destruct (view_steady req _ _ Hv Hok) as (? & ? & ? & ?).
    repeat split; auto. lia. }
  destruct (findBuffer (world st1) r) as [vb|] eqn:Hvb.
  2:{ destruct (create_fails (frame_ st1) r st1 (or_intror (or_intror Hvb))) as [msg Hc].
      rewrite (bind_ok _ _ _ _ _ Hc) in E. inversion E; subst.
      assert (Hv : view req (emit (Log LogError msg) st1) = view req st)
        by (rewrite view_emit by reflexivity; exact Hv1).
      destruct (view_steady req _ _ Hv Hok) as (? & ? & ? & ?).
      repeat split; auto. lia. }
  rewrite (bind_ok _ _ _ _ _ (create_succeeds _ _ _ _ _ _ _ _ Hp Hs Hvb)) in E.
  unfold bind, get, call, modify, ret in E. inversion E; subst a st'. clear E.
  unfold credit, param_total, stat_total.
  cbn [frameInfo_ set_frame_ emit set_frameInfo_ set_statBuffers_
       set_paramBuffers_ trace paramBuffers_ statBuffers_].
  rewrite !completions_app. unfold completions at 2 3.
  cbn [filter is_completion List.length].
  assert (Hpb : paramBuffers_ st = pb :: p) by exact Hp.
  assert (Hsb : statBuffers_ st = sb :: s) by exact Hs.
  assert (Hco : completions req (trace st1) = completions req (trace st))
    by (apply (f_equal snd) in Hv1; exact Hv1).
  rewrite Hpb, Hsb.
  change (trace st ++ [BaseQueueRequest camera r]) with (trace st1).
  rewrite Hco.
  pose proof (live_assign_le req (frame_ st)
                (mkInfo (frame_ st) r pb sb vb false false false)
                (frameInfo_ st)) as Hl.
  cbn [request] in Hl.
  split; [|split].
  - apply table_ok_assign; auto.
  - lia.
  - intros Hfresh. rewrite (length_assign_fresh _ _ _ Hfresh).
    cbn [List.length]. lia.
Qed.
End Admission.

(** ** allocateBuffers and freeBuffers leave the frame table alone *)

Ltac table_step :=
  first
    [ apply keeps_ret
    | apply keeps_get
    | apply keeps_fault
    | apply keeps_log; intros; apply table_view_emit; reflexivity
    | apply keeps_call; intros; apply table_view_emit; reflexivity
    | apply keeps_modify; intros; reflexivity
    | apply keeps_bind; [|intros]
    | match goal with
      | |- keeps _ (match ?x with _ => _ end) => destruct x
      end ].

Section Pools.
Context {W : Type} `{World W}.
Implicit Type st : State W.

Lemma view_table_view req st st' :
  view req st' = view req st -> table_view req st' = table_view req st.
Proof. unfold view, table_view. intros E. inversion E. congruence. Qed.

Lemma keeps_registerBuffers req base pool push n i :
  (forall b st, table_view req (push b st) = table_view req st) ->
  keeps (W:=W) (table_view req) (registerBuffers base pool push n i).
Proof.
  intros Hpush. revert i. induction n as [|n IH]; intros i; cbn [registerBuffers].
  - apply keeps_ret.
  - apply keeps_bind; [apply keeps_modify; reflexivity|intros _].
    apply keeps_bind.
    { intros st a st' E. apply view_table_view.
      exact (keeps_new_Buffer req i _ _ _ E). }
    intros b. apply keeps_bind; [apply keeps_modify; apply Hpush|intros _].
    apply IH.
Qed.

Lemma keeps_deleteBuffers req pop q :
  (forall st, table_view req (pop st) = table_view req st) ->
  keeps (W:=W) (table_view req) (deleteBuffers pop q).
Proof.
  intros Hpop. induction q as [|b q IH]; cbn [deleteBuffers].
  - apply keeps_ret.
  - repeat first [exact IH | apply keeps_modify; exact Hpop | table_step].
Qed.

Lemma keeps_allocateBuffers req camera streams :
  keeps (W:=W) (table_view req) (allocateBuffers camera streams).
Proof.
  unfold allocateBuffers.
  repeat first
    [ apply keeps_registerBuffers; intros; reflexivity
    | table_step ].
Qed.

Lemma keeps_freeBuffers req camera streams :
  keeps (W:=W) (table_view req) (freeBuffers camera streams).
Proof.
  unfold freeBuffers.
  repeat first
    [ apply keeps_deleteBuffers; intros; reflexivity
    | table_step ].
Qed.
End Pools.

(** ** Runs of entry points *)

Section Runs.
Context {W : Type} `{World W}.
Implicit Type st : State W.

Lemma run_cons e es st st' :
  run (e :: es) st = Ok (tt, st') ->
  exists st1, handle e st = Ok (tt, st1) /\ run es st1 = Ok (tt, st').
Proof.
  cbn [run]. unfold bind. destruct (handle e st) as [[[] st1]|]; [|discriminate].
  intros E. exists st1. auto.
Qed.

Lemma bind_ret_tt {A} (c : M W A) st st' :
  bind c (fun _ => ret tt) st = Ok (tt, st') -> exists a, c st = Ok (a, st').
Proof.
  unfold bind, ret. destruct (c st) as [[a st1]|]; [|discriminate].
  intros E. inversion E. eauto.
Qed.

(* a streaming entry point other than queueRequest is steady *)
Lemma handle_steady req e st st' :
  streaming_event e = true ->
  is_admission req e = false ->
  (forall c r, e <> EvQueueRequest c r) ->
  handle e st = Ok (tt, st') -> steady req st st'.
Proof.
  intros Hs Ha Hq E. destruct e; cbn [handle] in E; try discriminate.
  - apply bind_ret_tt in E as [a E]. exact (steadily_start _ _ _ _ _ E).
  - exact (steadily_stop _ _ _ _ _ E).
  - exfalso. eapply Hq. reflexivity.
  - exact (steadily_bufferReady _ _ _ _ _ E).
  - exact (steadily_paramReady _ _ _ _ _ E).
  - exact (steadily_statReady _ _ _ _ _ E).
  - exact (steadily_queueFrameAction _ _ _ _ _ _ E).
  - exact (steadily_run_action _ _ _ _ _ E).
Qed.

(* the ledger of one entry point: completions owed for [req] grow only by
   an admission of [req] *)
Lemma handle_ledger req e st st' :
  handle e st = Ok (tt, st') ->
  table_ok (frameInfo_ st) = true ->
  table_ok (frameInfo_ st') = true
  /\ (credit req st' <= credit req st + (if is_admission req e then 1 else 0))%nat.
Proof.
  intros E Hok.
  destruct e; cbn [is_admission].
  1,2: cbn [handle] in E; apply bind_ret_tt in E as [a E].
  1: pose proof (keeps_allocateBuffers req _ _ _ _ _ E) as Hv.
  2: pose proof (keeps_freeBuffers req _ _ _ _ _ E) as Hv.
  1,2: unfold table_view in Hv; inversion Hv as [[Hf Hc]];
       unfold credit; rewrite Hf, Hc; split; [congruence|lia].
  3:{ cbn [handle] in E. apply bind_ret_tt in E as [a E].
      destruct (queueRequest_ledger req _ _ _ _ _ E Hok) as (? & ? & _).
      split; assumption. }
  all: assert (Hst : steady req st st')
    by (refine (handle_steady req _ st st' _ _ _ E);
        [reflexivity|reflexivity|intros; discriminate]).
  all: destruct (Hst Hok) as (? & ? & _); split; [assumption|lia].
Qed.

Lemma run_ledger req es st st' :
  run es st = Ok (tt, st') ->
  table_ok (frameInfo_ st) = true ->
  table_ok (frameInfo_ st') = true
  /\ (credit req st' <= credit req st + admissions req es)%nat.
Proof.
  revert st. induction es as [|e es IH]; intros st E Hok.
  - inversion E; subst. split; [assumption|]. unfold admissions. cbn. lia.
  - apply run_cons in E as (st1 & E1 & E2).
    destruct (handle_ledger req e st st1 E1 Hok) as (Hok1 & Hc1).
    destruct (IH st1 E2 Hok1) as (Hok' & Hc').
    split; [assumption|].
    unfold admissions in *. cbn [filter].
    destruct (is_admission req e); cbn [List.length]; lia.
Qed.

Lemma live_none_search req m :
  live req m = 0%nat -> map_search (fun i => request i =? req) m = None.
Proof.
  unfold live. induction m as [|[k i] m IH]; cbn [filter map_search snd]; auto.
  destruct (request i =? req); cbn [List.length]; [discriminate|exact IH].
Qed.
End Runs.

Section CompletionPolicy.
Context {W : Type} `{World W}.
Implicit Type st : State W.


(* In any run of entry points that returns, over a well-formed frame table in
  which the request is admitted at most once (FrameInfos already serving it
  plus queueRequest calls for it), completeRequest is called for the request
  at most once; and once it has been called the request has no FrameInfo
  left, so a further tryCompleteRequest finds nothing, logs the failed
  lookup and changes nothing else. *)
Lemma completeRequest_at_most_once req es st st' :
table_ok (frameInfo_ st) = true ->
(live req (frameInfo_ st) + admissions req es <= 1)%nat ->
run es st = Ok (tt, st') ->
(completions req (trace st') <= S (completions req (trace st)))%nat
/\ (completions req (trace st') = S (completions req (trace st)) ->
    map_search (fun i => request i =? req) (frameInfo_ st') = None
    /\ forall camera, activeCamera_ st' = Some camera ->
         tryCompleteRequest req st'
         = Ok (tt, emit (Log LogError "Can't locate info from request") st')).
Proof.
intros Hok Hone E.
destruct (run_ledger req es st st' E Hok) as (Hok' & Hc).
unfold credit in Hc. split; [lia|].
intros Hdone.
assert (Hs : map_search (fun i => request i =? req) (frameInfo_ st') = None)
  by (apply live_none_search; lia).
split; [exact Hs|].
intros camera Ha. apply (tryCompleteRequest_absent st' camera req Ha Hs).
Qed.
End CompletionPolicy.


Lemma completeRequest_at_most_once_witness :
  run frame0_events admitted = Ok (tt, frame0_completed)
  /\ completions 70 (trace frame0_completed) = 1%nat
  /\ (completions 70%Z (trace frame0_completed)
      <= S (completions 70%Z (trace admitted)))%nat.
Proof.
  split; [reflexivity|]. split; [reflexivity|].
  apply (completeRequest_at_most_once 70 frame0_events admitted frame0_completed).
  - reflexivity.
  - cbn. lia.
  - reflexivity.
Defined.


(** C3 (defect in paramReady). After a request has completed, a further
    image-done or metadata-done event for it is a no-op: completeRequest has
    been called once and is not called again.  A further param-done event
    is not: paramReady writes [paramDequeued] through the null pointer the
    lookup returned.  This is so for request 70 after every event of frame 0,
    and for request 73 in a run in which the params device returns the
    parameter buffer it was given by the second QueueBuffers action of the
    frame, after the request has completed. *)
Theorem late_paramReady_faults :
  run frame0_events admitted = Ok (tt, frame0_completed)
  /\ completions 70 (trace frame0_completed) = 1%nat
  /\ map_search (fun i => request i =? 70) (frameInfo_ frame0_completed) = None
  /\ (exists st, bufferReady image70 frame0_completed = Ok (tt, st)
                 /\ completions 70 (trace st) = 1%nat
                 /\ frameInfo_ st = frameInfo_ frame0_completed)
  /\ (exists st, queueFrameAction 0 METADATA frame0_completed = Ok (tt, st)
                 /\ completions 70 (trace st) = 1%nat
                 /\ frameInfo_ st = frameInfo_ frame0_completed)
  /\ paramReady param0 frame0_completed = Fault
  /\ run reuse_events camera_ready = Ok (tt, reuse_done)
  /\ completions 73 (trace reuse_done) = 1%nat
  /\ receivable (reuse_events ++ [EvParamReady (param 3)])
                nothing_outstanding camera_ready = true
  /\ paramReady (param 3) reuse_done = Fault.
Proof.
  repeat match goal with
         | |- _ /\ _ => split
         | |- exists _, _ => eexists
         | |- _ = _ => vm_compute; reflexivity
         end.
Qed.

(** ** Pool balance *)

Section PoolBalance.
Context {W : Type} `{World W}.
Implicit Type st : State W.

Lemma registerBuffers_param n : forall i st,
  exists st',
    registerBuffers RKISP1_PARAM_BASE ParamPool push_paramBuffers_ n i st
    = Ok (tt, st')
    /\ same_outside st st'
    /\ statBuffers_ st' = statBuffers_ st
    /\ List.length (paramBuffers_ st') = (List.length (paramBuffers_ st) + n)%nat.
Proof.
  induction n as [|n IH]; intros i st; cbn [registerBuffers].
  - exists st. unfold same_outside. repeat split; auto.
  - unfold bind at 1, modify at 1. unfold bind at 1, new_Buffer at 1.
    unfold bind at 1, get at 1. unfold bind at 1, modify at 1.
    unfold ret at 1. unfold bind at 1, modify at 1.
    match goal with |- exists st', registerBuffers _ _ _ _ _ ?s = _ /\ _ =>
      destruct (IH (i + 1) s) as (st' & E & (Hf & Hfi & Ha & Hw & Ht) & Hs & Hl)
    end.
    exists st'. split; [exact E|].
    unfold same_outside. rewrite Hf, Hfi, Ha, Hw, Ht, Hs, Hl.
    unfold push_paramBuffers_, queue_push.
    cbn [frame_ frameInfo_ activeCamera_ world trace statBuffers_ paramBuffers_
         set_paramBuffers_ set_heap_ set_ipaBuffers_].
    rewrite length_app. cbn [List.length]. repeat split; auto. lia.
Qed.

Lemma registerBuffers_stat n : forall i st,
  exists st',
    registerBuffers RKISP1_STAT_BASE StatPool push_statBuffers_ n i st
    = Ok (tt, st')
    /\ same_outside st st'
    /\ paramBuffers_ st' = paramBuffers_ st
    /\ List.length (statBuffers_ st') = (List.length (statBuffers_ st) + n)%nat.
Proof.
  induction n as [|n IH]; intros i st; cbn [registerBuffers].
  - exists st. unfold same_outside. repeat split; auto.
  - unfold bind at 1, modify at 1. unfold bind at 1, new_Buffer at 1.
    unfold bind at 1, get at 1. unfold bind at 1, modify at 1.
    unfold ret at 1. unfold bind at 1, modify at 1.
    match goal with |- exists st', registerBuffers _ _ _ _ _ ?s = _ /\ _ =>
      destruct (IH (i + 1) s) as (st' & E & (Hf & Hfi & Ha & Hw & Ht) & Hs & Hl)
    end.
    exists st'. split; [exact E|].
    unfold same_outside. rewrite Hf, Hfi, Ha, Hw, Ht, Hs, Hl.
    unfold push_statBuffers_, queue_push.
    cbn [frame_ frameInfo_ activeCamera_ world trace statBuffers_ paramBuffers_
         set_statBuffers_ set_heap_ set_ipaBuffers_].
    rewrite length_app. cbn [List.length]. repeat split; auto. lia.
Qed.

(* a successful allocateBuffers fills both queues with bufferCount + 1 buffers *)
Lemma allocateBuffers_fills camera stream rest st st' :
  allocateBuffers camera (stream :: rest) st = Ok (0, st') ->
  frameInfo_ st' = frameInfo_ st
  /\ List.length (paramBuffers_ st')
     = (List.length (paramBuffers_ st) + Z.to_nat (uint (bufferCount stream + 1)))%nat
  /\ List.length (statBuffers_ st')
     = (List.length (statBuffers_ st) + Z.to_nat (uint (bufferCount stream + 1)))%nat.
Proof.
  unfold allocateBuffers.
  set (n := Z.to_nat (uint (bufferCount stream + 1))).
  set (first := match memoryType stream with
                | InternalMemory => call (ExportBuffers Video StreamPool)
                | ExternalMemory => call (ImportBuffers Video StreamPool)
                end).
  assert (Hfirst : exists c, first = call c)
    by (subst first; destruct (memoryType stream); eauto).
  destruct Hfirst as [c0 ->].
  unfold bind at 1, call at 1.
  destruct (call_result (world st) c0 =? 0) eqn:R0; cbn [negb].
  2:{ unfold ret. intros E. inversion E as [[Hr Hst]].
      apply Z.eqb_neq in R0. exfalso. apply R0. exact Hr. }
  unfold bind at 1, call at 1. unfold bind at 1, call at 1.
  match goal with |- context [call_result ?w (ExportBuffers Param ParamPool)] =>
    destruct (call_result w (ExportBuffers Param ParamPool) =? 0) eqn:R1
  end; cbn [negb].
  2:{ unfold bind, call, ret. intros E. inversion E as [[Hr Hst]].
      apply Z.eqb_neq in R1. exfalso. apply R1. exact Hr. }
  unfold bind at 1, call at 1. unfold bind at 1, call at 1.
  match goal with |- context [call_result ?w (ExportBuffers Stat StatPool)] =>
    destruct (call_result w (ExportBuffers Stat StatPool) =? 0) eqn:R2
  end; cbn [negb].
  2:{ unfold bind, call, ret. intros E. inversion E as [[Hr Hst]].
      apply Z.eqb_neq in R2. exfalso. apply R2. exact Hr. }
  match goal with |- bind (registerBuffers _ _ _ _ _) _ ?s = _ -> _ =>
    destruct (registerBuffers_param n 0 s)
      as (s1 & E1 & (_ & Hfi1 & _) & Hs1 & Hl1);
    rewrite (bind_ok _ _ _ _ _ E1)
  end.
  destruct (registerBuffers_stat n 0 s1)
    as (s2 & E2 & (_ & Hfi2 & _) & Hp2 & Hl2).
  rewrite (bind_ok _ _ _ _ _ E2).
  unfold bind, get, call, ret. intros E. inversion E as [[Hr Hst]].
  cbn [emit frameInfo_ paramBuffers_ statBuffers_].
  rewrite Hfi2, Hfi1, Hp2, Hl1, Hl2, Hs1. auto.
Qed.
End PoolBalance.

Section PoolInvariant.
Context {W : Type} `{World W}.
Implicit Type st : State W.

Lemma table_ok_find_frame m k info :
  table_ok m = true -> map_find k m = Some info -> frame info = k.
Proof.
  intros Hok. destruct (table_ok_keys m Hok) as [lo Hk]. clear Hok.
  revert lo Hk. induction m as [|[k' i] m IH]; cbn [map_find keys_from];
    intros lo Hk; [discriminate|].
  apply andb_true_iff in Hk as [Hk Hm].
  apply andb_true_iff in Hk as [_ Hf]. apply Z.eqb_eq in Hf.
  destruct (Z.eqb_spec k k').
  - intros E. inversion E; subst. reflexivity.
  - apply (IH k' Hm).
Qed.

Lemma create_balance frm req st a st' :
  map_find frm (frameInfo_ st) = None ->
  create frm req st = Ok (a, st') ->
  param_total st' = param_total st /\ stat_total st' = stat_total st.
Proof.
  intros Hfresh E.
  destruct (paramBuffers_ st) as [|pb p] eqn:Hp.
  { destruct (create_fails frm req st (or_introl Hp)) as [msg Hc].
    rewrite Hc in E. inversion E. split; reflexivity. }
  destruct (statBuffers_ st) as [|sb s] eqn:Hs.
  { destruct (create_fails frm req st (or_intror (or_introl Hs))) as [msg Hc].
    rewrite Hc in E. inversion E. split; reflexivity. }
  destruct (findBuffer (world st) req) as [vb|] eqn:Hv.
  2:{ destruct (create_fails frm req st (or_intror (or_intror Hv))) as [msg Hc].
      rewrite Hc in E. inversion E. split; reflexivity. }
  rewrite (create_succeeds _ _ _ _ _ _ _ _ Hp Hs Hv) in E. inversion E.
  unfold param_total, stat_total.
  cbn [frameInfo_ paramBuffers_ statBuffers_ set_frameInfo_ set_statBuffers_
       set_paramBuffers_].
  rewrite (length_assign_fresh _ _ _ Hfresh), Hp, Hs. cbn [List.length].
  split; lia.
Qed.

Lemma destroy_balance frm st r st' :
  table_ok (frameInfo_ st) = true ->
  destroy frm st = Ok (r, st') ->
  param_total st' = param_total st /\ stat_total st' = stat_total st.
Proof.
  intros Hok E.
  destruct (map_find frm (frameInfo_ st)) as [info|] eqn:Hf.
  - rewrite (destroy_found _ _ _ Hf) in E. inversion E.
    pose proof (table_ok_find_frame _ _ _ Hok Hf) as Hfr.
    rewrite <- Hfr in Hf.
    pose proof (length_erase_found _ _ _ Hf) as Hlen.
    unfold param_total, stat_total, destroyed, queue_push.
    cbn [frameInfo_ paramBuffers_ statBuffers_ set_frameInfo_ set_statBuffers_
         set_paramBuffers_].
    rewrite !length_app. cbn [List.length]. split; lia.
  - rewrite (destroy_missing _ _ Hf) in E. inversion E. split; reflexivity.
Qed.

Lemma fresh_run_balance es st st' :
  fresh_run es st st' ->
  table_ok (frameInfo_ st) = true ->
  table_ok (frameInfo_ st') = true
  /\ param_total st' = param_total st /\ stat_total st' = stat_total st.
Proof.
  induction 1 as [st|e es st st1 st' Hs Hfresh E _ IH]; intros Hok; [auto|].
  assert (Hstep : table_ok (frameInfo_ st1) = true
                  /\ param_total st1 = param_total st
                  /\ stat_total st1 = stat_total st).
  { destruct e; try discriminate Hs.
    3:{ cbn [handle] in E. apply bind_ret_tt in E as [a E].
        destruct (queueRequest_ledger 0 _ _ _ _ _ E Hok) as (Hok1 & _ & Hb).
        destruct (Hb (Hfresh _ _ eq_refl)). auto. }
    all: assert (Hst : steady 0 st st1)
      by (refine (handle_steady 0 _ st st1 _ _ _ E);
          [reflexivity|reflexivity|intros; discriminate]).
    all: destruct (Hst Hok) as (? & _ & ? & ?); auto. }
  destruct Hstep as (Hok1 & Hp1 & Hs1).
  destruct (IH Hok1) as (Hok' & Hp' & Hs').
  repeat split; auto; congruence.
Qed.

(** C4 (amended). Over a well-formed frame table, for each of the two roles
  the number of buffers in the free queue plus the number of live
  FrameInfos is unchanged by any run of streaming entry points (everything
  but allocateBuffers and freeBuffers) in which each queueRequest draws a
  frame number that is not yet in the table; RkISP1Frames::create at a
  frame number not in the table and RkISP1Frames::destroy each leave it
  unchanged; and a successful allocateBuffers on empty queues and an empty
  table makes it bufferCount + 1. *)
Theorem pool_balance st :
table_ok (frameInfo_ st) = true ->
(forall es st', fresh_run es st st' ->
   param_total st' = param_total st /\ stat_total st' = stat_total st)
/\ (forall frm req a st',
      map_find frm (frameInfo_ st) = None ->
      create frm req st = Ok (a, st') ->
      param_total st' = param_total st /\ stat_total st' = stat_total st)
/\ (forall frm r st',
      destroy frm st = Ok (r, st') ->
      param_total st' = param_total st /\ stat_total st' = stat_total st)
/\ (forall camera stream rest st',
      paramBuffers_ st = [] -> statBuffers_ st = [] -> frameInfo_ st = [] ->
      allocateBuffers camera (stream :: rest) st = Ok (0, st') ->
      param_total st' = Z.to_nat (uint (bufferCount stream + 1))
      /\ stat_total st' = Z.to_nat (uint (bufferCount stream + 1))).
Proof.
intros Hok. split; [|split; [|split]].
- intros es st' Hrun. destruct (fresh_run_balance es st st' Hrun Hok) as (_ & ? & ?).
  auto.
- intros frm req a st'. apply create_balance.
- intros frm r st'. apply destroy_balance. exact Hok.
- intros camera stream rest st' Hp Hs Hf E.
  destruct (allocateBuffers_fills _ _ _ _ _ E) as (Hfi & Hlp & Hls).
  unfold param_total, stat_total. rewrite Hfi, Hlp, Hls, Hp, Hs, Hf.
  cbn [List.length]. split; lia.
Qed.
End PoolInvariant.

Lemma pool_balance_witness :
  (param_total allocated = Z.to_nat (uint (4 + 1))
   /\ stat_total allocated = Z.to_nat (uint (4 + 1)))
  /\ (param_total frame0_completed = param_total admitted
      /\ stat_total frame0_completed = stat_total admitted).
Proof.
  split.
  - destruct (pool_balance idle eq_refl) as (_ & _ & _ & Halloc).
    apply (Halloc 1 (mkStream InternalMemory 4) []); reflexivity.
  - destruct (pool_balance admitted eq_refl) as (Hrun & _).
    apply (Hrun frame0_events).
    unfold frame0_events.
    repeat (eapply fresh_cons;
            [reflexivity | intros ? ? E; discriminate E | vm_compute; reflexivity | ]).
    apply fresh_nil.
Defined.

(* stop, start and one more queueRequest: frame 0 is assigned a second time
   and the buffers of the first frame 0 are in no queue and no FrameInfo *)
Lemma pool_balance_lost_on_restart :
  run [EvStop 1; EvStart 1; EvQueueRequest 1 71] admitted = Ok (tt, restarted)
  /\ param_total admitted = 5%nat /\ stat_total admitted = 5%nat
  /\ param_total restarted = 4%nat /\ stat_total restarted = 4%nat
  /\ List.length (frameInfo_ restarted) = 1%nat.
Proof. repeat split; vm_compute; reflexivity. Qed.

(** ** Late buffer completions *)

Section LateEvents.
Context {W : Type} `{World W}.
Implicit Type st : State W.

Lemma paramReady_unknown_buffer st camera buffer :
  activeCamera_ st = Some camera ->
  map_search (holds_buffer buffer) (frameInfo_ st) = None ->
  paramReady buffer st = Fault.
Proof.
  intros Ha Hs. unfold paramReady.
  rewrite (bind_ok _ _ _ _ _ (activeCameraData_some _ _ Ha)).
  rewrite (bind_ok _ _ _ _ _ (find_buffer_none _ _ Hs)).
  reflexivity.
Qed.

Lemma statReady_unknown_buffer st camera buffer :
  activeCamera_ st = Some camera ->
  map_search (holds_buffer buffer) (frameInfo_ st) = None ->
  statReady buffer st
  = Ok (tt, emit (Log LogError "Can't locate info from buffer") st).
Proof.
  intros Ha Hs. unfold statReady.
  rewrite (bind_ok _ _ _ _ _ (activeCameraData_some _ _ Ha)).
  rewrite (bind_ok _ _ _ _ _ (find_buffer_none _ _ Hs)).
  reflexivity.
Qed.
End LateEvents.

(** C5 (defect in paramReady). After frame 0 has completed, its
    parameter and statistics buffers belong to no live FrameInfo.  A late
    statReady for the statistics buffer logs the failed lookup and returns
    with the state otherwise untouched; a late paramReady for the parameter
    buffer writes [paramDequeued] through the null pointer the lookup
    returned. *)
Theorem paramReady_dereferences_null :
  map_search (holds_buffer param0) (frameInfo_ frame0_completed) = None
  /\ map_search (holds_buffer stat0) (frameInfo_ frame0_completed) = None
  /\ statReady stat0 frame0_completed
     = Ok (tt, emit (Log LogError "Can't locate info from buffer") frame0_completed)
  /\ paramReady param0 frame0_completed = Fault.
Proof. repeat split; vm_compute; reflexivity. Qed.

(** ** The QueueBuffers action *)

Section QueueBuffersAction.
Context {W : Type} `{World W}.
Implicit Type st : State W.

(** C8. When the QueueBuffers action runs for a frame that is in the table, it
  queues the parameter buffer to the params device if [paramFilled] is set
  and otherwise logs an error instead, then queues the statistics buffer
  to the stats device, then the image buffer to the capture device; these
  are all its external calls, in this order, whatever the devices return,
  and the handler's own state is unchanged. *)
Theorem QueueBuffers_run_order frm st info :
map_find frm (frameInfo_ st) = Some info ->
exists st',
  RkISP1ActionQueueBuffers_run frm st = Ok (tt, st')
  /\ trace st'
     = trace st
       ++ [if paramFilled info
           then QueueBuffer Param (paramBuffer info)
           else Log LogError
                    "Parameters not ready on time for frame, ignore parameters."]
       ++ [QueueBuffer Stat (statBuffer info);
           QueueBuffer Video (videoBuffer info)]
  /\ frameInfo_ st' = frameInfo_ st
  /\ paramBuffers_ st' = paramBuffers_ st
  /\ statBuffers_ st' = statBuffers_ st
  /\ frame_ st' = frame_ st.
Proof.
intros Hf. unfold RkISP1ActionQueueBuffers_run.
rewrite (bind_ok _ _ _ _ _ (find_frame_some _ _ _ Hf)).
destruct (paramFilled info); unfold bind, call, log, ret;
  eexists; (split; [reflexivity|]);
  cbn [emit trace frameInfo_ paramBuffers_ statBuffers_ frame_];
  rewrite <- !app_assoc; repeat split; reflexivity.
Qed.
End QueueBuffersAction.

Lemma QueueBuffers_run_order_witness :
  exists st',
    RkISP1ActionQueueBuffers_run 0 admitted = Ok (tt, st')
    /\ trace st'
       = trace admitted
         ++ [Log LogError "Parameters not ready on time for frame, ignore parameters."]
         ++ [QueueBuffer Stat stat0; QueueBuffer Video image70].
Proof.
  destruct (QueueBuffers_run_order 0 admitted
              (mkInfo 0 70 param0 stat0 image70 false false false) eq_refl)
    as (st' & Hrun & Htrace & _).
  exists st'. split; [exact Hrun|exact Htrace].
Defined.

(** ** start *)

Section Start.
Context {W : Type} `{World W}.
Implicit Type st : State W.

(** C6 (amended). start resets the frame counter and streams on the params,
  stats and image devices in this order.  If the params stream-on fails it
  returns the error after no further call; if the stats stream-on fails it
  streams off params and returns the error; in both cases the active camera
  is not recorded and the IPA is not configured.  If the image stream-on
  fails it streams off params and then stats and returns that error.  If
  all three succeed it records the active camera, configures the IPA and
  returns 0, whatever the configure call yields: there is no failure path
  for the IPA configuration. *)
Theorem start_stream_on_order camera st :
let w0 := world st in
let r1 := call_result w0 (StreamOn Param) in
let w1 := call_effect w0 (StreamOn Param) in
let r2 := call_result w1 (StreamOn Stat) in
let w2 := call_effect w1 (StreamOn Stat) in
let r3 := call_result w2 (StreamOn Video) in
exists r st',
  start camera st = Ok (r, st')
  /\ frame_ st' = 0
  /\ (r1 <> 0 ->
      r = r1
      /\ trace st' = trace st ++ [StreamOn Param;
                                  Log LogError "Failed to start parameters"]
      /\ activeCamera_ st' = activeCamera_ st)
  /\ (r1 = 0 -> r2 <> 0 ->
      r = r2
      /\ trace st' = trace st ++ [StreamOn Param; StreamOn Stat; StreamOff Param;
                                  Log LogError "Failed to start statistics"]
      /\ activeCamera_ st' = activeCamera_ st)
  /\ (r1 = 0 -> r2 = 0 -> r3 <> 0 ->
      r = r3
      /\ exists rest,
           trace st' = trace st ++ [StreamOn Param; StreamOn Stat; StreamOn Video;
                                    StreamOff Param; StreamOff Stat] ++ rest)
  /\ (r1 = 0 -> r2 = 0 -> r3 = 0 ->
      r = 0
      /\ trace st' = trace st ++ [StreamOn Param; StreamOn Stat; StreamOn Video;
                                  Configure]
      /\ activeCamera_ st' = Some camera).
Proof.
intros w0 r1 w1 r2 w2 r3. subst w0 r1 w1 r2 w2 r3.
unfold start, bind, modify, call, log, ret.
cbn [world set_frame_ set_activeCamera_ emit trace frame_ activeCamera_].
repeat match goal with
       | |- context [negb (?x =? 0)] =>
           destruct (Z.eqb_spec x 0); cbn [negb]
       end;
  eexists _, _; (split; [reflexivity|]);
  cbn [world set_frame_ set_activeCamera_ emit trace frame_ activeCamera_];
  rewrite <- ?app_assoc; cbn [app];
  (split; [reflexivity|]);
  repeat split; intros; try contradiction; try assumption; try reflexivity.
eexists. reflexivity.
Qed.
End Start.

Lemma start_stream_on_order_witness :
  exists st',
    start 1 (stopped stat_streamOn_fails) = Ok (-5, st')
    /\ trace st' = [StreamOn Param; StreamOn Stat; StreamOff Param;
                    Log LogError "Failed to start statistics"]
    /\ activeCamera_ st' = None.
Proof.
  destruct (start_stream_on_order 1 (stopped stat_streamOn_fails))
    as (r & st' & Hrun & _ & _ & Hstat & _).
  destruct (Hstat eq_refl ltac:(discriminate)) as (Hr & Ht & Ha).
  exists st'. subst r. split; [exact Hrun|]. split; [exact Ht|exact Ha].
Defined.

(* start when the image stream-on fails, and when the IPA configure call
   yields an error *)
Lemma start_continues_after_failure :
  (exists st',
      start 1 (stopped video_streamOn_fails) = Ok (-5, st')
      /\ activeCamera_ st' = Some 1
      /\ trace st' = [StreamOn Param; StreamOn Stat; StreamOn Video;
                      StreamOff Param; StreamOff Stat;
                      Log LogError "Failed to start camera"; Configure])
  /\ (exists st',
         start 1 (stopped configure_fails) = Ok (0, st')
         /\ activeCamera_ st' = Some 1
         /\ trace st' = [StreamOn Param; StreamOn Stat; StreamOn Video; Configure]).
Proof.
  split; eexists; (split; [vm_compute; reflexivity|]); split; reflexivity.
Qed.

(** ** queueRequest when no FrameInfo can be created *)

Section QueueRequestFailure.
Context {W : Type} `{World W}.
Implicit Type st : State W.

(* When RkISP1Frames::create fails inside queueRequest (the parameter free
  queue is empty, or the statistics free queue is empty, or the request
  carries no buffer for the stream), queueRequest returns -ENOENT and the
  frame counter, both free queues and the frame table are as before; the
  external calls made are the base-class queueRequest that precedes create
  and the error message of create: no IPA event is sent and no timeline
  action is scheduled. *)
Lemma queueRequest_failure_outcome camera req st :
paramBuffers_ st = []
\/ statBuffers_ st = []
\/ findBuffer (call_effect (world st) (BaseQueueRequest camera req)) req = None ->
exists msg st',
  queueRequest camera req st = Ok (- ENOENT, st')
  /\ frame_ st' = frame_ st
  /\ paramBuffers_ st' = paramBuffers_ st
  /\ statBuffers_ st' = statBuffers_ st
  /\ frameInfo_ st' = frameInfo_ st
  /\ ipaBuffers_ st' = ipaBuffers_ st
  /\ activeCamera_ st' = activeCamera_ st
  /\ trace st' = trace st ++ [BaseQueueRequest camera req; Log LogError msg].
Proof.
intros Hc. unfold queueRequest.
unfold bind at 1, call at 1. unfold bind at 1, get at 1.
destruct (create_fails (frame_ (emit (BaseQueueRequest camera req) st)) req
            (emit (BaseQueueRequest camera req) st) Hc) as [msg Hcreate].
rewrite (bind_ok _ _ _ _ _ Hcreate).
exists msg. eexists. split; [reflexivity|].
cbn [emit frame_ paramBuffers_ statBuffers_ frameInfo_ ipaBuffers_
     activeCamera_ trace].
rewrite <- app_assoc. repeat split; reflexivity.
Qed.
End QueueRequestFailure.

(** C7 (defect in queueRequest). The sixth queueRequest in a row, with a pool
    of five parameter buffers, returns -ENOENT and leaves the frame counter,
    the free queues and the frame table alone, but it has handed the request
    to the base-class queueRequest before create failed and does not take it
    back: the failed call leaves the request queued in the base class.  The
    same holds for a request that carries no buffer for the stream, which
    the handler of simple.cpp refuses before it makes any call. *)
Theorem queueRequest_failure_keeps_base_call :
  run (map (EvQueueRequest 1) [70; 71; 72; 73; 74]) camera_ready
  = Ok (tt, pool_exhausted)
  /\ paramBuffers_ pool_exhausted = []
  /\ queueRequest 1 75 pool_exhausted
     = Ok (- ENOENT,
           emit (Log LogError "Parameters buffer underrun")
                (emit (BaseQueueRequest 1 75) pool_exhausted))
  /\ queueRequest 1 76 camera_ready
     = Ok (- ENOENT,
           emit (Log LogError "Attempt to queue request with invalid stream")
                (emit (BaseQueueRequest 1 76) camera_ready))
  /\ Simple.queueRequest 1 76 camera_ready
     = Ok (- ENOENT,
           emit (Log LogError "Attempt to queue request with invalid stream")
                camera_ready).
Proof. repeat split; vm_compute; reflexivity. Qed.

(** ** The frame counter in bufferReady *)

Section FrameCounter.
Context {W : Type} `{World W}.
Implicit Type st : State W.

Lemma tryCompleteRequest_total req st camera :
  activeCamera_ st = Some camera ->
  exists st', tryCompleteRequest req st = Ok (tt, st')
              /\ frame_ st' = frame_ st.
Proof.
  intros Ha. unfold tryCompleteRequest.
  rewrite (bind_ok _ _ _ _ _ (activeCameraData_some _ _ Ha)).
  destruct (map_search (fun i => request i =? req) (frameInfo_ st))
    as [[k info]|] eqn:Hs.
  - rewrite (bind_ok _ _ _ _ _ (find_request_some _ _ _ Hs)).
    unfold bind at 1, get at 1.
    destruct (hasPendingBuffers (world st) req); [exists st; auto|].
    destruct (metadataProcessed info); cbn [negb]; [|exists st; auto].
    destruct (paramDequeued info); cbn [negb]; [|exists st; auto].
    unfold bind at 1, call at 1.
    destruct (map_find (frame info)
                (frameInfo_ (emit (CompleteRequest camera req) st)))
      as [i|] eqn:Hf.
    + rewrite (bind_ok _ _ _ _ _ (destroy_found _ _ _ Hf)).
      eexists. split; reflexivity.
    + rewrite (bind_ok _ _ _ _ _ (destroy_missing _ _ Hf)).
      eexists. split; reflexivity.
  - rewrite (bind_ok _ _ _ _ _ (find_request_none _ _ Hs)).
    eexists. split; reflexivity.
Qed.

(* what bufferReady does to the frame counter, in unsigned int arithmetic *)
Lemma bufferReady_frame buffer st camera :
  activeCamera_ st = Some camera ->
  exists st',
    bufferReady buffer st = Ok (tt, st')
    /\ frame_ st' = if frame_ st <=? Buffer.sequence buffer
                    then uint (Buffer.sequence buffer + 1)
                    else frame_ st.
Proof.
  intros Ha. unfold bufferReady.
  rewrite (bind_ok _ _ _ _ _ (activeCameraData_some _ _ Ha)).
  unfold bind at 1, call at 1. unfold bind at 1, get at 1.
  cbn [frame_ emit].
  destruct (frame_ st <=? Buffer.sequence buffer).
  - unfold bind at 1, modify at 1. unfold bind at 1, call at 1.
    match goal with |- exists st', tryCompleteRequest ?r ?s = _ /\ _ =>
      destruct (tryCompleteRequest_total r s camera Ha) as (st' & E & Hf)
    end.
    exists st'. split; [exact E|]. rewrite Hf. reflexivity.
  - unfold bind at 1, ret at 1. unfold bind at 1, call at 1.
    match goal with |- exists st', tryCompleteRequest ?r ?s = _ /\ _ =>
      destruct (tryCompleteRequest_total r s camera Ha) as (st' & E & Hf)
    end.
    exists st'. split; [exact E|]. rewrite Hf. reflexivity.
Qed.

(** C9 (amended). With a camera active, bufferReady returns, and for an image
  buffer whose sequence number is below the largest unsigned int it leaves
  the frame counter at max(frame_, sequence + 1): unchanged when the
  sequence is below the counter, one past the sequence otherwise, and
  never smaller than before. *)
Theorem bufferReady_advances_frame buffer st camera :
activeCamera_ st = Some camera ->
0 <= Buffer.sequence buffer < UINT_MAX ->
exists st',
  bufferReady buffer st = Ok (tt, st')
  /\ frame_ st' = Z.max (frame_ st) (Buffer.sequence buffer + 1)
  /\ frame_ st <= frame_ st'
  /\ (Buffer.sequence buffer < frame_ st -> frame_ st' = frame_ st)
  /\ (frame_ st <= Buffer.sequence buffer ->
      frame_ st' = Buffer.sequence buffer + 1).
Proof.
intros Ha Hseq.
destruct (bufferReady_frame buffer st camera Ha) as (st' & E & Hf).
exists st'. split; [exact E|].
assert (Hu : uint (Buffer.sequence buffer + 1) = Buffer.sequence buffer + 1).
{ unfold uint. apply Z.mod_small. unfold UINT_MAX in Hseq. lia. }
rewrite Hu in Hf.
destruct (Z.leb_spec (frame_ st) (Buffer.sequence buffer)); rewrite Hf; lia.
Qed.
End FrameCounter.

Lemma bufferReady_advances_frame_witness :
  exists st', bufferReady image_seq7 admitted = Ok (tt, st') /\ frame_ st' = 8.
Proof.
  destruct (bufferReady_advances_frame image_seq7 admitted 1 eq_refl)
    as (st' & Hrun & Hmax & _).
  - cbn. unfold UINT_MAX. lia.
  - exists st'. split; [exact Hrun|exact Hmax].
Defined.

(* the sequence number 2^32 - 1 sends the frame counter back to 0 *)
Lemma bufferReady_wraps_frame :
  frame_ admitted = 1
  /\ exists st', bufferReady image_last admitted = Ok (tt, st')
                 /\ frame_ st' = 0
                 /\ Z.max (frame_ admitted) (Buffer.sequence image_last + 1)
                    = 4294967296.
Proof.
  split; [reflexivity|]. eexists. split; [vm_compute; reflexivity|].
  split; reflexivity.
Qed.

(** ** allocateBuffers and freeBuffers *)

Section RoundTrip.
Context {W : Type} `{World W}.
Implicit Type st : State W.

Lemma deleteBuffers_stat q : forall st,
  statBuffers_ st = q ->
  exists st',
    deleteBuffers pop_statBuffers_ q st = Ok (tt, st')
    /\ statBuffers_ st' = []
    /\ paramBuffers_ st' = paramBuffers_ st
    /\ ipaBuffers_ st' = ipaBuffers_ st
    /\ frame_ st' = frame_ st /\ frameInfo_ st' = frameInfo_ st
    /\ activeCamera_ st' = activeCamera_ st
    /\ trace st' = trace st ++ map DeleteBuffer q.
Proof.
  induction q as [|b q IH]; intros st Hq; cbn [deleteBuffers].
  - exists st. rewrite app_nil_r. repeat split; auto.
  - unfold bind at 1, call at 1. unfold bind at 1, modify at 1.
    match goal with |- exists st', deleteBuffers _ _ ?s = _ /\ _ =>
      destruct (IH s) as (st' & E & Hs & Hp & Hi & Hf & Hfi & Ha & Ht)
    end.
    { unfold pop_statBuffers_, queue_pop.
      cbn [statBuffers_ set_statBuffers_ emit]. rewrite Hq. reflexivity. }
    exists st'. split; [exact E|].
    rewrite Hs, Hp, Hi, Hf, Hfi, Ha, Ht.
    cbn [pop_statBuffers_ set_statBuffers_ emit trace paramBuffers_ ipaBuffers_
         frame_ frameInfo_ activeCamera_ map].
    rewrite <- app_assoc. repeat split; reflexivity.
Qed.

Lemma deleteBuffers_param q : forall st,
  paramBuffers_ st = q ->
  exists st',
    deleteBuffers pop_paramBuffers_ q st = Ok (tt, st')
    /\ paramBuffers_ st' = []
    /\ statBuffers_ st' = statBuffers_ st
    /\ ipaBuffers_ st' = ipaBuffers_ st
    /\ frame_ st' = frame_ st /\ frameInfo_ st' = frameInfo_ st
    /\ activeCamera_ st' = activeCamera_ st
    /\ trace st' = trace st ++ map DeleteBuffer q.
Proof.
  induction q as [|b q IH]; intros st Hq; cbn [deleteBuffers].
  - exists st. rewrite app_nil_r. repeat split; auto.
  - unfold bind at 1, call at 1. unfold bind at 1, modify at 1.
    match goal with |- exists st', deleteBuffers _ _ ?s = _ /\ _ =>
      destruct (IH s) as (st' & E & Hs & Hp & Hi & Hf & Hfi & Ha & Ht)
    end.
    { unfold pop_paramBuffers_, queue_pop.
      cbn [paramBuffers_ set_paramBuffers_ emit]. rewrite Hq. reflexivity. }
    exists st'. split; [exact E|].
    rewrite Hs, Hp, Hi, Hf, Hfi, Ha, Ht.
    cbn [pop_paramBuffers_ set_paramBuffers_ emit trace statBuffers_ ipaBuffers_
         frame_ frameInfo_ activeCamera_ map].
    rewrite <- app_assoc. repeat split; reflexivity.
Qed.

Lemma filter_delete (q : list Buffer.t) :
  filter (fun c => negb (is_log c)) (map DeleteBuffer q) = map DeleteBuffer q.
Proof. induction q as [|b q IH]; cbn; [reflexivity|]. rewrite IH. reflexivity. Qed.

Lemma freeBuffers_outcome camera streams st :
  exists st' tf,
    freeBuffers camera streams st = Ok (0, st')
    /\ paramBuffers_ st' = [] /\ statBuffers_ st' = [] /\ ipaBuffers_ st' = []
    /\ frame_ st' = frame_ st /\ frameInfo_ st' = frameInfo_ st
    /\ activeCamera_ st' = activeCamera_ st
    /\ trace st' = trace st ++ tf
    /\ filter (fun c => negb (is_log c)) tf
       = map DeleteBuffer (statBuffers_ st) ++ map DeleteBuffer (paramBuffers_ st)
         ++ [UnmapBuffers (map id (ipaBuffers_ st));
             ReleaseBuffers Param; ReleaseBuffers Stat; ReleaseBuffers Video].
Proof.
  unfold freeBuffers. unfold bind at 1, get at 1.
  destruct (deleteBuffers_stat (statBuffers_ st) st eq_refl)
    as (s1 & E1 & Hs1 & Hp1 & Hi1 & Hf1 & Hfi1 & Ha1 & Ht1).
  rewrite (bind_ok _ _ _ _ _ E1). unfold bind at 1, get at 1.
  destruct (deleteBuffers_param (paramBuffers_ s1) s1 eq_refl)
    as (s2 & E2 & Hp2 & Hs2 & Hi2 & Hf2 & Hfi2 & Ha2 & Ht2).
  rewrite (bind_ok _ _ _ _ _ E2).
  unfold bind, get, call, modify, log, ret.
  cbn [world emit set_ipaBuffers_ ipaBuffers_].
  repeat match goal with
         | |- context [negb (?x =? 0)] => destruct (x =? 0); cbn [negb]
         end;
    eexists _, _; (split; [reflexivity|]);
    cbn [emit set_ipaBuffers_ paramBuffers_ statBuffers_ ipaBuffers_ frame_
         frameInfo_ activeCamera_ trace];
    rewrite Hp2, Hs2, Hs1, Hf2, Hf1, Hfi2, Hfi1, Ha2, Ha1, Ht2, Ht1, Hp1, Hi2, Hi1;
    rewrite <- ?app_assoc;
    (repeat (split; [reflexivity|]));
    rewrite !filter_app, !filter_delete;
    reflexivity.
Qed.

Lemma allocateBuffers_outcome camera stream rest st :
  exists r st' ta,
    allocateBuffers camera (stream :: rest) st = Ok (r, st')
    /\ frame_ st' = frame_ st /\ frameInfo_ st' = frameInfo_ st
    /\ activeCamera_ st' = activeCamera_ st
    /\ trace st' = trace st ++ ta
    /\ (forall l, In (MapBuffers l) ta -> l = ipaBuffers_ st')
    /\ (r = 0 -> In (MapBuffers (ipaBuffers_ st')) ta).
Proof.
  unfold allocateBuffers.
  set (n := Z.to_nat (uint (bufferCount stream + 1))).
  set (first := match memoryType stream with
                | InternalMemory => call (ExportBuffers Video StreamPool)
                | ExternalMemory => call (ImportBuffers Video StreamPool)
                end).
  assert (Hfirst : exists c, first = call c /\ forall l, c <> MapBuffers l)
    by (subst first; destruct (memoryType stream); eexists; split;
        try reflexivity; intros; discriminate).
  destruct Hfirst as (c0 & -> & Hc0).
  unfold bind at 1, call at 1.
  destruct (Z.eqb_spec (call_result (world st) c0) 0) as [R0|R0]; cbn [negb].
  2:{ unfold ret. eexists _, _, [c0]. split; [reflexivity|].
      cbn [emit frame_ frameInfo_ activeCamera_ trace].
      repeat split; try reflexivity.
      - intros l [Hin|[]]. exfalso. exact (Hc0 l Hin).
      - intros Hr. contradiction. }
  unfold bind at 1, call at 1. unfold bind at 1, call at 1.
  match goal with |- context [call_result ?w (ExportBuffers Param ParamPool)] =>
    destruct (Z.eqb_spec (call_result w (ExportBuffers Param ParamPool)) 0)
      as [R1|R1]
  end; cbn [negb].
  2:{ unfold bind, call, ret. eexists _, _, _. split; [reflexivity|].
      cbn [emit frame_ frameInfo_ activeCamera_ trace].
      rewrite <- !app_assoc. cbn [app].
      repeat split; try reflexivity.
      - intros l Hin. cbn [In] in Hin.
        repeat destruct Hin as [Hin|Hin]; try discriminate; try contradiction.
        exfalso. exact (Hc0 l Hin).
      - intros Hr. contradiction. }
  unfold bind at 1, call at 1. unfold bind at 1, call at 1.
  match goal with |- context [call_result ?w (ExportBuffers Stat StatPool)] =>
    destruct (Z.eqb_spec (call_result w (ExportBuffers Stat StatPool)) 0)
      as [R2|R2]
  end; cbn [negb].
  2:{ unfold bind, call, ret. eexists _, _, _. split; [reflexivity|].
      cbn [emit frame_ frameInfo_ activeCamera_ trace].
      rewrite <- !app_assoc. cbn [app].
      repeat split; try reflexivity.
      - intros l Hin. cbn [In] in Hin.
        repeat destruct Hin as [Hin|Hin]; try discriminate; try contradiction.
        exfalso. exact (Hc0 l Hin).
      - intros Hr. contradiction. }
  match goal with |- exists _ _ _, bind (registerBuffers _ _ _ _ _) _ ?s = _ /\ _ =>
    destruct (registerBuffers_param n 0 s)
      as (s1 & E1 & (Hf1 & Hfi1 & Ha1 & Hw1 & Ht1) & _);
    rewrite (bind_ok _ _ _ _ _ E1)
  end.
  destruct (registerBuffers_stat n 0 s1)
    as (s2 & E2 & (Hf2 & Hfi2 & Ha2 & Hw2 & Ht2) & _).
  rewrite (bind_ok _ _ _ _ _ E2).
  unfold bind, get, call, ret. eexists _, _, _. split; [reflexivity|].
  cbn [emit frame_ frameInfo_ activeCamera_ trace ipaBuffers_].
  rewrite Hf2, Hf1, Hfi2, Hfi1, Ha2, Ha1, Ht2, Ht1.
  cbn [emit frame_ frameInfo_ activeCamera_ trace].
  rewrite <- !app_assoc. cbn [app].
  repeat split; try reflexivity.
  - intros l Hin. cbn [In] in Hin.
    repeat destruct Hin as [Hin|Hin]; try discriminate; try contradiction.
    + exfalso. exact (Hc0 l Hin).
    + inversion Hin. reflexivity.
  - intros _. cbn [In]. auto 10.
Qed.

(** C10. allocateBuffers followed by freeBuffers always returns, and leaves
  both free queues empty and the IPA buffer list empty, with the frame
  counter, the frame table and the active camera as before allocation.
  Whatever list allocateBuffers maps into the IPA is the list whose ids
  freeBuffers unmaps, and freeBuffers deletes every queued buffer, unmaps,
  and then releases the buffers of the params, stats and image devices
  (apart from error messages these are all its calls, in this order). *)
Theorem allocate_free_round_trip camera stream rest st :
exists r st1 st2 ta tf,
  allocateBuffers camera (stream :: rest) st = Ok (r, st1)
  /\ freeBuffers camera (stream :: rest) st1 = Ok (0, st2)
  /\ paramBuffers_ st2 = [] /\ statBuffers_ st2 = [] /\ ipaBuffers_ st2 = []
  /\ frame_ st2 = frame_ st /\ frameInfo_ st2 = frameInfo_ st
  /\ activeCamera_ st2 = activeCamera_ st
  /\ trace st1 = trace st ++ ta /\ trace st2 = trace st1 ++ tf
  /\ (forall l, In (MapBuffers l) ta -> In (UnmapBuffers (map id l)) tf)
  /\ (r = 0 -> In (MapBuffers (ipaBuffers_ st1)) ta)
  /\ filter (fun c => negb (is_log c)) tf
     = map DeleteBuffer (statBuffers_ st1) ++ map DeleteBuffer (paramBuffers_ st1)
       ++ [UnmapBuffers (map id (ipaBuffers_ st1));
           ReleaseBuffers Param; ReleaseBuffers Stat; ReleaseBuffers Video].
Proof.
destruct (allocateBuffers_outcome camera stream rest st)
  as (r & st1 & ta & Ea & Hf1 & Hfi1 & Ha1 & Ht1 & Hmap & Hmapped).
destruct (freeBuffers_outcome camera (stream :: rest) st1)
  as (st2 & tf & Ef & Hp & Hs & Hi & Hf2 & Hfi2 & Ha2 & Ht2 & Hcalls).
exists r, st1, st2, ta, tf.
repeat (split; [first [assumption | congruence]|]).
split; [|split; assumption].
intros l Hin. rewrite (Hmap l Hin).
assert (Hin' : In (UnmapBuffers (map id (ipaBuffers_ st1)))
                  (filter (fun c => negb (is_log c)) tf)).
{ rewrite Hcalls. rewrite !in_app_iff. right. right. left. reflexivity. }
apply filter_In in Hin'. apply Hin'.
Qed.
End RoundTrip.

Lemma allocate_free_round_trip_witness :
  exists st2 tf,
    freeBuffers 1 [mkStream InternalMemory 4] allocated = Ok (0, st2)
    /\ paramBuffers_ st2 = paramBuffers_ idle
    /\ statBuffers_ st2 = statBuffers_ idle
    /\ ipaBuffers_ st2 = ipaBuffers_ idle
    /\ trace st2 = trace allocated ++ tf
    /\ In (UnmapBuffers [256; 257; 258; 259; 260; 512; 513; 514; 515; 516]) tf.
Proof.
  destruct (allocate_free_round_trip 1 (mkStream InternalMemory 4) [] idle)
    as (r & st1 & st2 & ta & tf & Ea & Ef & Hp & Hs & Hi & _ & _ & _ & Hta & Htf
        & Hunmap & _).
  assert (E1 : st1 = allocated).
  { assert (E : allocateBuffers 1 [mkStream InternalMemory 4] idle
                = Ok (0, allocated)) by reflexivity.
    rewrite E in Ea. inversion Ea. reflexivity. }
  subst st1. exists st2, tf.
  split; [exact Ef|]. split; [exact Hp|]. split; [exact Hs|].
  split; [exact Hi|]. split; [exact Htf|].
  apply (Hunmap (ipaBuffers_ allocated)).
  assert (Et : ta = trace allocated)
    by (apply (app_inv_head (trace idle)); symmetry; exact Hta).
  rewrite Et. cbn. auto 10.
Defined.

(** * Further properties of the handler *)

(** ** Lookups in the frame table *)

Lemma map_find_In (m : list (Z * RkISP1FrameInfo)) k info :
  map_find k m = Some info -> In (k, info) m.
Proof.
  induction m as [|[k' i] m IH]; cbn [map_find]; [discriminate|].
  destruct (Z.eqb_spec k k').
  - intros E. inversion E; subst. left. reflexivity.
  - intros E. right. auto.
Qed.

Lemma keys_from_In lo m k info :
  keys_from lo m = true -> In (k, info) m ->
  lo < k /\ frame info = k /\ map_find k m = Some info.
Proof.
  revert lo. induction m as [|[k' i] m IH]; cbn [keys_from In map_find];
    intros lo Hk Hin; [contradiction|].
  apply andb_true_iff in Hk as [Hk Hm].
  apply andb_true_iff in Hk as [Hlt Hf].
  apply Z.ltb_lt in Hlt. apply Z.eqb_eq in Hf.
  destruct Hin as [E|Hin].
  - inversion E; subst. rewrite Z.eqb_refl. auto.
  - destruct (IH k' Hm Hin) as (Hlo & Hfr & Hfind).
    destruct (Z.eqb_spec k k'); [lia|]. repeat split; auto. lia.
Qed.

Lemma keys_from_NoDup lo m : keys_from lo m = true -> NoDup (map fst m).
Proof.
  revert lo. induction m as [|[k i] m IH]; cbn [keys_from map fst]; intros lo Hk.
  - constructor.
  - apply andb_true_iff in Hk as [Hk Hm]. constructor; [|apply (IH k Hm)].
    intros Hin. apply in_map_iff in Hin as ([k' i'] & Hk' & Hin).
    cbn in Hk'. subst k'.
    destruct (keys_from_In k m k i' Hm Hin) as (Hlt & _). lia.
Qed.

Lemma find_assign_same (m : list (Z * RkISP1FrameInfo)) k info :
  map_find k (map_assign k info m) = Some info.
Proof.
  induction m as [|[k' i] m IH]; cbn [map_assign map_find].
  - rewrite Z.eqb_refl. reflexivity.
  - destruct (Z.ltb_spec k k'); [cbn [map_find]; rewrite Z.eqb_refl; reflexivity|].
    destruct (Z.eqb_spec k k'); cbn [map_find].
    + rewrite Z.eqb_refl. reflexivity.
    + destruct (Z.eqb_spec k k'); [contradiction|]. exact IH.
Qed.

Lemma find_assign_other (m : list (Z * RkISP1FrameInfo)) k k0 info :
  k0 <> k -> map_find k0 (map_assign k info m) = map_find k0 m.
Proof.
  intros Hne. induction m as [|[k' i] m IH]; cbn [map_assign map_find].
  - destruct (Z.eqb_spec k0 k); [contradiction|reflexivity].
  - destruct (Z.ltb_spec k k').
    + cbn [map_find]. destruct (Z.eqb_spec k0 k); [contradiction|reflexivity].
    + destruct (Z.eqb_spec k k'); cbn [map_find].
      * subst k'. destruct (Z.eqb_spec k0 k); [contradiction|reflexivity].
      * destruct (k0 =? k'); [reflexivity|exact IH].
Qed.

Lemma erase_assign_fresh (m : list (Z * RkISP1FrameInfo)) k info :
  map_find k m = None -> map_erase k (map_assign k info m) = m.
Proof.
  induction m as [|[k' i] m IH]; cbn [map_assign map_find map_erase].
  - rewrite Z.eqb_refl. reflexivity.
  - destruct (Z.eqb_spec k k'); [discriminate|]. intros Hf.
    destruct (k <? k'); cbn [map_erase].
    + rewrite Z.eqb_refl. reflexivity.
    + destruct (Z.eqb_spec k k'); [contradiction|]. rewrite (IH Hf). reflexivity.
Qed.

Lemma find_update (m : list (Z * RkISP1FrameInfo)) k k0 f :
  map_find k0 (map_update k f m)
  = if k0 =? k then option_map f (map_find k0 m) else map_find k0 m.
Proof.
  induction m as [|[k' i] m IH]; cbn [map_update map_find option_map].
  - destruct (k0 =? k); reflexivity.
  - destruct (Z.eqb_spec k k'); cbn [map_find].
    + subst k'. destruct (Z.eqb_spec k0 k); reflexivity.
    + destruct (Z.eqb_spec k0 k'); [|exact IH].
      subst k'. destruct (Z.eqb_spec k0 k); [congruence|reflexivity].
Qed.

(** ** What entry points may do to live FrameInfos *)

Section Descent.
Context {W : Type} `{World W}.
Implicit Type st : State W.

Lemma flags_grow_refl i : flags_grow i i.
Proof. unfold flags_grow. repeat split; auto. Qed.

Lemma flags_grow_trans i1 i2 i3 :
  flags_grow i1 i2 -> flags_grow i2 i3 -> flags_grow i1 i3.
Proof.
  unfold flags_grow. intros (?&?&?&?&?&?&?&?) (?&?&?&?&?&?&?&?).
  repeat split; try congruence; auto.
Qed.

Lemma descends_refl m : descends m m.
Proof. intros k i' Hin. exists i'. split; [assumption|apply flags_grow_refl]. Qed.

Lemma descends_trans m1 m2 m3 :
  descends m1 m2 -> descends m2 m3 -> descends m1 m3.
Proof.
  intros H12 H23 k i3 Hin.
  destruct (H23 k i3 Hin) as (i2 & Hin2 & Hg2).
  destruct (H12 k i2 Hin2) as (i1 & Hin1 & Hg1).
  exists i1. split; [assumption|]. eapply flags_grow_trans; eassumption.
Qed.

Lemma descends_erase k m : descends m (map_erase k m).
Proof.
  induction m as [|[k' i] m IH]; cbn [map_erase]; [apply descends_refl|].
  destruct (k =? k').
  - intros k0 i' Hin. exists i'. split; [right; assumption|apply flags_grow_refl].
  - intros k0 i' [E|Hin].
    + exists i'. split; [left; assumption|apply flags_grow_refl].
    + destruct (IH k0 i' Hin) as (i0 & Hin0 & Hg). exists i0. split; [right|]; auto.
Qed.

Lemma descends_update k f m :
  (forall i, flags_grow i (f i)) -> descends m (map_update k f m).
Proof.
  intros Hf. induction m as [|[k' i] m IH]; cbn [map_update]; [apply descends_refl|].
  destruct (k =? k').
  - intros k0 i' [E|Hin].
    + inversion E; subst. exists i. split; [left; reflexivity|apply Hf].
    + exists i'. split; [right; assumption|apply flags_grow_refl].
  - intros k0 i' [E|Hin].
    + exists i'. split; [left; assumption|apply flags_grow_refl].
    + destruct (IH k0 i' Hin) as (i0 & Hin0 & Hg). exists i0. split; [right|]; auto.
Qed.

Lemma grow_paramFilled i : flags_grow i (set_paramFilled true i).
Proof. unfold flags_grow. repeat split; auto. Qed.
Lemma grow_paramDequeued i : flags_grow i (set_paramDequeued true i).
Proof. unfold flags_grow. repeat split; auto. Qed.
Lemma grow_metadataProcessed i : flags_grow i (set_metadataProcessed true i).
Proof. unfold flags_grow. repeat split; auto. Qed.

Lemma descending_ret {A} (a : A) : descending (W:=W) (ret a).
Proof. intros st a' st' E. inversion E. apply descends_refl. Qed.

Lemma descending_get : descending (W:=W) get.
Proof. intros st a' st' E. inversion E. apply descends_refl. Qed.

Lemma descending_fault {A} : descending (@fault W A).
Proof. intros st a' st' E. discriminate. Qed.

Lemma descending_call c : descending (W:=W) (call c).
Proof. intros st a' st' E. inversion E. apply descends_refl. Qed.

Lemma descending_log sev msg : descending (W:=W) (log sev msg).
Proof. intros st a' st' E. inversion E. apply descends_refl. Qed.

Lemma descending_modify (f : State W -> State W) :
  (forall st, descends (frameInfo_ st) (frameInfo_ (f st))) ->
  descending (modify f).
Proof. intros Hf st a st' E. inversion E. apply Hf. Qed.

Lemma descending_bind {A B} (c : M W A) (k : A -> M W B) :
  descending c -> (forall a, descending (k a)) -> descending (bind c k).
Proof.
  intros Hc Hk st b st' E. unfold bind in E.
  destruct (c st) as [[a st1]|] eqn:Ec; [|discriminate].
  eapply descends_trans; [exact (Hc _ _ _ Ec)|exact (Hk _ _ _ _ E)].
Qed.

Lemma keeps_table_descending {A} (c : M W A) :
  keeps (fun st => frameInfo_ st) c -> descending c.
Proof. intros Hk st a st' E. rewrite (Hk _ _ _ E). apply descends_refl. Qed.
End Descent.

Ltac descend_step :=
  first
    [ apply descending_ret
    | apply descending_get
    | apply descending_fault
    | apply descending_call
    | apply descending_log
    | apply descending_modify; intros; cbn [frameInfo_ set_frameInfo_
        set_paramBuffers_ set_statBuffers_ set_frame_ set_activeCamera_
        set_heap_ set_ipaBuffers_];
      first [ apply descends_refl
            | apply descends_erase
            | apply descends_update; first [ apply grow_paramFilled
                                           | apply grow_paramDequeued
                                           | apply grow_metadataProcessed ] ]
    | apply descending_bind; [|intros]
    | match goal with
      | |- descending (match ?x with _ => _ end) => destruct x
      end ].

Section DescentOfHandlers.
Context {W : Type} `{World W}.
Implicit Type st : State W.

Lemma descending_tryCompleteRequest req :
  descending (W:=W) (tryCompleteRequest req).
Proof.
  unfold tryCompleteRequest, activeCameraData, find_request, destroy, find_frame.
  repeat descend_step.
Qed.

Lemma descending_handle e :
  is_queueRequest e = false -> descending (W:=W) (handle e).
Proof.
  intros Hq. destruct e; try discriminate Hq; cbn [handle].
  - apply descending_bind; [|intros; apply descending_ret].
    apply keeps_table_descending. intros st a st' E.
    pose proof (keeps_allocateBuffers 0 _ _ _ _ _ E) as Hv.
    unfold table_view in Hv. inversion Hv. reflexivity.
  - apply descending_bind; [|intros; apply descending_ret].
    apply keeps_table_descending. intros st a st' E.
    pose proof (keeps_freeBuffers 0 _ _ _ _ _ E) as Hv.
    unfold table_view in Hv. inversion Hv. reflexivity.
  - unfold start. repeat descend_step.
  - unfold stop. repeat descend_step.
  - unfold bufferReady, activeCameraData.
    repeat first [apply descending_tryCompleteRequest | descend_step].
  - unfold paramReady, activeCameraData, find_buffer.
    repeat first [apply descending_tryCompleteRequest | descend_step].
  - unfold statReady, activeCameraData, find_buffer. repeat descend_step.
  - unfold queueFrameAction, metadataReady, find_frame.
    repeat first [apply descending_tryCompleteRequest | descend_step].
  - unfold RkISP1ActionQueueBuffers_run, find_frame. repeat descend_step.
Qed.

(** X2. An entry point other than queueRequest adds no FrameInfo and never
    clears a completion flag: every FrameInfo in the table afterwards was in
    the table before under the same frame number, with the same request and
    the same three buffers, and each of paramFilled, paramDequeued and
    metadataProcessed that was set is still set. *)
Theorem flags_only_grow e st st' :
  is_queueRequest e = false ->
  handle e st = Ok (tt, st') ->
  forall k info',
    In (k, info') (frameInfo_ st') ->
    exists info,
      In (k, info) (frameInfo_ st)
      /\ request info' = request info
      /\ paramBuffer info' = paramBuffer info
      /\ statBuffer info' = statBuffer info
      /\ videoBuffer info' = videoBuffer info
      /\ (paramFilled info = true -> paramFilled info' = true)
      /\ (paramDequeued info = true -> paramDequeued info' = true)
      /\ (metadataProcessed info = true -> metadataProcessed info' = true).
Proof.
  intros Hq E k info' Hin.
  destruct (descending_handle e Hq st tt st' E k info' Hin)
    as (info & Hin0 & (_ & Hr & Hp & Hs & Hv & Hf & Hd & Hm)).
  exists info. repeat split; auto.
Qed.

(** X1. Every run of entry points that starts on a well-formed frame table
    ends on one: frame numbers in the table are pairwise distinct, each
    FrameInfo is stored under its own frame number, and the lookup by frame
    number returns it. *)
Theorem run_keeps_table_ok es st st' :
  table_ok (frameInfo_ st) = true ->
  run es st = Ok (tt, st') ->
  table_ok (frameInfo_ st') = true
  /\ NoDup (map fst (frameInfo_ st'))
  /\ forall k info, In (k, info) (frameInfo_ st') ->
       frame info = k /\ map_find k (frameInfo_ st') = Some info.
Proof.
  intros Hok E.
  destruct (run_ledger 0 es st st' E Hok) as (Hok' & _).
  destruct (table_ok_keys _ Hok') as [lo Hk].
  split; [exact Hok'|]. split; [exact (keys_from_NoDup lo _ Hk)|].
  intros k info Hin. destruct (keys_from_In lo _ k info Hk Hin) as (_ & ? & ?).
  auto.
Qed.
End DescentOfHandlers.

(** ** Admission of a request *)

Section AdmissionOutcome.
Context {W : Type} `{World W}.
Implicit Type st : State W.

(** X3. When both free queues are non-empty and the request carries a buffer
    for the stream, queueRequest returns 0: it takes the front buffer of each
    queue, stores under the current frame number a FrameInfo for the request
    with these buffers and all three flags clear (the lookup of any other
    frame number is unchanged), sends QUEUE_REQUEST with the frame number and
    PARAM_BASE | index of the parameter buffer to the IPA, then schedules the
    QueueBuffers action for that frame, and advances the frame counter by one
    modulo 2^32. *)
Theorem queueRequest_admits camera req st pb p sb s vb :
  paramBuffers_ st = pb :: p ->
  statBuffers_ st = sb :: s ->
  findBuffer (call_effect (world st) (BaseQueueRequest camera req)) req = Some vb ->
  exists st',
    queueRequest camera req st = Ok (0, st')
    /\ frame_ st' = uint (frame_ st + 1)
    /\ paramBuffers_ st' = p /\ statBuffers_ st' = s
    /\ map_find (frame_ st) (frameInfo_ st')
       = Some (mkInfo (frame_ st) req pb sb vb false false false)
    /\ (forall k, k <> frame_ st ->
                  map_find k (frameInfo_ st') = map_find k (frameInfo_ st))
    /\ trace st'
       = trace st
         ++ [BaseQueueRequest camera req;
             ProcessEvent
               (mkOp RKISP1_IPA_EVENT_QUEUE_REQUEST
                     [frame_ st; Z.lor RKISP1_PARAM_BASE (Buffer.index pb)]
                     [requestControls
                        (call_effect (world st) (BaseQueueRequest camera req)) req]);
             ScheduleAction (frame_ st) QueueBuffers []].
Proof.
  intros Hp Hs Hv. unfold queueRequest.
  unfold bind at 1, call at 1. unfold bind at 1, get at 1.
  rewrite (bind_ok _ _ _ _ _
             (create_succeeds (frame_ (emit (BaseQueueRequest camera req) st)) req
                (emit (BaseQueueRequest camera req) st) pb p sb s vb Hp Hs Hv)).
  unfold bind, get, call, modify, ret. eexists. split; [reflexivity|].
  cbn [emit set_frame_ set_frameInfo_ set_statBuffers_ set_paramBuffers_
       frame_ paramBuffers_ statBuffers_ frameInfo_ trace world paramBuffer].
  rewrite <- !app_assoc. cbn [app].
  repeat split; try reflexivity.
  - apply find_assign_same.
  - intros k Hk. apply find_assign_other. exact Hk.
Qed.

(** X4. RkISP1Frames::create at a frame number that is not in the table,
    followed by RkISP1Frames::destroy of that frame, returns 0 and restores
    the frame table; in each free queue the buffer that was at the front is
    now at the back; nothing is logged or called in between. *)
Theorem create_destroy_round_trip frm req st info st1 :
  map_find frm (frameInfo_ st) = None ->
  create frm req st = Ok (Some info, st1) ->
  exists pb p sb s st2,
    paramBuffers_ st = pb :: p /\ statBuffers_ st = sb :: s
    /\ destroy frm st1 = Ok (0, st2)
    /\ frameInfo_ st2 = frameInfo_ st
    /\ paramBuffers_ st2 = p ++ [pb]
    /\ statBuffers_ st2 = s ++ [sb]
    /\ frame_ st2 = frame_ st /\ trace st2 = trace st /\ world st2 = world st.
Proof.
  intros Hfresh E.
  destruct (paramBuffers_ st) as [|pb p] eqn:Hp.
  { destruct (create_fails frm req st (or_introl Hp)) as [msg Hc].
    rewrite Hc in E. discriminate. }
  destruct (statBuffers_ st) as [|sb s] eqn:Hs.
  { destruct (create_fails frm req st (or_intror (or_introl Hs))) as [msg Hc].
    rewrite Hc in E. discriminate. }
  destruct (findBuffer (world st) req) as [vb|] eqn:Hv.
  2:{ destruct (create_fails frm req st (or_intror (or_intror Hv))) as [msg Hc].
      rewrite Hc in E. discriminate. }
  rewrite (create_succeeds _ _ _ _ _ _ _ _ Hp Hs Hv) in E.
  inversion E as [[Hinfo Hst1]]. clear E.
  exists pb, p, sb, s. eexists.
  split; [reflexivity|]. split; [reflexivity|].
  split.
  { apply destroy_found. cbn [frameInfo_ set_frameInfo_]. apply find_assign_same. }
  unfold destroyed, queue_push.
  cbn [frameInfo_ set_frameInfo_ set_statBuffers_ set_paramBuffers_ paramBuffers_
       statBuffers_ frame_ trace world frame paramBuffer statBuffer].
  rewrite (erase_assign_fresh _ _ _ Hfresh).
  repeat split; reflexivity.
Qed.
End AdmissionOutcome.

(** ** Which entry points complete requests *)

Section Quiet.
Context {W : Type} `{World W}.
Implicit Type st : State W.

Lemma completions_emit req c st :
  is_completion req c = false ->
  completions req (trace (emit c st)) = completions req (trace st).
Proof.
  intros Hc. pose proof (view_emit req c st Hc) as E.
  unfold view in E. inversion E. reflexivity.
Qed.

Lemma quiet_view {A} req (c : M W A) :
  keeps (view req) c -> keeps (fun st => completions req (trace st)) c.
Proof.
  intros Hk st a st' E. pose proof (Hk _ _ _ E) as Hv.
  unfold view in Hv. inversion Hv. reflexivity.
Qed.

Lemma quiet_table_view {A} req (c : M W A) :
  keeps (table_view req) c -> keeps (fun st => completions req (trace st)) c.
Proof.
  intros Hk st a st' E. pose proof (Hk _ _ _ E) as Hv.
  unfold table_view in Hv. inversion Hv. reflexivity.
Qed.
End Quiet.

Ltac quiet_step :=
  first
    [ apply keeps_ret
    | apply keeps_get
    | apply keeps_fault
    | apply keeps_log; intros; apply completions_emit; reflexivity
    | apply keeps_call; intros; apply completions_emit; reflexivity
    | apply keeps_modify; intros; reflexivity
    | apply keeps_bind; [|intros]
    | match goal with
      | |- keeps _ (match ?x with _ => _ end) => destruct x
      end ].

Section NeverCompletes.
Context {W : Type} `{World W}.
Implicit Type st : State W.

(** X5. completeRequest is called only from bufferReady, paramReady and the
    METADATA reply of the IPA: every other entry point (allocateBuffers,
    freeBuffers, start, stop, queueRequest, statReady, the V4L2_SET and
    PARAM_FILLED replies, unknown replies, the QueueBuffers action) leaves
    the number of completeRequest calls for every request as it was. *)
Theorem completes_only_from_three_paths e st st' req :
  may_complete e = false ->
  handle e st = Ok (tt, st') ->
  completions req (trace st') = completions req (trace st).
Proof.
  intros Hm E.
  assert (Hk : keeps (W:=W) (fun st => completions req (trace st)) (handle e)).
  { destruct e; try discriminate Hm; cbn [handle].
    - apply keeps_bind; [|intros; apply keeps_ret].
      apply quiet_table_view, keeps_allocateBuffers.
    - apply keeps_bind; [|intros; apply keeps_ret].
      apply quiet_table_view, keeps_freeBuffers.
    - unfold start. repeat quiet_step.
    - unfold stop. repeat quiet_step.
    - unfold queueRequest, create. repeat quiet_step.
    - unfold statReady, activeCameraData, find_buffer. repeat quiet_step.
    - cbn [may_complete] in Hm. unfold queueFrameAction, find_frame.
      destruct (operation action); try discriminate Hm; repeat quiet_step.
    - unfold RkISP1ActionQueueBuffers_run, find_frame. repeat quiet_step. }
  exact (Hk st tt st' E).
Qed.
End NeverCompletes.

(** ** IPA replies *)

Section FrameActions.
Context {W : Type} `{World W}.
Implicit Type st : State W.

(** X6. The PARAM_FILLED reply for a frame sets paramFilled of the FrameInfo
    stored under that frame number and changes no other entry of the table,
    no queue and no counter, and makes no external call; when the frame is
    not in the table the only effect is the error message of the failed
    lookup. *)
Theorem PARAM_FILLED_sets_one_flag frm action st :
  operation action = RKISP1_IPA_ACTION_PARAM_FILLED ->
  exists st',
    queueFrameAction frm action st = Ok (tt, st')
    /\ (forall k,
          map_find k (frameInfo_ st')
          = if k =? frm
            then option_map (set_paramFilled true) (map_find k (frameInfo_ st))
            else map_find k (frameInfo_ st))
    /\ paramBuffers_ st' = paramBuffers_ st
    /\ statBuffers_ st' = statBuffers_ st
    /\ frame_ st' = frame_ st
    /\ trace st'
       = trace st ++ match map_find frm (frameInfo_ st) with
                     | Some _ => []
                     | None => [Log LogError "Can't locate info from frame"]
                     end.
Proof.
  intros Hop. unfold queueFrameAction. rewrite Hop.
  destruct (map_find frm (frameInfo_ st)) as [info|] eqn:Hf.
  - rewrite (bind_ok _ _ _ _ _ (find_frame_some _ _ _ Hf)).
    unfold modify. eexists. split; [reflexivity|].
    cbn [frameInfo_ set_frameInfo_ paramBuffers_ statBuffers_ frame_ trace].
    rewrite app_nil_r. repeat split; try reflexivity.
    intros k. apply find_update.
  - rewrite (bind_ok _ _ _ _ _ (find_frame_none _ _ Hf)).
    unfold ret. eexists. split; [reflexivity|].
    cbn [emit frameInfo_ paramBuffers_ statBuffers_ frame_ trace].
    repeat split; try reflexivity.
    intros k. destruct (Z.eqb_spec k frm); [subst; rewrite Hf|]; reflexivity.
Qed.

(** X7. Replies the handler cannot serve.  A METADATA reply (with its control
    list) for a frame that is not in the table only logs the failed lookup:
    no metadata is stored, no flag is set and no completion is attempted.  A
    reply with an unknown operation only logs.  A V4L2_SET or METADATA reply
    that carries no control list reads element 0 of an empty vector. *)
Theorem unserved_replies frm action st :
  (operation action = RKISP1_IPA_ACTION_METADATA ->
   controls action <> [] ->
   map_find frm (frameInfo_ st) = None ->
   queueFrameAction frm action st
   = Ok (tt, emit (Log LogError "Can't locate info from frame") st))
  /\ (forall code,
        operation action = RKISP1_IPA_OTHER code ->
        queueFrameAction frm action st
        = Ok (tt, emit (Log LogError "Unkown action") st))
  /\ (operation action = RKISP1_IPA_ACTION_METADATA
      \/ operation action = RKISP1_IPA_ACTION_V4L2_SET ->
      controls action = [] ->
      queueFrameAction frm action st = Fault).
Proof.
  unfold queueFrameAction. split; [|split].
  - intros Hop Hc Hf. rewrite Hop.
    destruct (controls action) as [|metadata rest]; [contradiction|].
    unfold metadataReady.
    rewrite (bind_ok _ _ _ _ _ (find_frame_none _ _ Hf)). reflexivity.
  - intros code Hop. rewrite Hop. reflexivity.
  - intros [Hop|Hop] Hc; rewrite Hop, Hc; reflexivity.
Qed.
End FrameActions.

(** ** stop *)

Section Stop.
Context {W : Type} `{World W}.
Implicit Type st : State W.

(** X8. stop always returns, whatever the stream-off calls yield.  Apart from
    warnings its calls are, in this order, stream-off of the image device, of
    the stats device, of the params device, and the timeline reset; then no
    camera is active.  The frame table, both free queues, the IPA buffer
    list and the frame counter are untouched: FrameInfos live at stop stay
    in the table with their buffers. *)
Theorem stop_abandons_frames camera st :
  exists st' t,
    stop camera st = Ok (tt, st')
    /\ trace st' = trace st ++ t
    /\ filter (fun c => negb (is_log c)) t
       = [StreamOff Video; StreamOff Stat; StreamOff Param; TimelineReset]
    /\ activeCamera_ st' = None
    /\ frameInfo_ st' = frameInfo_ st
    /\ paramBuffers_ st' = paramBuffers_ st
    /\ statBuffers_ st' = statBuffers_ st
    /\ ipaBuffers_ st' = ipaBuffers_ st
    /\ frame_ st' = frame_ st.
Proof.
  unfold stop, bind, call, log, modify, ret.
  cbn [world emit].
  repeat match goal with
         | |- context [negb (?x =? 0)] => destruct (x =? 0); cbn [negb]
         end;
    eexists _, _; (split; [reflexivity|]);
    cbn [emit set_activeCamera_ trace activeCamera_ frameInfo_ paramBuffers_
         statBuffers_ ipaBuffers_ frame_];
    rewrite <- ?app_assoc;
    (split; [reflexivity|]); repeat split; reflexivity.
Qed.
End Stop.

(** ** allocateBuffers: what is registered, and what is undone on failure *)

Section Registration.
Context {W : Type} `{World W}.
Implicit Type st : State W.

Lemma ipa_entries_S base pool i n :
  ipa_entries base pool i (S n)
  = mkIPABuffer (Z.lor base i) (pool, i) :: ipa_entries base pool (i + 1) n.
Proof.
  unfold ipa_entries. cbn [seq map]. rewrite Z.add_0_r. f_equal.
  rewrite <- seq_shift, map_map. apply map_ext. intros j.
  replace (i + Z.of_nat (S j)) with (i + 1 + Z.of_nat j) by lia. reflexivity.
Qed.

Lemma new_buffers_S heap i n :
  new_buffers heap i (S n)
  = Buffer.mk heap i 0 0 0 :: new_buffers (heap + 1) (i + 1) n.
Proof.
  unfold new_buffers. cbn [seq map]. rewrite !Z.add_0_r. f_equal.
  rewrite <- seq_shift, map_map. apply map_ext. intros j.
  replace (i + Z.of_nat (S j)) with (i + 1 + Z.of_nat j) by lia.
  replace (heap + Z.of_nat (S j)) with (heap + 1 + Z.of_nat j) by lia.
  reflexivity.
Qed.

Lemma registerBuffers_param_adds n : forall i st,
  exists st',
    registerBuffers RKISP1_PARAM_BASE ParamPool push_paramBuffers_ n i st
    = Ok (tt, st')
    /\ same_outside st st'
    /\ statBuffers_ st' = statBuffers_ st
    /\ ipaBuffers_ st'
       = ipaBuffers_ st ++ ipa_entries RKISP1_PARAM_BASE ParamPool i n
    /\ paramBuffers_ st' = paramBuffers_ st ++ new_buffers (heap_ st) i n
    /\ heap_ st' = heap_ st + Z.of_nat n.
Proof.
  induction n as [|n IH]; intros i st; cbn [registerBuffers].
  - exists st. unfold same_outside, ipa_entries, new_buffers. cbn [seq map].
    rewrite !app_nil_r, Z.add_0_r. repeat split; auto.
  - unfold bind at 1, modify at 1. unfold bind at 1, new_Buffer at 1.
    unfold bind at 1, get at 1. unfold bind at 1, modify at 1.
    unfold ret at 1. unfold bind at 1, modify at 1.
    match goal with |- exists st', registerBuffers _ _ _ _ _ ?s = _ /\ _ =>
      destruct (IH (i + 1) s)
        as (st' & E & (Hf & Hfi & Ha & Hw & Ht) & Hs & Hi & Hp & Hh)
    end.
    exists st'. split; [exact E|].
    unfold same_outside. rewrite Hf, Hfi, Ha, Hw, Ht, Hs, Hi, Hp, Hh.
    rewrite ipa_entries_S, new_buffers_S.
    unfold push_paramBuffers_, queue_push.
    cbn [frame_ frameInfo_ activeCamera_ world trace statBuffers_ paramBuffers_
         ipaBuffers_ heap_ set_paramBuffers_ set_heap_ set_ipaBuffers_].
    rewrite <- !app_assoc. cbn [app].
    repeat split; auto. lia.
Qed.

Lemma registerBuffers_stat_adds n : forall i st,
  exists st',
    registerBuffers RKISP1_STAT_BASE StatPool push_statBuffers_ n i st
    = Ok (tt, st')
    /\ same_outside st st'
    /\ paramBuffers_ st' = paramBuffers_ st
    /\ ipaBuffers_ st'
       = ipaBuffers_ st ++ ipa_entries RKISP1_STAT_BASE StatPool i n
    /\ statBuffers_ st' = statBuffers_ st ++ new_buffers (heap_ st) i n
    /\ heap_ st' = heap_ st + Z.of_nat n.
Proof.
  induction n as [|n IH]; intros i st; cbn [registerBuffers].
  - exists st. unfold same_outside, ipa_entries, new_buffers. cbn [seq map].
    rewrite !app_nil_r, Z.add_0_r. repeat split; auto.
  - unfold bind at 1, modify at 1. unfold bind at 1, new_Buffer at 1.
    unfold bind at 1, get at 1. unfold bind at 1, modify at 1.
    unfold ret at 1. unfold bind at 1, modify at 1.
    match goal with |- exists st', registerBuffers _ _ _ _ _ ?s = _ /\ _ =>
      destruct (IH (i + 1) s)
        as (st' & E & (Hf & Hfi & Ha & Hw & Ht) & Hs & Hi & Hp & Hh)
    end.
    exists st'. split; [exact E|].
    unfold same_outside. rewrite Hf, Hfi, Ha, Hw, Ht, Hs, Hi, Hp, Hh.
    rewrite ipa_entries_S, new_buffers_S.
    unfold push_statBuffers_, queue_push.
    cbn [frame_ frameInfo_ activeCamera_ world trace statBuffers_ paramBuffers_
         ipaBuffers_ heap_ set_statBuffers_ set_heap_ set_ipaBuffers_].
    rewrite <- !app_assoc. cbn [app].
    repeat split; auto. lia.
Qed.

(* what a successful allocateBuffers appended to the lists of the handler *)
Lemma allocateBuffers_adds camera stream rest st st' :
  allocateBuffers camera (stream :: rest) st = Ok (0, st') ->
  let n := Z.to_nat (uint (bufferCount stream + 1)) in
  ipaBuffers_ st'
  = ipaBuffers_ st ++ ipa_entries RKISP1_PARAM_BASE ParamPool 0 n
                   ++ ipa_entries RKISP1_STAT_BASE StatPool 0 n
  /\ paramBuffers_ st' = paramBuffers_ st ++ new_buffers (heap_ st) 0 n
  /\ statBuffers_ st'
     = statBuffers_ st ++ new_buffers (heap_ st + Z.of_nat n) 0 n
  /\ exists t, trace st' = trace st ++ t ++ [MapBuffers (ipaBuffers_ st')].
Proof.
  intros E n. revert E. unfold allocateBuffers. fold n.
  set (first := match memoryType stream with
                | InternalMemory => call (ExportBuffers Video StreamPool)
                | ExternalMemory => call (ImportBuffers Video StreamPool)
                end).
  assert (Hfirst : exists c, first = call c)
    by (subst first; destruct (memoryType stream); eauto).
  destruct Hfirst as [c0 ->].
  unfold bind at 1, call at 1.
  destruct (call_result (world st) c0 =? 0) eqn:R0; cbn [negb].
  2:{ unfold ret. intros E. inversion E as [[Hr Hst]].
      apply Z.eqb_neq in R0. exfalso. apply R0. exact Hr. }
  unfold bind at 1, call at 1. unfold bind at 1, call at 1.
  match goal with |- context [call_result ?w (ExportBuffers Param ParamPool)] =>
    destruct (call_result w (ExportBuffers Param ParamPool) =? 0) eqn:R1
  end; cbn [negb].
  2:{ unfold bind, call, ret. intros E. inversion E as [[Hr Hst]].
      apply Z.eqb_neq in R1. exfalso. apply R1. exact Hr. }
  unfold bind at 1, call at 1. unfold bind at 1, call at 1.
  match goal with |- context [call_result ?w (ExportBuffers Stat StatPool)] =>
    destruct (call_result w (ExportBuffers Stat StatPool) =? 0) eqn:R2
  end; cbn [negb].
  2:{ unfold bind, call, ret. intros E. inversion E as [[Hr Hst]].
      apply Z.eqb_neq in R2. exfalso. apply R2. exact Hr. }
  match goal with |- bind (registerBuffers _ _ _ _ _) _ ?s = _ -> _ =>
    destruct (registerBuffers_param_adds n 0 s)
      as (s1 & E1 & (_ & _ & _ & _ & Ht1) & Hs1 & Hi1 & Hp1 & Hh1);
    rewrite (bind_ok _ _ _ _ _ E1)
  end.
  destruct (registerBuffers_stat_adds n 0 s1)
    as (s2 & E2 & (_ & _ & _ & _ & Ht2) & Hp2 & Hi2 & Hs2 & Hh2).
  rewrite (bind_ok _ _ _ _ _ E2).
  unfold bind, get, call, ret. intros E. injection E as _ Hst. subst st'.
  cbn [emit ipaBuffers_ paramBuffers_ statBuffers_ trace].
  rewrite Hi2, Hi1, Hp2, Hp1, Hs2, Hs1, Hh1, Ht2, Ht1.
  cbn [emit ipaBuffers_ paramBuffers_ statBuffers_ trace heap_].
  rewrite <- !app_assoc. cbn [app].
  split; [reflexivity|]. split; [reflexivity|]. split; [reflexivity|].
  eexists (_ :: _ :: _ :: _ :: [_]). reflexivity.
Qed.

(** X9. A successful allocateBuffers (return value 0) appends to the IPA
    buffer list one entry per parameter buffer with id PARAM_BASE | i and
    memory paramPool_.buffers()[i], then one per statistics buffer with id
    STAT_BASE | i, for i = 0 .. bufferCount (bufferCount + 1 computed in
    unsigned int); it appends to the parameter queue new Buffers of index
    0 .. bufferCount in this order and likewise to the statistics queue, all
    at distinct addresses; and the list it hands to mapBuffers is the whole
    IPA buffer list. *)
Theorem allocateBuffers_registers camera stream rest st st' :
  allocateBuffers camera (stream :: rest) st = Ok (0, st') ->
  let n := Z.to_nat (uint (bufferCount stream + 1)) in
  ipaBuffers_ st'
  = ipaBuffers_ st ++ ipa_entries RKISP1_PARAM_BASE ParamPool 0 n
                   ++ ipa_entries RKISP1_STAT_BASE StatPool 0 n
  /\ paramBuffers_ st' = paramBuffers_ st ++ new_buffers (heap_ st) 0 n
  /\ statBuffers_ st'
     = statBuffers_ st ++ new_buffers (heap_ st + Z.of_nat n) 0 n
  /\ map Buffer.index (new_buffers (heap_ st) 0 n) = map Z.of_nat (seq 0 n)
  /\ NoDup (map Buffer.addr (new_buffers (heap_ st) 0 n
                             ++ new_buffers (heap_ st + Z.of_nat n) 0 n))
  /\ exists t, trace st' = trace st ++ t ++ [MapBuffers (ipaBuffers_ st')].
Proof.
  intros E n.
  destruct (allocateBuffers_adds camera stream rest st st' E)
    as (Hi & Hp & Hs & Ht).
  fold n in Hi, Hp, Hs.
  split; [exact Hi|]. split; [exact Hp|]. split; [exact Hs|].
  split; [|split; [|exact Ht]].
  - unfold new_buffers. rewrite map_map. cbn [Buffer.index]. reflexivity.
  - unfold new_buffers. rewrite map_app, !map_map. cbn [Buffer.addr].
    apply NoDup_app.
    + apply NoDup_map_NoDup_ForallPairs; [|apply seq_NoDup].
      intros a b _ _ Hab. lia.
    + apply NoDup_map_NoDup_ForallPairs; [|apply seq_NoDup].
      intros a b _ _ Hab. lia.
    + intros a Ha Hb.
      apply in_map_iff in Ha as (j & <- & Hj).
      apply in_map_iff in Hb as (j' & Hjj & Hj').
      apply in_seq in Hj. apply in_seq in Hj'. lia.
Qed.
End Registration.

(** ** The buffer ids shared with the IPA *)

Lemma lor_base_small j :
  0 <= j < 256 ->
  Z.lor RKISP1_PARAM_BASE j = 256 + j /\ Z.lor RKISP1_STAT_BASE j = 512 + j.
Proof.
  intros Hj.
  assert (Hall : forallb (fun j => (Z.lor RKISP1_PARAM_BASE j =? 256 + j)
                                   && (Z.lor RKISP1_STAT_BASE j =? 512 + j))
                         (map Z.of_nat (seq 0 256)) = true)
    by (vm_compute; reflexivity).
  rewrite forallb_forall in Hall.
  assert (Hin : In j (map Z.of_nat (seq 0 256))).
  { apply in_map_iff. exists (Z.to_nat j). split; [lia|]. apply in_seq. lia. }
  specialize (Hall j Hin). apply andb_true_iff in Hall as [Hp Hs].
  split; apply Z.eqb_eq; assumption.
Qed.

Lemma NoDup_map_injective_on {A B} (f : A -> B) (l : list A) a b :
  NoDup (map f l) -> In a l -> In b l -> f a = f b -> a = b.
Proof.
  induction l as [|x l IH]; cbn [map In]; [contradiction|].
  intros Hnd Ha Hb Hab. inversion Hnd as [|? ? Hnotin Hnd']; subst.
  destruct Ha as [Ha|Ha], Hb as [Hb|Hb]; subst; auto.
  - exfalso. apply Hnotin. rewrite Hab. apply in_map. exact Hb.
  - exfalso. apply Hnotin. rewrite <- Hab. apply in_map. exact Ha.
Qed.

Lemma registered_ids_spec n :
  registered_ids n
  = map (fun j => Z.lor RKISP1_PARAM_BASE (Z.of_nat j)) (seq 0 n)
    ++ map (fun j => Z.lor RKISP1_STAT_BASE (Z.of_nat j)) (seq 0 n).
Proof.
  unfold registered_ids, ipa_entries. rewrite map_app, !map_map. reflexivity.
Qed.

Lemma registered_ids_NoDup n :
  NoDup (registered_ids n) <-> (n <= 256)%nat.
Proof.
  rewrite registered_ids_spec. split.
  - intros Hnd. apply NoDup_app_remove_r in Hnd.
    destruct (Nat.le_gt_cases n 256) as [|Hgt]; [assumption|exfalso].
    assert (E : 0%nat = 256%nat).
    { apply (NoDup_map_injective_on _ _ _ _ Hnd).
      - apply in_seq. lia.
      - apply in_seq. lia.
      - vm_compute. reflexivity. }
    discriminate E.
  - intros Hn. apply NoDup_app.
    + apply NoDup_map_NoDup_ForallPairs; [|apply seq_NoDup].
      intros a b Ha Hb Hab. apply in_seq in Ha. apply in_seq in Hb.
      destruct (lor_base_small (Z.of_nat a)) as [Ea _]; [lia|].
      destruct (lor_base_small (Z.of_nat b)) as [Eb _]; [lia|]. lia.
    + apply NoDup_map_NoDup_ForallPairs; [|apply seq_NoDup].
      intros a b Ha Hb Hab. apply in_seq in Ha. apply in_seq in Hb.
      destruct (lor_base_small (Z.of_nat a)) as [_ Ea]; [lia|].
      destruct (lor_base_small (Z.of_nat b)) as [_ Eb]; [lia|]. lia.
    + intros x Ha Hb.
      apply in_map_iff in Ha as (a & <- & Ha).
      apply in_map_iff in Hb as (b & Hab & Hb).
      apply in_seq in Ha. apply in_seq in Hb.
      destruct (lor_base_small (Z.of_nat a)) as [Ea _]; [lia|].
      destruct (lor_base_small (Z.of_nat b)) as [_ Eb]; [lia|]. lia.
Qed.

Section BufferIds.
Context {W : Type} `{World W}.
Implicit Type st : State W.

(** X10. After a successful allocateBuffers on an empty IPA buffer list, the
    ids registered with the IPA are pairwise distinct exactly when
    bufferCount + 1 (in unsigned int) is at most 256: the id is the bitwise
    or of the role base and the slot, so slot 256 of the parameter pool gets
    the id of slot 0. *)
Theorem registered_ids_distinct camera stream rest st st' :
  ipaBuffers_ st = [] ->
  allocateBuffers camera (stream :: rest) st = Ok (0, st') ->
  (NoDup (map id (ipaBuffers_ st')) <-> uint (bufferCount stream + 1) <= 256).
Proof.
  intros Hempty E.
  destruct (allocateBuffers_adds camera stream rest st st' E) as (Hi & _).
  rewrite Hi, Hempty. cbn [app].
  change (map id (ipa_entries RKISP1_PARAM_BASE ParamPool 0
                    (Z.to_nat (uint (bufferCount stream + 1)))
                  ++ ipa_entries RKISP1_STAT_BASE StatPool 0
                       (Z.to_nat (uint (bufferCount stream + 1)))))
    with (registered_ids (Z.to_nat (uint (bufferCount stream + 1)))).
  rewrite registered_ids_NoDup.
  assert (0 <= uint (bufferCount stream + 1))
    by (unfold uint; apply Z.mod_pos_bound; lia).
  lia.
Qed.

(** X11. When allocateBuffers returns a non-zero value it leaves both free
    queues, the IPA buffer list and the frame table as they were and maps
    nothing into the IPA.  Its calls are then one of three sequences: the
    export or import on the image device alone; that call, the params pool
    creation and export, and the release of the image device buffers; or
    that call, the params and stats pool creations and exports, and the
    release of the params buffers and then of the image buffers. *)
Theorem allocateBuffers_unwinds camera stream rest st r st' :
  allocateBuffers camera (stream :: rest) st = Ok (r, st') ->
  r <> 0 ->
  paramBuffers_ st' = paramBuffers_ st
  /\ statBuffers_ st' = statBuffers_ st
  /\ ipaBuffers_ st' = ipaBuffers_ st
  /\ frameInfo_ st' = frameInfo_ st
  /\ exists first count,
       (first = ExportBuffers Video StreamPool
        \/ first = ImportBuffers Video StreamPool)
       /\ (trace st' = trace st ++ [first]
           \/ trace st'
              = trace st ++ [first; CreateBuffers ParamPool count;
                             ExportBuffers Param ParamPool;
                             ReleaseBuffers Video]
           \/ trace st'
              = trace st ++ [first; CreateBuffers ParamPool count;
                             ExportBuffers Param ParamPool;
                             CreateBuffers StatPool count;
                             ExportBuffers Stat StatPool;
                             ReleaseBuffers Param; ReleaseBuffers Video]).
Proof.
  unfold allocateBuffers.
  set (n := Z.to_nat (uint (bufferCount stream + 1))).
  set (first := match memoryType stream with
                | InternalMemory => call (ExportBuffers Video StreamPool)
                | ExternalMemory => call (ImportBuffers Video StreamPool)
                end).
  assert (Hfirst : exists c, first = call c
                             /\ (c = ExportBuffers Video StreamPool
                                 \/ c = ImportBuffers Video StreamPool))
    by (subst first; destruct (memoryType stream); eauto).
  destruct Hfirst as (c0 & -> & Hc0).
  unfold bind at 1, call at 1.
  destruct (call_result (world st) c0 =? 0) eqn:R0; cbn [negb].
  2:{ unfold ret. intros E _. injection E as _ Hst. subst st'.
      cbn [emit paramBuffers_ statBuffers_ ipaBuffers_ frameInfo_ trace].
      repeat (split; [reflexivity|]). exists c0, 0. split; [exact Hc0|].
      left. reflexivity. }
  unfold bind at 1, call at 1. unfold bind at 1, call at 1.
  match goal with |- context [call_result ?w (ExportBuffers Param ParamPool)] =>
    destruct (call_result w (ExportBuffers Param ParamPool) =? 0) eqn:R1
  end; cbn [negb].
  2:{ unfold bind, call, ret. intros E _. injection E as _ Hst. subst st'.
      cbn [emit paramBuffers_ statBuffers_ ipaBuffers_ frameInfo_ trace].
      repeat (split; [reflexivity|]). exists c0. eexists. split; [exact Hc0|].
      right. left. rewrite <- !app_assoc. reflexivity. }
  unfold bind at 1, call at 1. unfold bind at 1, call at 1.
  match goal with |- context [call_result ?w (ExportBuffers Stat StatPool)] =>
    destruct (call_result w (ExportBuffers Stat StatPool) =? 0) eqn:R2
  end; cbn [negb].
  2:{ unfold bind, call, ret. intros E _. injection E as _ Hst. subst st'.
      cbn [emit paramBuffers_ statBuffers_ ipaBuffers_ frameInfo_ trace].
      repeat (split; [reflexivity|]). exists c0. eexists. split; [exact Hc0|].
      right. right. rewrite <- !app_assoc. reflexivity. }
  match goal with |- bind (registerBuffers _ _ _ _ _) _ ?s = _ -> _ =>
    destruct (registerBuffers_param n 0 s) as (s1 & E1 & _);
    rewrite (bind_ok _ _ _ _ _ E1)
  end.
  destruct (registerBuffers_stat n 0 s1) as (s2 & E2 & _).
  rewrite (bind_ok _ _ _ _ _ E2).
  unfold bind, get, call, ret. intros E Hr. injection E as Hr0 _.
  apply Z.eqb_eq in R2. exfalso. apply Hr. rewrite <- Hr0. exact R2.
Qed.
End BufferIds.

(** ** Frame numbers within one streaming session *)

Ltac frame_step :=
  first
    [ apply keeps_ret
    | apply keeps_get
    | apply keeps_fault
    | apply keeps_log; intros; reflexivity
    | apply keeps_call; intros; reflexivity
    | apply keeps_modify; intros; reflexivity
    | apply keeps_bind; [|intros]
    | match goal with
      | |- keeps _ (match ?x with _ => _ end) => destruct x
      end ].

Section Session.
Context {W : Type} `{World W}.
Implicit Type st : State W.

Lemma keys_below_spec st :
  keys_below st = true <->
  forall k info, In (k, info) (frameInfo_ st) -> k < frame_ st.
Proof.
  unfold keys_below. rewrite forallb_forall. split.
  - intros Hall k info Hin. specialize (Hall (k, info) Hin). cbn in Hall.
    apply Z.ltb_lt. exact Hall.
  - intros Hall [k info] Hin. cbn. apply Z.ltb_lt. eauto.
Qed.

Lemma keys_below_fresh st :
  keys_below st = true -> map_find (frame_ st) (frameInfo_ st) = None.
Proof.
  intros Hb. destruct (map_find (frame_ st) (frameInfo_ st)) as [info|] eqn:Hf;
    [|reflexivity].
  apply map_find_In in Hf. apply keys_below_spec in Hf; [lia|assumption].
Qed.

Lemma In_assign (m : list (Z * RkISP1FrameInfo)) k info k0 i0 :
  In (k0, i0) (map_assign k info m) -> (k0, i0) = (k, info) \/ In (k0, i0) m.
Proof.
  induction m as [|[k' i] m IH]; cbn [map_assign].
  - intros [E|[]]. left. symmetry. exact E.
  - destruct (k <? k'); [|destruct (k =? k')].
    + intros [E|Hin]; [left; symmetry; exact E|right; exact Hin].
    + intros [E|Hin]; [left; symmetry; exact E|right; right; exact Hin].
    + intros [E|Hin]; [right; left; exact E|].
      destruct (IH Hin) as [E|Hin']; [left; exact E|right; right; exact Hin'].
Qed.

Lemma keeps_frame_tryCompleteRequest req :
  keeps (W:=W) (fun st => frame_ st) (tryCompleteRequest req).
Proof.
  unfold tryCompleteRequest, activeCameraData, find_request, destroy, find_frame.
  repeat frame_step.
Qed.

Lemma keeps_frame_handle e :
  match e with
  | EvParamReady _ | EvStatReady _ | EvFrameAction _ _ | EvRunQueueBuffers _
  | EvStop _ => True
  | _ => False
  end ->
  keeps (W:=W) (fun st => frame_ st) (handle e).
Proof.
  destruct e; intros He; try contradiction; cbn [handle].
  - unfold stop. repeat frame_step.
  - unfold paramReady, activeCameraData, find_buffer.
    repeat first [apply keeps_frame_tryCompleteRequest | frame_step].
  - unfold statReady, activeCameraData, find_buffer. repeat frame_step.
  - unfold queueFrameAction, metadataReady, find_frame.
    repeat first [apply keeps_frame_tryCompleteRequest | frame_step].
  - unfold RkISP1ActionQueueBuffers_run, find_frame. repeat frame_step.
Qed.

Lemma bufferReady_active buffer st a st' :
  bufferReady buffer st = Ok (a, st') -> exists camera, activeCamera_ st = Some camera.
Proof.
  destruct (activeCamera_ st) as [camera|] eqn:Ha; [eauto|].
  unfold bufferReady. rewrite (bind_fault _ _ _ (activeCameraData_none _ Ha)).
  discriminate.
Qed.

(* one entry point of a session keeps every frame number below the counter *)
Lemma session_step e st st1 :
  session_event e st = true ->
  handle e st = Ok (tt, st1) ->
  keys_below st = true -> keys_below st1 = true.
Proof.
  intros Hs E Hb. apply keys_below_spec. intros k info' Hin.
  rewrite keys_below_spec in Hb.
  destruct (is_queueRequest e) eqn:Hq.
  - destruct e; try discriminate Hq. cbn [session_event] in Hs.
    apply andb_true_iff in Hs as [H0 Hmax].
    apply Z.leb_le in H0. apply Z.ltb_lt in Hmax.
    cbn [handle] in E. apply bind_ret_tt in E as [a E].
    revert E. unfold queueRequest.
    unfold bind at 1, call at 1. unfold bind at 1, get at 1.
    set (s0 := emit (BaseQueueRequest camera req) st).
    destruct (paramBuffers_ s0) as [|pb p] eqn:Hp.
    { destruct (create_fails (frame_ s0) req s0 (or_introl Hp)) as [msg Hc].
      rewrite (bind_ok _ _ _ _ _ Hc). intros E. inversion E; subst.
      apply (Hb k info'). exact Hin. }
    destruct (statBuffers_ s0) as [|sb s] eqn:Hsb.
    { destruct (create_fails (frame_ s0) req s0 (or_intror (or_introl Hsb)))
        as [msg Hc].
      rewrite (bind_ok _ _ _ _ _ Hc). intros E. inversion E; subst.
      apply (Hb k info'). exact Hin. }
    destruct (findBuffer (world s0) req) as [vb|] eqn:Hvb.
    2:{ destruct (create_fails (frame_ s0) req s0 (or_intror (or_intror Hvb)))
          as [msg Hc].
        rewrite (bind_ok _ _ _ _ _ Hc). intros E. inversion E; subst.
        apply (Hb k info'). exact Hin. }
    rewrite (bind_ok _ _ _ _ _ (create_succeeds _ _ _ _ _ _ _ _ Hp Hsb Hvb)).
    unfold bind, get, call, modify, ret. intros E. injection E as _ Hst.
    subst st1.
    cbn [emit set_frame_ set_frameInfo_ set_statBuffers_ set_paramBuffers_
         frame_ frameInfo_] in Hin |- *.
    assert (Hu : uint (frame_ st + 1) = frame_ st + 1)
      by (unfold uint; apply Z.mod_small; unfold UINT_MAX in Hmax; lia).
    rewrite Hu.
    apply In_assign in Hin as [Heq|Hin].
    + inversion Heq; subst. change (frame_ s0) with (frame_ st). lia.
    + specialize (Hb k info' Hin). lia.
  - destruct (descending_handle e Hq st tt st1 E k info' Hin) as (info & Hin0 & _).
    specialize (Hb k info Hin0).
    assert (Hf : frame_ st <= frame_ st1).
    { destruct e; try discriminate Hs; try discriminate Hq.
      2:{ cbn [handle session_event] in E, Hs.
          apply andb_true_iff in Hs as [H0 Hmax].
          apply Z.leb_le in H0. apply Z.ltb_lt in Hmax.
          destruct (bufferReady_active _ _ _ _ E) as [camera Ha].
          destruct (bufferReady_frame buffer st camera Ha) as (st2 & E2 & Hfr).
          rewrite E in E2. injection E2 as <-. rewrite Hfr.
          assert (Hu : uint (Buffer.sequence buffer + 1) = Buffer.sequence buffer + 1)
            by (unfold uint; apply Z.mod_small; unfold UINT_MAX in Hmax; lia).
          rewrite Hu.
          destruct (Z.leb_spec (frame_ st) (Buffer.sequence buffer)); lia. }
      all: match type of E with handle ?ev _ = _ =>
             rewrite (keeps_frame_handle ev I st tt st1 E)
           end; lia. }
    lia.
Qed.

(** X12. Within one streaming session (no allocateBuffers, freeBuffers or
    start), while the frame counter stays below UINT_MAX at each
    queueRequest and image buffers arrive with sequence numbers below
    UINT_MAX: if every frame number in the table is below the frame counter
    at the beginning, it is so after every entry point, and therefore each
    queueRequest assigns a frame number that is not in the table; over a
    well-formed table the free queue plus the live FrameInfos then keeps its
    size for both roles. *)
Theorem session_frames_are_fresh es st st' :
  keys_below st = true ->
  session_run es st st' ->
  keys_below st' = true
  /\ fresh_run es st st'
  /\ (table_ok (frameInfo_ st) = true ->
      param_total st' = param_total st /\ stat_total st' = stat_total st).
Proof.
  intros Hb Hrun.
  assert (Hboth : keys_below st' = true /\ fresh_run es st st').
  { induction Hrun as [st|e es st st1 st' Hs E _ IH]; [split; [assumption|constructor]|].
    pose proof (session_step e st st1 Hs E Hb) as Hb1.
    destruct (IH Hb1) as (Hb' & Hfresh).
    split; [exact Hb'|].
    apply (fresh_cons e es st st1 st'); auto.
    - destruct e; try discriminate Hs; reflexivity.
    - intros camera req _. apply keys_below_fresh. exact Hb. }
  destruct Hboth as (Hb' & Hfresh).
  split; [exact Hb'|]. split; [exact Hfresh|].
  intros Hok. destruct (fresh_run_balance es st st' Hfresh Hok) as (_ & ? & ?).
  auto.
Qed.
End Session.

(** ** RkISP1CameraConfiguration::validate *)

Section Validate.
Context `{Uapi}.

Lemma NV12_listed : existsb (Z.eqb V4L2_PIX_FMT_NV12) formats = true.
Proof.
  unfold formats. cbn [existsb]. rewrite (Z.eqb_refl V4L2_PIX_FMT_NV12).
  rewrite !orb_true_r. reflexivity.
Qed.

Lemma listed_In p : existsb (Z.eqb p) formats = true <-> In p formats.
Proof.
  rewrite existsb_exists. split.
  - intros (x & Hin & E). apply Z.eqb_eq in E. subst. exact Hin.
  - intros Hin. exists p. split; [exact Hin|apply Z.eqb_refl].
Qed.

Lemma size_eqb_eq a b : Size.eqb a b = true <-> a = b.
Proof.
  destruct a as [wa ha], b as [wb hb]. unfold Size.eqb. cbn.
  rewrite andb_true_iff, !Z.eqb_eq. split; [intros [-> ->]; reflexivity|].
  intros E. inversion E. auto.
Qed.

(* every result of validate on a non-empty configuration *)
Lemma validate_cons sensor cfg others sf :
  validate sensor (mkConfiguration (cfg :: others) sf) = Fault
  \/ exists s status msgs,
       validate sensor (mkConfiguration (cfg :: others) sf)
       = Ok (status,
             mkConfiguration
               [StreamConfiguration.mk
                  (if existsb (Z.eqb (StreamConfiguration.pixelFormat cfg)) formats
                   then StreamConfiguration.pixelFormat cfg else V4L2_PIX_FMT_NV12)
                  (Size.mk (Z.max 32 (Z.min 4416 (Size.width s)))
                           (Z.max 16 (Z.min 3312 (Size.height s))))
                  RKISP1_BUFFER_COUNT]
               (select_sensor_format sensor sensor_codes
                                     (StreamConfiguration.size cfg)),
             msgs)
       /\ (status = Valid \/ status = Adjusted)
       /\ (status = Valid <->
           others = []
           /\ existsb (Z.eqb (StreamConfiguration.pixelFormat cfg)) formats = true
           /\ Size.mk (Z.max 32 (Z.min 4416 (Size.width s)))
                      (Z.max 16 (Z.min 3312 (Size.height s)))
              = StreamConfiguration.size cfg)
       /\ (status = Valid -> msgs = [] /\ s = StreamConfiguration.size cfg).
Proof.
  unfold validate. cbn [config_].
  set (size := StreamConfiguration.size cfg).
  set (listed := existsb (Z.eqb (StreamConfiguration.pixelFormat cfg)) formats).
  set (ssf := select_sensor_format sensor sensor_codes size).
  destruct ((Size.width size =? 0) || (Size.height size =? 0)) eqn:Hzero.
  - destruct (Size.width (V4L2SubdeviceFormat.size ssf) =? 0); [left; reflexivity|].
    right.
    set (s := Size.mk 1280 _).
    assert (Hne : Size.eqb
                    (Size.mk (Z.max 32 (Z.min 4416 (Size.width s)))
                             (Z.max 16 (Z.min 3312 (Size.height s)))) size = false).
    { destruct (Size.eqb _ size) eqn:Heq; [|reflexivity].
      apply size_eqb_eq in Heq. rewrite <- Heq in Hzero.
      cbn [Size.width Size.height] in Hzero.
      apply orb_true_iff in Hzero as [Hz|Hz]; apply Z.eqb_eq in Hz; lia. }
    rewrite Hne. cbn [negb].
    exists s. eexists _, _. split; [reflexivity|].
    split; [right; reflexivity|]. split; [|discriminate].
    split; [discriminate|]. intros (_ & _ & Heq).
    rewrite <- Heq in Hne. rewrite (proj2 (size_eqb_eq _ _) eq_refl) in Hne.
    discriminate.
  - right. exists size.
    destruct (Size.eqb (Size.mk (Z.max 32 (Z.min 4416 (Size.width size)))
                                (Z.max 16 (Z.min 3312 (Size.height size)))) size)
      eqn:Heq; cbn [negb].
    + apply size_eqb_eq in Heq.
      destruct listed eqn:Hl, others as [|o others'];
        eexists _, _; (split; [reflexivity|]);
        (split; [auto|]); (split; [|intros; try discriminate; auto]);
        split; try discriminate; auto;
        intros (Ho & Hli & _); discriminate.
    + eexists _, _. split; [reflexivity|].
      split; [right; reflexivity|]. split; [|discriminate].
      split; [discriminate|]. intros (_ & _ & Heq').
      rewrite Heq' in Heq. rewrite (proj2 (size_eqb_eq _ _) eq_refl) in Heq.
      discriminate.
Qed.

Lemma validate_shape sensor cfg others sf status c' msgs :
  validate sensor (mkConfiguration (cfg :: others) sf) = Ok (status, c', msgs) ->
  exists s,
    c' = mkConfiguration
           [StreamConfiguration.mk
              (if existsb (Z.eqb (StreamConfiguration.pixelFormat cfg)) formats
               then StreamConfiguration.pixelFormat cfg else V4L2_PIX_FMT_NV12)
              (Size.mk (Z.max 32 (Z.min 4416 (Size.width s)))
                       (Z.max 16 (Z.min 3312 (Size.height s))))
              RKISP1_BUFFER_COUNT]
           (select_sensor_format sensor sensor_codes (StreamConfiguration.size cfg))
    /\ (status = Valid \/ status = Adjusted)
    /\ (status = Valid <->
        others = []
        /\ existsb (Z.eqb (StreamConfiguration.pixelFormat cfg)) formats = true
        /\ Size.mk (Z.max 32 (Z.min 4416 (Size.width s)))
                   (Z.max 16 (Z.min 3312 (Size.height s)))
           = StreamConfiguration.size cfg)
    /\ (status = Valid -> msgs = [] /\ s = StreamConfiguration.size cfg).
Proof.
  intros E.
  destruct (validate_cons sensor cfg others sf)
    as [Hf|(s & status0 & msgs0 & Hv & Hrest)].
  - rewrite Hf in E. discriminate.
  - rewrite Hv in E.
    assert (Es : status0 = status) by congruence.
    assert (Ec : c' = mkConfiguration
           [StreamConfiguration.mk
              (if existsb (Z.eqb (StreamConfiguration.pixelFormat cfg)) formats
               then StreamConfiguration.pixelFormat cfg else V4L2_PIX_FMT_NV12)
              (Size.mk (Z.max 32 (Z.min 4416 (Size.width s)))
                       (Z.max 16 (Z.min 3312 (Size.height s))))
              RKISP1_BUFFER_COUNT]
           (select_sensor_format sensor sensor_codes (StreamConfiguration.size cfg)))
      by congruence.
    assert (Em : msgs0 = msgs) by congruence.
    subst status0 msgs0. exists s. split; [exact Ec|exact Hrest].
Qed.

(** X13. On a non-empty configuration, whenever validate returns, the status
    is Valid or Adjusted and the configuration is left with exactly one
    stream whose pixel format is one of the eight supported formats, whose
    width lies in [32, 4416] and height in [16, 3312], and whose bufferCount
    is 4; on an empty configuration validate returns Invalid and changes
    nothing. *)
Theorem validate_bounds sensor c status c' msgs :
  validate sensor c = Ok (status, c', msgs) ->
  (config_ c = [] -> status = Invalid /\ c' = c)
  /\ (config_ c <> [] ->
      status <> Invalid
      /\ exists cfg,
           config_ c' = [cfg]
           /\ In (StreamConfiguration.pixelFormat cfg) formats
           /\ 32 <= Size.width (StreamConfiguration.size cfg) <= 4416
           /\ 16 <= Size.height (StreamConfiguration.size cfg) <= 3312
           /\ StreamConfiguration.bufferCount cfg = 4).
Proof.
  destruct c as [[|cfg others] sf]; cbn [config_]; intros E.
  - unfold validate in E. cbn [config_] in E. injection E as <- <- _.
    split; [auto|]. intros Hne. contradiction.
  - split; [discriminate|]. intros _.
    destruct (validate_shape _ _ _ _ _ _ _ E) as (s & -> & Hst & _).
    split; [destruct Hst; congruence|].
    eexists. split; [reflexivity|].
    cbn [StreamConfiguration.pixelFormat StreamConfiguration.size
         StreamConfiguration.bufferCount Size.width Size.height].
    split; [|repeat split; try lia; reflexivity].
    destruct (existsb (Z.eqb (StreamConfiguration.pixelFormat cfg)) formats) eqn:Hl.
    + apply listed_In. exact Hl.
    + apply listed_In. apply NV12_listed.
Qed.

(* a listed format with a size inside the hardware bounds passes unchanged *)
Lemma validate_settled sensor fmt s sf :
  existsb (Z.eqb fmt) formats = true ->
  let cfg := StreamConfiguration.mk
               fmt
               (Size.mk (Z.max 32 (Z.min 4416 (Size.width s)))
                        (Z.max 16 (Z.min 3312 (Size.height s))))
               RKISP1_BUFFER_COUNT in
  exists sf',
    validate sensor (mkConfiguration [cfg] sf)
    = Ok (Valid, mkConfiguration [cfg] sf', []).
Proof.
  intros Hl cfg. subst cfg.
  unfold validate. cbn [config_ StreamConfiguration.pixelFormat
                        StreamConfiguration.size Size.width Size.height].
  rewrite Hl.
  set (w := Z.max 32 (Z.min 4416 (Size.width s))).
  set (h := Z.max 16 (Z.min 3312 (Size.height s))).
  replace (w =? 0) with false by (symmetry; apply Z.eqb_neq; lia).
  replace (h =? 0) with false by (symmetry; apply Z.eqb_neq; lia).
  cbn [orb Size.width Size.height].
  replace (Z.max 32 (Z.min 4416 w)) with w by lia.
  replace (Z.max 16 (Z.min 3312 h)) with h by lia.
  rewrite (proj2 (size_eqb_eq _ _) eq_refl). cbn [negb].
  eexists. reflexivity.
Qed.

(** X14. validate is idempotent on what it returns: validating the
    configuration it left behind (when it was not Invalid) returns Valid,
    with no message and the same single stream configuration. *)
Theorem validate_idempotent sensor c status c' msgs :
  validate sensor c = Ok (status, c', msgs) ->
  config_ c <> [] ->
  exists sf,
    validate sensor c' = Ok (Valid, mkConfiguration (config_ c') sf, []).
Proof.
  destruct c as [[|cfg others] sf]; cbn [config_]; intros E Hne; [contradiction|].
  destruct (validate_shape _ _ _ _ _ _ _ E) as (s & -> & _).
  cbn [config_]. apply validate_settled.
  destruct (existsb (Z.eqb (StreamConfiguration.pixelFormat cfg)) formats) eqn:Hl;
    [exact Hl|apply NV12_listed].
Qed.

(** X15. validate returns Valid exactly when the configuration holds a single
    stream whose pixel format is one of the eight supported formats and
    whose size has its width in [32, 4416] and its height in [16, 3312]; in
    that case it logs nothing and the only member of the stream
    configuration it rewrites is bufferCount, which becomes 4 whatever was
    requested. *)
Theorem validate_Valid sensor c :
  (forall cfg,
      config_ c = [cfg] ->
      In (StreamConfiguration.pixelFormat cfg) formats ->
      32 <= Size.width (StreamConfiguration.size cfg) <= 4416 ->
      16 <= Size.height (StreamConfiguration.size cfg) <= 3312 ->
      validate sensor c
      = Ok (Valid,
            mkConfiguration
              [StreamConfiguration.mk (StreamConfiguration.pixelFormat cfg)
                                      (StreamConfiguration.size cfg) 4]
              (select_sensor_format sensor sensor_codes
                                    (StreamConfiguration.size cfg)),
            []))
  /\ (forall c' msgs,
        validate sensor c = Ok (Valid, c', msgs) ->
        exists cfg,
          config_ c = [cfg]
          /\ In (StreamConfiguration.pixelFormat cfg) formats
          /\ 32 <= Size.width (StreamConfiguration.size cfg) <= 4416
          /\ 16 <= Size.height (StreamConfiguration.size cfg) <= 3312).
Proof.
  split.
  - intros cfg Hc Hin Hw Hh.
    destruct c as [l sf]. cbn [config_] in Hc. subst l.
    destruct cfg as [fmt [w h] count].
    cbn [StreamConfiguration.pixelFormat StreamConfiguration.size
         Size.width Size.height] in *.
    unfold validate.
    cbn [config_ StreamConfiguration.pixelFormat StreamConfiguration.size
         Size.width Size.height].
    rewrite (proj2 (listed_In fmt) Hin).
    replace (w =? 0) with false by (symmetry; apply Z.eqb_neq; lia).
    replace (h =? 0) with false by (symmetry; apply Z.eqb_neq; lia).
    cbn [orb Size.width Size.height].
    replace (Z.max 32 (Z.min 4416 w)) with w by lia.
    replace (Z.max 16 (Z.min 3312 h)) with h by lia.
    rewrite (proj2 (size_eqb_eq _ _) eq_refl). cbn [negb].
    reflexivity.
  - intros c' msgs E.
    destruct c as [[|cfg others] sf];
      [unfold validate in E; cbn [config_] in E; discriminate|].
    destruct (validate_shape _ _ _ _ _ _ _ E) as (s & Hc & _ & Hv & Hm).
    destruct (proj1 Hv eq_refl) as (-> & Hl & Hs).
    exists cfg. split; [reflexivity|].
    split; [apply listed_In; exact Hl|].
    destruct (StreamConfiguration.size cfg) as [w h] eqn:Hsz.
    cbn [Size.width Size.height] in *.
    injection Hs as Hw Hh.
    split; lia.
Qed.
End Validate.

Section ValidateEdges.
Context `{Uapi}.

(** X16. validate divides by the width of the selected sensor format when the
    requested size has a zero dimension.  It therefore fails to return
    exactly when the configuration is non-empty, the requested width or
    height is 0, the format the sensor proposes has a zero dimension and the
    sensor resolution has width 0; for a sensor whose resolution has a
    non-zero width validate always returns. *)
Theorem validate_division_by_zero sensor c :
  (validate sensor c = Fault <->
   exists cfg others,
     config_ c = cfg :: others
     /\ (Size.width (StreamConfiguration.size cfg) = 0
         \/ Size.height (StreamConfiguration.size cfg) = 0)
     /\ (Size.width (V4L2SubdeviceFormat.size
                       (getFormat sensor sensor_codes (StreamConfiguration.size cfg))) = 0
         \/ Size.height (V4L2SubdeviceFormat.size
                           (getFormat sensor sensor_codes (StreamConfiguration.size cfg))) = 0)
     /\ Size.width (resolution sensor) = 0)
  /\ (Size.width (resolution sensor) <> 0 -> validate sensor c <> Fault).
Proof.
  assert (Hiff : validate sensor c = Fault <->
   exists cfg others,
     config_ c = cfg :: others
     /\ (Size.width (StreamConfiguration.size cfg) = 0
         \/ Size.height (StreamConfiguration.size cfg) = 0)
     /\ (Size.width (V4L2SubdeviceFormat.size
                       (getFormat sensor sensor_codes (StreamConfiguration.size cfg))) = 0
         \/ Size.height (V4L2SubdeviceFormat.size
                           (getFormat sensor sensor_codes (StreamConfiguration.size cfg))) = 0)
     /\ Size.width (resolution sensor) = 0).
  { destruct c as [[|cfg others] sf]; unfold validate; cbn [config_].
    { split; [discriminate|]. intros (cfg & others & E & _). discriminate. }
    unfold select_sensor_format.
    set (size := StreamConfiguration.size cfg).
    set (f := getFormat sensor sensor_codes size).
    destruct (Z.eqb_spec (Size.width size) 0) as [Hw|Hw];
      destruct (Z.eqb_spec (Size.height size) 0) as [Hh|Hh]; cbn [orb].
    4:{ split; [discriminate|]. intros (cfg0 & o & E & [Hz|Hz] & _);
        injection E as <- _; contradiction. }
    all: destruct (Z.eqb_spec (Size.width (V4L2SubdeviceFormat.size f)) 0) as [Hfw|Hfw];
      destruct (Z.eqb_spec (Size.height (V4L2SubdeviceFormat.size f)) 0) as [Hfh|Hfh];
      cbn [orb V4L2SubdeviceFormat.size];
      try rewrite Hfw; cbn [Z.eqb];
      try (destruct (Z.eqb_spec (Size.width (resolution sensor)) 0) as [Hr|Hr]);
      try (destruct (Z.eqb_spec (Size.width (V4L2SubdeviceFormat.size f)) 0);
           [contradiction|]);
      (split;
       [ try discriminate; intros _; exists cfg, others; fold size; fold f; auto 10
       | try reflexivity;
         intros (cfg0 & o & E & _ & Hfz & Hrz); injection E as <- _;
         fold size in Hfz; fold f in Hfz;
         try contradiction; destruct Hfz; contradiction ]). }
  split; [exact Hiff|].
  intros Hr Hf. apply Hiff in Hf as (cfg & others & _ & _ & _ & Hz). contradiction.
Qed.

(** X17. The configuration that generateConfiguration returns for a non-empty
    list of roles holds one NV12 stream and validates as Valid without a
    message and without changing the stream; for an empty list of roles it
    holds no stream and validates as Invalid. *)
Theorem generated_configuration_validates sensor roles c msgs :
  generateConfiguration sensor roles = Ok (c, msgs) ->
  (roles = [] -> config_ c = [] /\ validate sensor c = Ok (Invalid, c, []))
  /\ (roles <> [] ->
      exists cfg sf,
        config_ c = [cfg]
        /\ StreamConfiguration.pixelFormat cfg = V4L2_PIX_FMT_NV12
        /\ StreamConfiguration.bufferCount cfg = 4
        /\ validate sensor c = Ok (Valid, mkConfiguration [cfg] sf, [])).
Proof.
  unfold generateConfiguration. destruct roles as [|role roles].
  - intros E. injection E as <- _. split; [|intros Hne; contradiction].
    intros _. split; reflexivity.
  - cbn [config_ sensorFormat_ app].
    destruct (validate sensor _) as [[[status c0] msgs0]|] eqn:Ev; [|discriminate].
    intros E. assert (Ec : c0 = c) by congruence. subst c0.
    split; [discriminate|]. intros _.
    destruct (validate_shape _ _ _ _ _ _ _ Ev) as (s & Hc & _).
    cbn [StreamConfiguration.pixelFormat StreamConfiguration.size] in Hc.
    rewrite NV12_listed in Hc.
    destruct (validate_settled sensor V4L2_PIX_FMT_NV12 s (sensorFormat_ c)
                               NV12_listed) as [sf Hv].
    eexists _, sf. rewrite Hc in Hv |- *. cbn [config_ sensorFormat_] in Hv |- *.
    split; [reflexivity|]. split; [reflexivity|]. split; [reflexivity|exact Hv].
Qed.
End ValidateEdges.

(** ** The simple pipeline handler *)

Section SimpleValidate.
Context `{Uapi}.

(** X18. On a non-empty configuration, whenever the simple handler's validate
    returns, the configuration is left with one stream in the pixel format
    of the pipeline, with bufferCount 3, a width in [32, 4416] and a height
    in [16, 3312]; the width never exceeds the larger of 32 and the pipeline
    maximum width, and the height never exceeds the larger of 16 and the
    pipeline maximum height (the lower hardware bound is applied after the
    pipeline maximum). *)
Theorem simple_validate_bounds info sensor c status c' msgs :
  Simple.validate info sensor c = Ok (status, c', msgs) ->
  config_ c <> [] ->
  status <> Invalid
  /\ exists cfg,
       config_ c' = [cfg]
       /\ StreamConfiguration.pixelFormat cfg = Simple.v4l2PixFmt info
       /\ StreamConfiguration.bufferCount cfg = 3
       /\ 32 <= Size.width (StreamConfiguration.size cfg) <= 4416
       /\ 16 <= Size.height (StreamConfiguration.size cfg) <= 3312
       /\ Size.width (StreamConfiguration.size cfg)
          <= Z.max 32 (Simple.maxWidth info)
       /\ Size.height (StreamConfiguration.size cfg)
          <= Z.max 16 (Simple.maxHeight info).
Proof.
  destruct c as [[|cfg others] sf]; cbn [config_]; intros E Hne; [contradiction|].
  revert E. unfold Simple.validate. cbn [config_].
  set (size := StreamConfiguration.size cfg).
  set (ssf := select_sensor_format sensor [Simple.mediaBusFmt info] size).
  set (pmw := Z.min (Size.width (V4L2SubdeviceFormat.size ssf)) (Simple.maxWidth info)).
  set (pmh := Z.min (Size.height (V4L2SubdeviceFormat.size ssf)) (Simple.maxHeight info)).
  set (defaulted := if (Size.width size =? 0) || (Size.height size =? 0)
                    then _ else _).
  destruct defaulted as [s|]; [|discriminate].
  cbn [Size.width Size.height].
  set (w := Z.max 32 (Z.min 4416 (Z.min pmw (Size.width s)))).
  set (h := Z.max 16 (Z.min 3312 (Z.min pmh (Size.height s)))).
  intros E.
  assert (Ec : c' = mkConfiguration
                      [StreamConfiguration.mk (Simple.v4l2PixFmt info) (Size.mk w h) 3]
                      ssf) by congruence.
  assert (Es : status <> Invalid).
  { assert (Hs : status = if negb (Size.eqb (Size.mk w h) size) then Adjusted
                          else if StreamConfiguration.pixelFormat cfg
                                  =? Simple.v4l2PixFmt info
                               then match others with [] => Valid | _ => Adjusted end
                               else Adjusted) by congruence.
    rewrite Hs.
    destruct (negb _); [discriminate|].
    destruct (_ =? _); [|discriminate]. destruct others; discriminate. }
  split; [exact Es|]. subst c'. eexists. split; [reflexivity|].
  cbn [StreamConfiguration.pixelFormat StreamConfiguration.size
       StreamConfiguration.bufferCount Size.width Size.height].
  subst w h pmw pmh. repeat split; try reflexivity; lia.
Qed.
End SimpleValidate.

Section SimpleRequests.
Context {W : Type} `{World W}.
Implicit Type st : State W.

(** X19. The simple handler's queueRequest has three outcomes.  A request
    without a buffer for the stream is refused with -ENOENT after an error
    message and no other call.  If queueing the buffer on the video device
    yields a negative value, that value is returned and the request is not
    handed to the base class.  Otherwise the buffer is queued first, the
    request is handed to the base class second, and 0 is returned.  In all
    three the active camera is left as it was. *)
Theorem simple_queueRequest_outcomes camera req st :
  exists r st' t,
    Simple.queueRequest camera req st = Ok (r, st')
    /\ trace st' = trace st ++ t
    /\ activeCamera_ st' = activeCamera_ st
    /\ match findBuffer (world st) req with
       | None =>
           r = - ENOENT
           /\ t = [Log LogError "Attempt to queue request with invalid stream"]
       | Some buffer =>
           let q := call_result (world st) (QueueBuffer Video buffer) in
           if q <? 0
           then r = q /\ t = [QueueBuffer Video buffer]
           else r = 0
                /\ t = [QueueBuffer Video buffer; BaseQueueRequest camera req]
       end.
Proof.
  unfold Simple.queueRequest, bind, get, call, log, ret.
  destruct (findBuffer (world st) req) as [buffer|].
  - cbn zeta. destruct (call_result (world st) (QueueBuffer Video buffer) <? 0);
      eexists _, _, _; (split; [reflexivity|]);
      cbn [emit trace activeCamera_]; rewrite <- ?app_assoc;
      repeat split; reflexivity.
  - eexists _, _, _. split; [reflexivity|].
    cbn [emit trace activeCamera_]. repeat split; reflexivity.
Qed.

(** X20. In the simple handler start returns the result of the stream-on and
    makes the camera the active one even when the stream-on failed, and the
    bufferReady that follows completes the buffer and then its request at
    once, whether or not the request still reports pending buffers: the
    number of completeRequest calls for the request grows by exactly one. *)
Theorem simple_start_then_bufferReady camera buffer st :
  exists r st1 st2,
    Simple.start camera st = Ok (r, st1)
    /\ r = call_result (world st) (StreamOn Video)
    /\ activeCamera_ st1 = Some camera
    /\ Simple.bufferReady buffer st1 = Ok (tt, st2)
    /\ trace st2
       = trace st1 ++ [Log LogDebug "bufferReady";
                       CompleteBuffer camera (Buffer.request buffer) buffer;
                       CompleteRequest camera (Buffer.request buffer)]
    /\ completions (Buffer.request buffer) (trace st2)
       = S (completions (Buffer.request buffer) (trace st1)).
Proof.
  assert (Hone : forall c r b,
             completions r [Log LogDebug "bufferReady"; CompleteBuffer c r b;
                            CompleteRequest c r] = 1%nat).
  { intros c r b. unfold completions. cbn [filter is_completion].
    rewrite Z.eqb_refl. reflexivity. }
  unfold Simple.start, bind, call, log, modify, ret.
  destruct (negb (call_result (world st) (StreamOn Video) =? 0));
    eexists _, _, _; (split; [reflexivity|]); (split; [reflexivity|]);
    (split; [reflexivity|]);
    unfold Simple.bufferReady, activeCameraData, bind, get, call, log, ret;
    cbn [activeCamera_ set_activeCamera_ emit];
    (split; [reflexivity|]);
    cbn [trace emit set_activeCamera_]; rewrite <- ?app_assoc; cbn [app];
    (split; [reflexivity|]).
  - change (trace st ++ [StreamOn Video; Log LogError "Failed to start camera";
                         Log LogDebug "bufferReady";
                         CompleteBuffer camera (Buffer.request buffer) buffer;
                         CompleteRequest camera (Buffer.request buffer)])
      with (trace st ++ [StreamOn Video; Log LogError "Failed to start camera"]
                     ++ [Log LogDebug "bufferReady";
                         CompleteBuffer camera (Buffer.request buffer) buffer;
                         CompleteRequest camera (Buffer.request buffer)]).
    rewrite !completions_app, Hone. lia.
  - change (trace st ++ [StreamOn Video; Log LogDebug "bufferReady";
                         CompleteBuffer camera (Buffer.request buffer) buffer;
                         CompleteRequest camera (Buffer.request buffer)])
      with (trace st ++ [StreamOn Video]
                     ++ [Log LogDebug "bufferReady";
                         CompleteBuffer camera (Buffer.request buffer) buffer;
                         CompleteRequest camera (Buffer.request buffer)]).
    rewrite !completions_app, Hone. lia.
Qed.
End SimpleRequests.

(** ** The properties on concrete inputs *)

Lemma run_keeps_table_ok_witness :
  table_ok (frameInfo_ frame0_completed) = true
  /\ NoDup (map fst (frameInfo_ frame0_completed)).
Proof.
  destruct (run_keeps_table_ok (H:=Script_World) frame0_events admitted frame0_completed
              ltac:(vm_compute; reflexivity) ltac:(vm_compute; reflexivity)) as (Hok & Hnd & _).
  split; [exact Hok|exact Hnd].
Defined.

Lemma flags_only_grow_witness :
  exists info,
    In (0, info) (frameInfo_ after_param_set)
    /\ paramFilled info = true
    /\ paramFilled (mkInfo 0 70 param0 stat0 image70 true true false) = true
    /\ (paramDequeued info = true ->
        paramDequeued (mkInfo 0 70 param0 stat0 image70 true true false) = true).
Proof.
  destruct (flags_only_grow (H:=Script_World) (EvParamReady param0)
              after_param_set after_param_dequeued
              ltac:(vm_compute; reflexivity) ltac:(vm_compute; reflexivity) 0
              (mkInfo 0 70 param0 stat0 image70 true true false)
              (or_introl eq_refl))
    as (info & Hin & _ & _ & _ & _ & Hfilled & Hdequeued & _).
  assert (Hset : paramFilled info = true).
  { destruct Hin as [Hin|[]]. injection Hin as <-. reflexivity. }
  exists info. split; [exact Hin|]. split; [exact Hset|].
  split; [exact (Hfilled Hset)|exact Hdequeued].
Defined.

Lemma queueRequest_admits_witness :
  exists st',
    queueRequest 1 71 admitted = Ok (0, st')
    /\ frame_ st' = 2
    /\ map_find 1 (frameInfo_ st')
       = Some (mkInfo 1 71 (Buffer.mk 1001 1 0 0 0) (Buffer.mk 1006 1 0 0 0)
                      image71 false false false)
    /\ map_find 0 (frameInfo_ st') = map_find 0 (frameInfo_ admitted).
Proof.
  destruct (queueRequest_admits (H:=Script_World) 1 71 admitted
              (Buffer.mk 1001 1 0 0 0)
              [Buffer.mk 1002 2 0 0 0; Buffer.mk 1003 3 0 0 0; Buffer.mk 1004 4 0 0 0]
              (Buffer.mk 1006 1 0 0 0)
              [Buffer.mk 1007 2 0 0 0; Buffer.mk 1008 3 0 0 0; Buffer.mk 1009 4 0 0 0]
              image71 ltac:(vm_compute; reflexivity) ltac:(vm_compute; reflexivity) ltac:(vm_compute; reflexivity))
    as (st' & Hrun & Hf & _ & _ & Hfind & Hother & _).
  exists st'. split; [exact Hrun|]. split; [exact Hf|]. split; [exact Hfind|].
  apply Hother. discriminate.
Defined.

Lemma create_destroy_round_trip_witness :
  exists st2,
    destroy 9 created = Ok (0, st2)
    /\ frameInfo_ st2 = frameInfo_ streaming
    /\ map Buffer.addr (paramBuffers_ st2) = [1001; 1002; 1003; 1004; 1000].
Proof.
  destruct (create_destroy_round_trip (H:=Script_World) 9 70 streaming
              (mkInfo 9 70 param0 stat0 image70 false false false) created
              ltac:(vm_compute; reflexivity) ltac:(vm_compute; reflexivity))
    as (pb & p & sb & s & st2 & Hp & Hs & Hd & Hfi & Hpq & _).
  exists st2. split; [exact Hd|]. split; [exact Hfi|].
  rewrite Hpq. injection Hp as <- <-. reflexivity.
Defined.

Lemma completes_only_from_three_paths_witness :
  completions 70%Z (trace admitted_twice) = completions 70%Z (trace admitted).
Proof.
  apply (completes_only_from_three_paths (H:=Script_World) (EvQueueRequest 1 71) admitted
           admitted_twice 70); reflexivity.
Defined.

Lemma PARAM_FILLED_sets_one_flag_witness :
  exists st',
    queueFrameAction 0 PARAM_FILLED admitted = Ok (tt, st')
    /\ map_find 0 (frameInfo_ st')
       = Some (mkInfo 0 70 param0 stat0 image70 true false false)
    /\ trace st' = trace admitted.
Proof.
  destruct (PARAM_FILLED_sets_one_flag (H:=Script_World) 0 PARAM_FILLED admitted ltac:(vm_compute; reflexivity))
    as (st' & Hrun & Hfind & _ & _ & _ & Ht).
  exists st'. split; [exact Hrun|]. split.
  - rewrite (Hfind 0). reflexivity.
  - rewrite Ht. vm_compute. reflexivity.
Defined.

Lemma unserved_replies_witness :
  queueFrameAction 5 METADATA admitted
  = Ok (tt, emit (Log LogError "Can't locate info from frame") admitted)
  /\ queueFrameAction 0 (mkOp RKISP1_IPA_ACTION_METADATA [] []) admitted = Fault.
Proof.
  destruct (unserved_replies (H:=Script_World) 5 METADATA admitted) as (Hmeta & _ & _).
  destruct (unserved_replies (H:=Script_World) 0 (mkOp RKISP1_IPA_ACTION_METADATA [] []) admitted)
    as (_ & _ & Hfault).
  split.
  - apply Hmeta; [reflexivity|discriminate|reflexivity].
  - apply Hfault; [left; reflexivity|reflexivity].
Defined.

Lemma allocateBuffers_registers_witness :
  map id (ipaBuffers_ allocated)
  = [256; 257; 258; 259; 260; 512; 513; 514; 515; 516]
  /\ map Buffer.index (paramBuffers_ allocated) = [0; 1; 2; 3; 4].
Proof.
  destruct (allocateBuffers_registers (H:=Script_World) 1 (mkStream InternalMemory 4) [] idle
              allocated ltac:(vm_compute; reflexivity)) as (Hi & Hp & _).
  rewrite Hi, Hp. split; reflexivity.
Defined.

Lemma registered_ids_distinct_witness : NoDup (map id (ipaBuffers_ allocated)).
Proof.
  apply (registered_ids_distinct (H:=Script_World) 1 (mkStream InternalMemory 4) [] idle allocated
           ltac:(vm_compute; reflexivity) ltac:(vm_compute; reflexivity)).
  vm_compute. discriminate.
Defined.

Lemma allocateBuffers_unwinds_witness :
  exists st',
    allocateBuffers 1 [mkStream InternalMemory 4] (stopped param_export_fails)
    = Ok (-12, st')
    /\ paramBuffers_ st' = [] /\ ipaBuffers_ st' = [].
Proof.
  eexists. split; [vm_compute; reflexivity|].
  destruct (allocateBuffers_unwinds (H:=Script_World) 1 (mkStream InternalMemory 4) []
              (stopped param_export_fails) (-12) _ ltac:(vm_compute; reflexivity) ltac:(discriminate))
    as (Hp & _ & Hi & _).
  split; [exact Hp|exact Hi].
Defined.

Lemma session_frames_are_fresh_witness :
  keys_below frame0_completed = true
  /\ param_total frame0_completed = param_total admitted.
Proof.
  assert (Hrun : session_run frame0_events admitted frame0_completed).
  { unfold frame0_events.
    repeat (eapply session_cons; [reflexivity | vm_compute; reflexivity | ]).
    apply session_nil. }
  destruct (session_frames_are_fresh (H:=Script_World) frame0_events admitted frame0_completed
              ltac:(vm_compute; reflexivity) Hrun) as (Hb & _ & Hbal).
  split; [exact Hb|]. apply Hbal. reflexivity.
Defined.

Lemma validate_bounds_witness :
  exists cfg,
    @validate linux_uapi sensor_5mp requested
    = Ok (Adjusted,
          mkConfiguration [cfg] (V4L2SubdeviceFormat.mk 0x3007 (Size.mk 2592 1944)),
          ["Adjusting format to NV12"%string; "Adjusting size"%string])
    /\ In (StreamConfiguration.pixelFormat cfg) (@formats linux_uapi)
    /\ StreamConfiguration.size cfg = Size.mk 4416 16.
Proof.
  eexists. split; [vm_compute; reflexivity|].
  destruct (@validate_bounds linux_uapi sensor_5mp requested _ _ _ ltac:(vm_compute; reflexivity))
    as (_ & Hb).
  destruct (Hb ltac:(discriminate)) as (_ & cfg & Hc & Hin & _).
  injection Hc as <-. split; [exact Hin|reflexivity].
Defined.

Lemma validate_idempotent_witness :
  exists c' sf,
    @validate linux_uapi sensor_5mp requested
    = Ok (Adjusted, c', ["Adjusting format to NV12"%string; "Adjusting size"%string])
    /\ @validate linux_uapi sensor_5mp c'
       = Ok (Valid, mkConfiguration (config_ c') sf, []).
Proof.
  eexists. 
  destruct (@validate_idempotent linux_uapi sensor_5mp requested _ _ _ ltac:(vm_compute; reflexivity)
              ltac:(discriminate)) as (sf & Hv).
  exists sf. split; [vm_compute; reflexivity|exact Hv].
Defined.

Lemma validate_Valid_witness :
  @validate linux_uapi sensor_5mp requested_valid
  = Ok (Valid,
        mkConfiguration
          [StreamConfiguration.mk 0x3231564e (Size.mk 640 480) 4]
          (@select_sensor_format sensor_5mp (@sensor_codes linux_uapi)
                                 (Size.mk 640 480)),
        []).
Proof.
  apply (proj1 (@validate_Valid linux_uapi sensor_5mp requested_valid)
               (StreamConfiguration.mk 0x3231564e (Size.mk 640 480) 9)).
  - reflexivity.
  - vm_compute. tauto.
  - cbn. lia.
  - cbn. lia.
Defined.

Lemma validate_division_by_zero_witness :
  @validate linux_uapi sensor_blank
    (mkConfiguration [StreamConfiguration.mk 0x3231564e (Size.mk 0 0) 0]
                     (V4L2SubdeviceFormat.mk 0 (Size.mk 0 0)))
  = Fault
  /\ @validate linux_uapi sensor_5mp
       (mkConfiguration [StreamConfiguration.mk 0x3231564e (Size.mk 0 0) 0]
                        (V4L2SubdeviceFormat.mk 0 (Size.mk 0 0)))
     <> Fault.
Proof.
  split.
  - apply (@validate_division_by_zero linux_uapi). eexists _, _.
    split; [reflexivity|]. cbn. auto.
  - apply (@validate_division_by_zero linux_uapi). cbn. discriminate.
Defined.

Lemma generated_configuration_validates_witness :
  @generateConfiguration linux_uapi sensor_5mp [0] = Ok (generated, [])
  /\ exists cfg sf,
       config_ generated = [cfg]
       /\ @validate linux_uapi sensor_5mp generated
          = Ok (Valid, mkConfiguration [cfg] sf, []).
Proof.
  split; [vm_compute; reflexivity|].
  destruct (@generated_configuration_validates linux_uapi sensor_5mp [0]
              generated [] ltac:(vm_compute; reflexivity)) as (_ & Hgen).
  destruct (Hgen ltac:(discriminate)) as (cfg & sf & Hc & _ & _ & Hv).
  exists cfg, sf. split; [exact Hc|exact Hv].
Defined.

Lemma simple_validate_bounds_witness :
  exists cfg,
    StreamConfiguration.pixelFormat cfg = 0x59565955
    /\ Size.width (StreamConfiguration.size cfg) <= 1280
    /\ Size.height (StreamConfiguration.size cfg) <= 720.
Proof.
  destruct (simple_validate_bounds
              (Simple.mkPipelineInfo "sun6i-csi" [] [] [] 0x59565955 0x2006 1280 720)
              sensor_5mp requested _ _ _ ltac:(vm_compute; reflexivity) ltac:(discriminate))
    as (_ & cfg & _ & Hf & _ & _ & _ & Hw & Hh).
  exists cfg. split; [exact Hf|]. split; [exact Hw|exact Hh].
Defined.

(** ** configure and initLinks *)

Section ConfigureProperties.
Context {G : Type} `{Media G} `{Uapi}.

Lemma kbind_ok {A B} (c : K G A) (k : A -> K G B) s a s' :
  c s = Ok (a, s') -> kbind c k s = k a s'.
Proof. unfold kbind. intros ->. reflexivity. Qed.

Lemma configureLinks_spec e links0 links : forall s,
  incl links links0 ->
  exists r s' t,
    configureLinks e links s = Ok (r, s')
    /\ calls s' = calls s ++ t
    /\ r <= 0
    /\ Forall (link_call e links0) t
    /\ ((forall l, In l links ->
                   linkEnabled (media s) l = (source_entity l =? e)) ->
        t = [] /\ r = 0).
Proof.
  induction links as [|l rest IH]; intros s Hincl; cbn [configureLinks].
  - exists 0, s, []. rewrite app_nil_r. repeat split; auto; try lia.
  - unfold kbind at 1, kget at 1.
    assert (Hrest : incl rest links0) by (intros x Hx; apply Hincl; right; exact Hx).
    destruct (Bool.eqb (linkEnabled (media s) l) (source_entity l =? e)) eqn:Hb.
    + destruct (IH s Hrest) as (r & s' & t & E & Hc & Hr & Hall & Hnone).
      exists r, s', t. split; [exact E|]. split; [exact Hc|]. split; [exact Hr|].
      split; [exact Hall|]. intros Hdone. apply Hnone.
      intros l0 Hl0. apply Hdone. right. exact Hl0.
    + assert (Hcontra : (forall l0, In l0 (l :: rest) ->
                           linkEnabled (media s) l0 = (source_entity l0 =? e)) ->
                        False).
      { intros Hdone. rewrite (Hdone l (or_introl eq_refl)) in Hb.
        rewrite Bool.eqb_reflx in Hb. discriminate. }
      unfold kbind at 1, klog at 1. unfold kbind at 1, kcall at 1.
      match goal with |- context [media_result ?w ?c <? 0] =>
        destruct (Z.ltb_spec (media_result w c) 0) as [Hneg|Hpos]
      end.
      * unfold kret. eexists _, _, [_; _]. split; [reflexivity|].
        cbn [record calls]. rewrite <- app_assoc. cbn [app].
        split; [reflexivity|]. split; [cbn [media]; lia|].
        split; [|intros Hdone; destruct (Hcontra Hdone)].
        repeat constructor. apply Hincl. left. reflexivity.
      * match goal with |- exists r s' t, configureLinks _ _ ?s1 = _ /\ _ =>
          destruct (IH s1 Hrest) as (r & s' & t & E & Hc & Hr & Hall & _)
        end.
        exists r, s'. eexists (_ :: _ :: t). split; [exact E|].
        rewrite Hc. cbn [record calls]. rewrite <- !app_assoc. cbn [app].
        split; [reflexivity|]. split; [exact Hr|].
        split; [|intros Hdone; destruct (Hcontra Hdone)].
        constructor; [exact I|]. constructor; [|exact Hall].
        split; [apply Hincl; left; reflexivity|reflexivity].
Qed.

Lemma link_call_format e links cfg c : link_call e links c -> format_call cfg c.
Proof. destruct c; cbn; try tauto; try contradiction. Qed.

Lemma link_call_not_SetStream e links t :
  Forall (link_call e links) t -> ~ In SetStream t.
Proof.
  intros Hall Hin. rewrite Forall_forall in Hall. exact (Hall _ Hin).
Qed.

(* what configure does after the link loop returned [r0] *)
Lemma configure_outcome e links sf cfg others s r s' :
  configure e (Some links) sf (cfg :: others) s = Ok (r, s') ->
  exists t1 t2,
    calls s' = calls s ++ t1 ++ t2
    /\ Forall (link_call e links) t1
    /\ ((forall l, In l links ->
                   linkEnabled (media s) l = (source_entity l =? e)) -> t1 = [])
    /\ Forall (fun c => is_SetEnabled c = false) t2
    /\ Forall (format_call cfg) t2
    /\ (In SetStream t2 <-> r = 0).
Proof.
  unfold configure.
  destruct (configureLinks_spec e links links s (incl_refl _))
    as (r0 & s1 & t1 & E1 & Hc1 & Hr0 & Hall1 & Hnone).
  rewrite (kbind_ok _ _ _ _ _ E1).
  intros E. exists t1.
  assert (Ht1 : (forall l, In l links ->
                   linkEnabled (media s) l = (source_entity l =? e)) -> t1 = [])
    by (intros Hd; apply Hnone; exact Hd).
  revert E.
  unfold kbind, kcall, kcall_subdev, kcall_video, klog, kret.
  cbn [record calls media].
  repeat match goal with
         | |- context [if ?x <? 0 then _ else _] =>
             destruct (Z.ltb_spec x 0)
         | |- context [if negb (?x =? 0) then _ else _] =>
             destruct (Z.eqb_spec x 0); cbn [negb]
         | |- context [if size_differs ?a ?b || ?c then _ else _] =>
             destruct (size_differs a b || c)
         end;
    intros E; injection E as Hr Hs; subst s';
    cbn [record calls media] in *;
    first [ exists (@nil MediaCall);
            split; [rewrite app_nil_r; exact Hc1|]
          | rewrite Hc1, <- ?app_assoc; cbn [app];
            eexists; split; [reflexivity|] ];
    (split; [exact Hall1|]); (split; [exact Ht1|]);
    (split; [repeat constructor|]);
    (split; [repeat constructor|]);
    cbn [In]; split;
    try (intros Hin;
         repeat (destruct Hin as [Hin|Hin]; try discriminate Hin);
         try contradiction; try lia; try (unfold EINVAL in *; lia));
    try (intros Hz; exfalso; unfold EINVAL in *; lia);
    try (repeat (first [left; reflexivity | right])).
Qed.
(** X21. configure touches the sensor links of the CSI-2 receiver pad only:
    every setEnabled call it makes is on a link of that pad and enables the
    link exactly when its source is this camera's sensor; when every link of
    the pad is already in that state, configure makes no setEnabled call at
    all. *)
Theorem configure_links_follow_sensor e links sf cfg others s r s' :
  configure e (Some links) sf (cfg :: others) s = Ok (r, s') ->
  exists t,
    calls s' = calls s ++ t
    /\ (forall l enable, In (SetEnabled l enable) t ->
          In l links /\ enable = (source_entity l =? e))
    /\ ((forall l, In l links ->
                   linkEnabled (media s) l = (source_entity l =? e)) ->
        filter is_SetEnabled t = []).
Proof.
  intros E.
  destruct (configure_outcome _ _ _ _ _ _ _ _ E)
    as (t1 & t2 & Hc & Hall1 & Hnone & Hno & _ & _).
  exists (t1 ++ t2). split; [exact Hc|]. split.
  - intros l enable Hin. apply in_app_or in Hin. destruct Hin as [Hin|Hin].
    + rewrite Forall_forall in Hall1. exact (Hall1 _ Hin).
    + rewrite Forall_forall in Hno. specialize (Hno _ Hin). discriminate Hno.
  - intros Hdone. rewrite (Hnone Hdone). cbn [app].
    clear - Hno. induction Hno as [|c t Hc _ IH]; [reflexivity|].
    cbn [filter]. rewrite Hc. exact IH.
Qed.

(** X22. configure binds the stream to the configuration (setStream) exactly
    when it returns 0: on every error return, whichever step failed, the
    stream is left unbound. *)
Theorem configure_setStream_iff_success e links sf cfg others s r s' :
  configure e (Some links) sf (cfg :: others) s = Ok (r, s') ->
  exists t, calls s' = calls s ++ t /\ (In SetStream t <-> r = 0).
Proof.
  intros E.
  destruct (configure_outcome _ _ _ _ _ _ _ _ E)
    as (t1 & t2 & Hc & Hall1 & _ & _ & _ & Hiff).
  exists (t1 ++ t2). split; [exact Hc|]. rewrite <- Hiff. split.
  - intros Hin. apply in_app_or in Hin. destruct Hin as [Hin|Hin]; [|exact Hin].
    destruct (link_call_not_SetStream _ _ _ Hall1 Hin).
  - intros Hin. apply in_or_app. right. exact Hin.
Qed.

(* the device calls of configure, in their order *)
Lemma configure_sequence e links sf cfg others s r s' :
  configure e (Some links) sf (cfg :: others) s = Ok (r, s') ->
  exists t1 t2 g1 g2 g3 g4 rest,
    calls s' = calls s ++ t1 ++ t2
    /\ Forall (link_call e links) t1
    /\ filter is_device_call t2 ++ rest = configure_chain sf cfg g1 g2 g3 g4
    /\ (r = 0 -> rest = []).
Proof.
  unfold configure.
  destruct (configureLinks_spec e links links s (incl_refl _))
    as (r0 & s1 & t1 & E1 & Hc1 & Hr0 & Hall1 & _).
  rewrite (kbind_ok _ _ _ _ _ E1).
  intros E. exists t1. revert E.
  unfold kbind, kcall, kcall_subdev, kcall_video, klog, kret.
  cbn [record calls media].
  repeat match goal with
         | |- context [if ?x <? 0 then _ else _] =>
             destruct (Z.ltb_spec x 0)
         | |- context [if negb (?x =? 0) then _ else _] =>
             destruct (Z.eqb_spec x 0); cbn [negb]
         | |- context [if size_differs ?a ?b || ?c then _ else _] =>
             destruct (size_differs a b || c)
         end;
    intros E; injection E as Hr Hs; subst s';
    cbn [record calls media] in *;
    first [ exists (@nil MediaCall); do 5 eexists;
            split; [rewrite app_nil_r; exact Hc1|]
          | do 6 eexists;
            split; [rewrite Hc1, <- ?app_assoc; cbn [app]; reflexivity|] ];
    (split; [exact Hall1|]);
    (split; [cbn [filter is_device_call app];
             unfold configure_chain, configure_requests; cbv zeta;
             reflexivity|]);
    intros Hz; try reflexivity; exfalso; unfold EINVAL in *; lia.
  Unshelve.
  all: exact (media s).
Qed.

Lemma link_call_not_device e links t :
  Forall (link_call e links) t -> filter is_device_call t = [].
Proof.
  induction 1 as [|c t Hc _ IH]; [reflexivity|].
  cbn [filter]. destruct c; try contradiction; exact IH.
Qed.

(** X23. configure asks for the formats in one fixed order: the calls it
    makes on the sensor, the subdevices and the video devices are a prefix
    of: the validated format on the
    sensor, on pad 0 of the CSI-2 receiver the format the sensor answered
    with, a read of its pad 1, on ISP pad 0 the format read, then on the ISP
    source pad (pad 2) the media bus code YUYV8_2X8 with the size ISP pad 0
    answered with, on the capture device the pixel format and size of the
    first stream configuration with two planes, on the parameter and
    statistics devices their RkISP1 meta formats, and the stream binding.
    When configure returns 0 it has made all of them. *)
Theorem configure_requests_formats e links sf cfg others s r s' :
  configure e (Some links) sf (cfg :: others) s = Ok (r, s') ->
  exists t g1 g2 g3 g4 rest,
    calls s' = calls s ++ t
    /\ Forall (format_call cfg) t
    /\ filter is_device_call t ++ rest = configure_chain sf cfg g1 g2 g3 g4
    /\ (r = 0 -> rest = []).
Proof.
  intros E.
  destruct (configure_outcome _ _ _ _ _ _ _ _ E)
    as (t1 & t2 & Hc & Hall1 & _ & _ & Hfmt & _).
  destruct (configure_sequence _ _ _ _ _ _ _ _ E)
    as (u1 & u2 & g1 & g2 & g3 & g4 & rest & Hc' & Hall1' & Hseq & Hrest).
  assert (Ht : t1 ++ t2 = u1 ++ u2).
  { apply (app_inv_head (calls s)). rewrite <- Hc. exact Hc'. }
  exists (t1 ++ t2), g1, g2, g3, g4, rest.
  split; [exact Hc|]. split.
  - apply Forall_app. split; [|exact Hfmt].
    eapply Forall_impl; [|exact Hall1]. intros c. apply link_call_format.
  - rewrite Ht, filter_app, (link_call_not_device _ _ _ Hall1'). cbn [app].
    split; [exact Hseq|exact Hrest].
Qed.

(** X24. initLinks always returns, with 0 or a negative value; it first
    disables all links and after that only enables links, at most two of
    them, and exactly two when it returns 0.  It returns -ENODEV as soon as
    one of the two links is missing from the media graph: without a further
    call when the link from the CSI-2 receiver to the ISP is missing, and
    after enabling that link and nothing else when the link from the ISP to
    the main path is missing. *)
Theorem initLinks_outcome s :
  exists r s' t,
    initLinks s = Ok (r, s')
    /\ r <= 0
    /\ calls s' = calls s ++ DisableLinks :: t
    /\ Forall (fun c => exists l, c = SetEnabled l true) t
    /\ (List.length t <= 2)%nat
    /\ (r = 0 -> List.length t = 2%nat)
    /\ (0 <= media_result (media s) DisableLinks ->
        findLink (media_effect (media s) DisableLinks)
                 "rockchip-sy-mipi-dphy" 1 "rkisp1-isp-subdev" 0 = None ->
        r = - ENODEV /\ t = [])
    /\ (0 <= media_result (media s) DisableLinks ->
        forall link,
          findLink (media_effect (media s) DisableLinks)
                   "rockchip-sy-mipi-dphy" 1 "rkisp1-isp-subdev" 0 = Some link ->
          0 <= media_result (media_effect (media s) DisableLinks)
                            (SetEnabled link true) ->
          findLink (media_effect (media_effect (media s) DisableLinks)
                                 (SetEnabled link true))
                   "rkisp1-isp-subdev" 2 "rkisp1_mainpath" 0 = None ->
          r = - ENODEV /\ t = [SetEnabled link true]).
Proof.
  unfold initLinks, kbind, kcall, kget, kret. cbn [record calls media].
  repeat match goal with
         | |- context [if ?x <? 0 then _ else _] =>
             destruct (Z.ltb_spec x 0)
         | |- context [match findLink ?g ?a ?b ?c ?d with _ => _ end] =>
             let E := fresh "Elink" in
             destruct (findLink g a b c d) eqn:E; cbn [record calls media]
         end;
    eexists _, _, _; (split; [reflexivity|]);
    cbn [record calls]; rewrite <- ?app_assoc; cbn [app];
    (split; [unfold ENODEV; lia|]);
    (split; [reflexivity|]);
    (split; [repeat (apply Forall_cons; [eexists; reflexivity|]);
             apply Forall_nil|]);
    (split; [cbn; lia|]);
    (split; [cbn; unfold ENODEV; intros; try reflexivity; lia|]);
    cbn [record media] in *;
    (split;
     [ intros Hpos Hnone; try lia; try congruence; split; reflexivity
     | intros Hpos link Hfirst Hset Hnone; try lia;
       rewrite Hfirst in *;
       repeat match goal with
              | E : Some _ = Some _ |- _ => injection E as E; subst
              end;
       try lia; try congruence; split; reflexivity ]).
Qed.

End ConfigureProperties.

Lemma configure_links_follow_sensor_witness :
  exists t,
    calls (snd board_configured) = calls board_other_sensor ++ t
    /\ (forall l enable, In (SetEnabled l enable) t ->
          In l sensor_links /\ enable = (source_entity l =? 100))
    /\ ((forall l, In l sensor_links ->
                   linkEnabled (media board_other_sensor) l
                   = (source_entity l =? 100)) ->
        filter is_SetEnabled t = []).
Proof.
  exact (@configure_links_follow_sensor _ Board_Media linux_uapi
           100 sensor_links (sensorFormat_ generated)
           (StreamConfiguration.mk 0x3231564e (Size.mk 2592 1944) 4) []
           board_other_sensor (fst board_configured) (snd board_configured)
           ltac:(vm_compute; reflexivity)).
Defined.

Lemma configure_setStream_iff_success_witness :
  exists t,
    calls (snd board_configured) = calls board_other_sensor ++ t
    /\ (In SetStream t <-> fst board_configured = 0).
Proof.
  exact (@configure_setStream_iff_success _ Board_Media linux_uapi
           100 sensor_links (sensorFormat_ generated)
           (StreamConfiguration.mk 0x3231564e (Size.mk 2592 1944) 4) []
           board_other_sensor (fst board_configured) (snd board_configured)
           ltac:(vm_compute; reflexivity)).
Defined.

Lemma configure_requests_formats_witness :
  exists t g1 g2 g3 g4 rest,
    calls (snd board_reconfigured) = calls board_this_sensor ++ t
    /\ Forall (@format_call linux_uapi
                 (StreamConfiguration.mk 0x3231564e (Size.mk 2592 1944) 4)) t
    /\ filter is_device_call t ++ rest
       = @configure_chain linux_uapi _ Board_Media (sensorFormat_ generated)
           (StreamConfiguration.mk 0x3231564e (Size.mk 2592 1944) 4)
           g1 g2 g3 g4
    /\ (fst board_reconfigured = 0 -> rest = []).
Proof.
  exact (@configure_requests_formats _ Board_Media linux_uapi
           100 sensor_links (sensorFormat_ generated)
           (StreamConfiguration.mk 0x3231564e (Size.mk 2592 1944) 4) []
           board_this_sensor (fst board_reconfigured) (snd board_reconfigured)
           ltac:(vm_compute; reflexivity)).
Defined.

Section SimpleConfigure.
Context {G : Type} `{Media G}.

(** X25. The simple handler's configure runs the same link loop as the RkISP1
    handler (setEnabled only on links of the CSI-2 receiver pad, enabling
    exactly the link of this camera's sensor) and after it only sets the
    validated sensor format on the sensor and the pixel format and size of the
    first stream configuration, with two planes, on the video device: it
    never sets a format on a subdevice pad.  It binds the stream (setStream)
    exactly when it returns 0. *)
Theorem simple_configure_outcome e links sf cfg others s r s' :
  SimpleSetup.configure e (Some links) sf (cfg :: others) s = Ok (r, s') ->
  exists t1 t2,
    calls s' = calls s ++ t1 ++ t2
    /\ Forall (link_call e links) t1
    /\ Forall (SimpleSetup.format_call sf cfg) t2
    /\ (In SetStream (t1 ++ t2) <-> r = 0).
Proof.
  unfold SimpleSetup.configure.
  destruct (configureLinks_spec e links links s (incl_refl _))
    as (r0 & s1 & t1 & E1 & Hc1 & Hr0 & Hall1 & _).
  rewrite (kbind_ok _ _ _ _ _ E1).
  intros E. exists t1.
  assert (Hsplit : forall t2 : list MediaCall,
             In SetStream (t1 ++ t2) <-> In SetStream t2).
  { intros t2. split.
    - intros Hin. apply in_app_or in Hin. destruct Hin as [Hin|Hin]; [|exact Hin].
      destruct (link_call_not_SetStream _ _ _ Hall1 Hin).
    - intros Hin. apply in_or_app. right. exact Hin. }
  revert E.
  unfold kbind, kcall, kcall_subdev, kcall_video, klog, kret.
  cbn [record calls media].
  repeat match goal with
         | |- context [if ?x <? 0 then _ else _] =>
             destruct (Z.ltb_spec x 0)
         | |- context [if negb (?x =? 0) then _ else _] =>
             destruct (Z.eqb_spec x 0); cbn [negb]
         | |- context [if size_differs ?a ?b || ?c then _ else _] =>
             destruct (size_differs a b || c)
         end;
    intros E; injection E as Hr Hs; subst s';
    cbn [record calls media] in *;
    first [ exists (@nil MediaCall);
            split; [rewrite app_nil_r; exact Hc1|]
          | rewrite Hc1, <- ?app_assoc; cbn [app];
            eexists; split; [reflexivity|] ];
    (split; [exact Hall1|]);
    (split; [repeat (apply Forall_cons; [cbn; auto|]); apply Forall_nil|]);
    rewrite Hsplit; cbn [In]; split;
    try (intros Hin;
         repeat (destruct Hin as [Hin|Hin]; try discriminate Hin);
         try contradiction; try lia; try (unfold EINVAL in *; lia));
    try (repeat (first [left; reflexivity | right])).
Qed.
End SimpleConfigure.

Lemma simple_configure_outcome_witness :
  exists t1 t2,
    calls (snd simple_configured) = calls board_other_sensor ++ t1 ++ t2
    /\ Forall (link_call 100 sensor_links) t1
    /\ Forall (SimpleSetup.format_call
                (sensorFormat_ generated)
                (StreamConfiguration.mk 0x3231564e (Size.mk 2592 1944) 4)) t2
    /\ (In SetStream (t1 ++ t2) <-> fst simple_configured = 0).
Proof.
  exact (@simple_configure_outcome _ Board_Media
           100 sensor_links (sensorFormat_ generated)
           (StreamConfiguration.mk 0x3231564e (Size.mk 2592 1944) 4) []
           board_other_sensor (fst simple_configured) (snd simple_configured)
           ltac:(vm_compute; reflexivity)).
Defined.
(** ** Sessions in which only what was queued or scheduled comes back *)

Section Takes.
Context {A : Type} (eqb : A -> A -> bool).
Hypothesis eqb_spec : forall a b, eqb a b = true <-> a = b.

Lemma take_In a l l' : take eqb a l = Some l' -> In a l.
Proof.
  revert l'. induction l as [|x l IH]; intros l'; cbn [take]; [discriminate|].
  destruct (eqb a x) eqn:E.
  - intros _. left. symmetry. apply eqb_spec. exact E.
  - destruct (take eqb a l) as [r|]; [|discriminate].
    intros _. right. apply (IH r). reflexivity.
Qed.

Lemma take_incl a l l' : take eqb a l = Some l' -> incl l' l.
Proof.
  revert l'. induction l as [|x l IH]; intros l'; cbn [take]; [discriminate|].
  destruct (eqb a x) eqn:E.
  - intros E'. injection E' as <-. intros y Hy. right. exact Hy.
  - destruct (take eqb a l) as [r|]; [|discriminate].
    cbn [option_map]. intros E'. injection E' as <-.
    intros y [Hy|Hy]; [left; exact Hy|right; apply (IH r eq_refl); exact Hy].
Qed.

Lemma take_NoDup a l l' :
  take eqb a l = Some l' -> NoDup l -> NoDup l' /\ ~ In a l'.
Proof.
  revert l'. induction l as [|x l IH]; intros l'; cbn [take]; [discriminate|].
  destruct (eqb a x) eqn:E.
  - intros E' Hnd. injection E' as <-. apply eqb_spec in E. subst x.
    inversion Hnd; subst. split; assumption.
  - destruct (take eqb a l) as [r|] eqn:Et; [|discriminate].
    cbn [option_map]. intros E' Hnd. injection E' as <-.
    inversion Hnd as [|? ? Hx Hl]; subst.
    destruct (IH r eq_refl Hl) as [Hr Ha]. split.
    + constructor; [|exact Hr]. intros Hin. apply Hx.
      apply (take_incl a l r Et). exact Hin.
    + intros [Hin|Hin]; [|exact (Ha Hin)].
      subst x. assert (eqb a a = true) by (apply eqb_spec; reflexivity).
      congruence.
Qed.
End Takes.

Lemma slot_eqb_spec a b : slot_eqb a b = true <-> a = b.
Proof.
  destruct a as [d x], b as [d' y]. unfold slot_eqb. cbn [fst snd].
  rewrite andb_true_iff, Z.eqb_eq. split.
  - intros [Hd ->]. destruct d, d'; try discriminate Hd; reflexivity.
  - intros E. injection E as -> ->. split; [destruct d'; reflexivity|reflexivity].
Qed.

Lemma param_slots_app l1 l2 : param_slots (l1 ++ l2) = param_slots l1 ++ param_slots l2.
Proof. unfold param_slots. rewrite filter_app, map_app. reflexivity. Qed.

Lemma param_slots_In a l : In a (param_slots l) <-> In (Param, a) l.
Proof.
  unfold param_slots. rewrite in_map_iff. split.
  - intros ([d x] & Hx & Hin). cbn [snd] in Hx. subst x.
    apply filter_In in Hin as [Hin Hd]. cbn [fst] in Hd.
    destruct d; try discriminate Hd. exact Hin.
  - intros Hin. exists (Param, a). split; [reflexivity|].
    apply filter_In. split; [exact Hin|reflexivity].
Qed.

(* the params device gives a buffer back *)
Lemma take_param_slots a l l' :
  take slot_eqb (Param, a) l = Some l' ->
  take Z.eqb a (param_slots l) = Some (param_slots l').
Proof.
  revert l'. induction l as [|[d x] l IH]; intros l'; cbn [take]; [discriminate|].
  unfold slot_eqb at 1. cbn [fst snd].
  destruct d; cbn [device_eqb andb].
  - unfold param_slots. cbn [filter fst device_eqb map snd take].
    fold (param_slots l).
    destruct (a =? x) eqn:E.
    + intros E'. injection E' as <-. reflexivity.
    + destruct (take slot_eqb (Param, a) l) as [r|]; [|discriminate].
      cbn [option_map]. intros E'. injection E' as <-.
      rewrite (IH r eq_refl). cbn [option_map filter fst device_eqb map snd].
      reflexivity.
  - destruct (take slot_eqb (Param, a) l) as [r|]; [|discriminate].
    cbn [option_map]. intros E'. injection E' as <-.
    unfold param_slots. cbn [filter fst device_eqb]. apply (IH r eq_refl).
  - destruct (take slot_eqb (Param, a) l) as [r|]; [|discriminate].
    cbn [option_map]. intros E'. injection E' as <-.
    unfold param_slots. cbn [filter fst device_eqb]. apply (IH r eq_refl).
Qed.

(* another device gives a buffer back *)
Lemma take_other_slots d a l l' :
  d <> Param ->
  take slot_eqb (d, a) l = Some l' -> param_slots l' = param_slots l.
Proof.
  intros Hd. revert l'.
  induction l as [|[d' x] l IH]; intros l'; cbn [take]; [discriminate|].
  destruct (slot_eqb (d, a) (d', x)) eqn:E.
  - intros E'. injection E' as <-. apply slot_eqb_spec in E.
    injection E as <- <-. unfold param_slots. cbn [filter fst].
    destruct d; [contradiction|reflexivity|reflexivity].
  - destruct (take slot_eqb (d, a) l) as [r|]; [|discriminate].
    cbn [option_map]. intros E'. injection E' as <-.
    unfold param_slots. cbn [filter fst].
    destruct (device_eqb d' Param); cbn [map snd];
      fold (param_slots r); fold (param_slots l); rewrite (IH r eq_refl);
      reflexivity.
Qed.

Lemma param_slots_off d l :
  incl (param_slots (filter (fun q => negb (device_eqb (fst q) d)) l)) (param_slots l)
  /\ (NoDup (param_slots l) ->
      NoDup (param_slots (filter (fun q => negb (device_eqb (fst q) d)) l))).
Proof.
  induction l as [|[d' x] l [IHi IHn]]; [split; [apply incl_refl|auto]|].
  cbn [filter fst].
  destruct d, d'; cbn [device_eqb negb]; unfold param_slots in *;
    cbn [filter fst device_eqb map snd]; split;
    try (intros y Hy; first [right; apply IHi; exact Hy
                           | destruct Hy as [Hy|Hy];
                             [left; exact Hy|right; apply IHi; exact Hy]
                           | apply IHi; exact Hy]);
    try (intros Hnd; inversion Hnd; subst; first [apply IHn; assumption
         | constructor; [intros Hin; apply IHi in Hin; contradiction
                        |apply IHn; assumption]]);
    try exact IHn.
Qed.

Section TableEntries.

Lemma In_update (m : list (Z * RkISP1FrameInfo)) k0 f k i' :
  In (k, i') (map_update k0 f m) ->
  exists i, In (k, i) m /\ (i' = i \/ (k = k0 /\ i' = f i)).
Proof.
  induction m as [|[k1 i1] m IH]; cbn [map_update]; [contradiction|].
  destruct (k0 =? k1) eqn:E.
  - apply Z.eqb_eq in E. subst k1. intros [Hin|Hin].
    + injection Hin as <- <-. exists i1. split; [left; reflexivity|].
      right. split; reflexivity.
    + exists i'. split; [right; exact Hin|left; reflexivity].
  - intros [Hin|Hin].
    + injection Hin as <- <-. exists i1. split; [left; reflexivity|left; reflexivity].
    + destruct (IH Hin) as (i & Hi & Hor). exists i. split; [right; exact Hi|exact Hor].
Qed.

Lemma In_erase_keys lo (m : list (Z * RkISP1FrameInfo)) k0 k i :
  keys_from lo m = true ->
  In (k, i) (map_erase k0 m) -> In (k, i) m /\ k <> k0.
Proof.
  revert lo. induction m as [|[k1 i1] m IH]; intros lo; cbn [map_erase keys_from];
    [contradiction|].
  intros Hk. apply andb_true_iff in Hk as [Hk Hrest].
  apply andb_true_iff in Hk as [Hlo Hf]. apply Z.ltb_lt in Hlo.
  destruct (k0 =? k1) eqn:E.
  - apply Z.eqb_eq in E. subst k1. intros Hin. split; [right; exact Hin|].
    destruct (keys_from_In _ _ _ _ Hrest Hin) as (Hlt & _). lia.
  - apply Z.eqb_neq in E. intros [Hin|Hin].
    + injection Hin as <- <-. split; [left; reflexivity|congruence].
    + destruct (IH _ Hrest Hin) as [Hi Hne]. split; [right; exact Hi|exact Hne].
Qed.

Lemma In_erase (m : list (Z * RkISP1FrameInfo)) k0 k i :
  table_ok m = true ->
  In (k, i) (map_erase k0 m) -> In (k, i) m /\ k <> k0.
Proof.
  intros Hok. destruct (table_ok_keys _ Hok) as [lo Hk].
  apply (In_erase_keys lo). exact Hk.
Qed.

Lemma table_ok_In (m : list (Z * RkISP1FrameInfo)) k i :
  table_ok m = true -> In (k, i) m -> frame i = k /\ map_find k m = Some i.
Proof.
  intros Hok Hin. destruct (table_ok_keys _ Hok) as [lo Hk].
  destruct (keys_from_In _ _ _ _ Hk Hin) as (_ & Hf & Hfind). split; assumption.
Qed.

Lemma table_ok_same_key (m : list (Z * RkISP1FrameInfo)) k i1 i2 :
  table_ok m = true -> In (k, i1) m -> In (k, i2) m -> i1 = i2.
Proof.
  intros Hok H1 H2.
  destruct (table_ok_In _ _ _ Hok H1) as [_ E1].
  destruct (table_ok_In _ _ _ Hok H2) as [_ E2]. congruence.
Qed.
End TableEntries.

Section Accounts.
Variable P : list Z.

Lemma Ledger_weaken fl sc frm table pq sq fl' sc' frm' :
  Ledger P fl sc frm table pq sq ->
  NoDup fl' -> incl fl' fl -> NoDup sc' -> incl sc' sc -> frm <= frm' ->
  Ledger P fl' sc' frm' table pq sq.
Proof.
  intros [Hok Hb [_ Hp] [_ Hf] [Hqn Hq] Hs Ho Hi] Hfl Hifl Hsc Hisc Hle.
  constructor; try assumption.
  - intros k info Hin. specialize (Hb k info Hin). lia.
  - split; [exact Hsc|]. intros f Hin. specialize (Hp f (Hisc f Hin)). lia.
  - split; [exact Hfl|]. intros a Hin. apply Hf. apply Hifl. exact Hin.
  - split; [exact Hqn|]. intros b Hin. destruct (Hq b Hin) as (HP & Hn & Hd).
    split; [exact HP|]. split; [|exact Hd]. intros Hin'. apply Hn. apply Hifl. exact Hin'.
  - intros k info Hin. destruct (Hi k info Hin) as (H1 & H2 & H3 & H4 & H5 & H6).
    repeat split; try assumption.
    + intros Hk. apply H5. apply Hisc. exact Hk.
    + apply H6. apply Hifl. assumption.
    + apply H6. apply Hifl. assumption.
    + intros Hk. destruct (H6 (Hifl _ H)) as (_ & _ & Hn). apply Hn.
      apply Hisc. exact Hk.
Qed.

(* a write to one flag of the FrameInfo stored under [k0] *)
Lemma Ledger_flag fl sc frm table pq sq k0 (f : RkISP1FrameInfo -> RkISP1FrameInfo) :
  Ledger P fl sc frm table pq sq ->
  (forall i, frame (f i) = frame i /\ paramBuffer (f i) = paramBuffer i
             /\ statBuffer (f i) = statBuffer i /\ videoBuffer (f i) = videoBuffer i) ->
  (forall i, In (k0, i) table -> settled P fl sc k0 i -> settled P fl sc k0 (f i)) ->
  Ledger P fl sc frm (map_update k0 f table) pq sq.
Proof.
  intros [Hok Hb Hp Hf [Hqn Hq] Hs Ho Hi] Hid Hset.
  constructor; try assumption.
  - apply table_ok_update; [|exact Hok]. intros i. apply Hid.
  - intros k info Hin. apply In_update in Hin as (i & Hin & _). apply (Hb k i Hin).
  - split; [exact Hqn|]. intros b Hin. destruct (Hq b Hin) as (HP & Hn & Hd).
    split; [exact HP|]. split; [exact Hn|].
    intros k info Hin'. apply In_update in Hin' as (i & Hin' & [->|[_ ->]]).
    + apply (Hd k i Hin').
    + destruct (Hid i) as (_ & -> & _). apply (Hd k i Hin').
  - intros k1 i1 k2 i2 H1 H2 E.
    apply In_update in H1 as (j1 & H1 & Hj1).
    apply In_update in H2 as (j2 & H2 & Hj2).
    apply (Ho k1 j1 k2 j2 H1 H2).
    assert (E1 : paramBuffer i1 = paramBuffer j1)
      by (destruct Hj1 as [->|[_ ->]]; [reflexivity|apply Hid]).
    assert (E2 : paramBuffer i2 = paramBuffer j2)
      by (destruct Hj2 as [->|[_ ->]]; [reflexivity|apply Hid]).
    rewrite <- E1, <- E2. exact E.
  - intros k info Hin. apply In_update in Hin as (i & Hin & [->|[-> ->]]).
    + apply (Hi k i Hin).
    + apply Hset; [exact Hin|]. apply (Hi k0 i Hin).
Qed.

Lemma Ledger_filled fl sc frm table pq sq k0 :
  Ledger P fl sc frm table pq sq ->
  Ledger P fl sc frm (map_update k0 (set_paramFilled true) table) pq sq.
Proof.
  intros HL. apply Ledger_flag; [exact HL| |].
  - intros i. repeat split; reflexivity.
  - intros i _ (H1 & H2 & H3 & H4 & H5 & H6).
    repeat split; try assumption; try (intros; reflexivity).
    + apply H6. assumption.
    + apply H6. assumption.
Qed.

Lemma Ledger_metadata fl sc frm table pq sq k0 :
  Ledger P fl sc frm table pq sq ->
  Ledger P fl sc frm (map_update k0 (set_metadataProcessed true) table) pq sq.
Proof.
  intros HL. apply Ledger_flag; [exact HL| |].
  - intros i. repeat split; reflexivity.
  - intros i _ Hs. exact Hs.
Qed.

(* the params device returns [buffer] to the FrameInfo the lookup finds *)
Lemma Ledger_dequeued fl sc frm table pq sq fl' buffer k info :
  Ledger P fl sc frm table pq sq ->
  map_search (holds_buffer buffer) table = Some (k, info) ->
  In (Buffer.addr buffer) fl ->
  NoDup fl' -> incl fl' fl -> ~ In (Buffer.addr buffer) fl' ->
  paramFilled info = true
  /\ Ledger P fl' sc frm (map_update k (set_paramDequeued true) table) pq sq.
Proof.
  intros HL Hs Hin Hnd Hincl Hout.
  pose proof (ledger_ok _ _ _ _ _ _ _ HL) as Hok.
  destruct (table_ok_search _ _ _ _ Hok Hs) as (Hfr & Hfind & Hh).
  pose proof (map_find_In _ _ _ Hfind) as Hinfo.
  destruct (ledger_info _ _ _ _ _ _ _ HL k info Hinfo) as (H1 & H2 & H3 & H4 & H5 & H6).
  assert (HP : In (Buffer.addr buffer) P)
    by (apply (proj2 (ledger_flying _ _ _ _ _ _ _ HL)); exact Hin).
  assert (Hown : Buffer.addr (paramBuffer info) = Buffer.addr buffer).
  { unfold holds_buffer, Buffer.eqb in Hh.
    apply orb_true_iff in Hh as [Hh|Hh]; [apply orb_true_iff in Hh as [Hh|Hh]|].
    - apply Z.eqb_eq. exact Hh.
    - apply Z.eqb_eq in Hh. rewrite Hh in H2. contradiction.
    - apply Z.eqb_eq in Hh. rewrite Hh in H3. contradiction. }
  rewrite <- Hown in Hin, Hout.
  destruct (H6 Hin) as (Hfilled & Hdeq & Hnsc).
  split; [exact Hfilled|].
  assert (HL' : Ledger P fl' sc frm table pq sq).
  { apply (Ledger_weaken fl sc frm table pq sq); try assumption;
      [apply (ledger_pending _ _ _ _ _ _ _ HL)|apply incl_refl|lia]. }
  apply Ledger_flag; [exact HL'| |].
  - intros i. repeat split; reflexivity.
  - intros i Hi _.
    assert (i = info) by (apply (table_ok_same_key table k); assumption).
    subst i. unfold settled.
    cbn [set_paramDequeued paramBuffer statBuffer videoBuffer paramFilled
         paramDequeued].
    repeat split; try assumption; try (intros; contradiction).
    intros _. exact Hfilled.
Qed.

(* RkISP1Frames::destroy of a FrameInfo whose parameter buffer came back *)
Lemma Ledger_destroyed fl sc frm table pq sq k info :
  Ledger P fl sc frm table pq sq ->
  In (k, info) table ->
  paramDequeued info = true ->
  Ledger P fl sc frm (map_erase k table)
         (queue_push pq (paramBuffer info)) (queue_push sq (statBuffer info)).
Proof.
  intros [Hok Hb Hp Hf [Hqn Hq] Hs Ho Hi] Hin Hdeq.
  destruct (Hi k info Hin) as (H1 & H2 & H3 & H4 & H5 & H6).
  assert (Hnofl : ~ In (Buffer.addr (paramBuffer info)) fl).
  { intros Hfl. destruct (H6 Hfl) as (_ & Hd & _). congruence. }
  unfold queue_push. constructor; try assumption.
  - apply table_ok_erase. exact Hok.
  - intros k' i' Hin'. apply (In_erase _ _ _ _ Hok) in Hin' as [Hin' _].
    apply (Hb k' i' Hin').
  - split.
    + rewrite map_app. cbn [map]. apply NoDup_app; [exact Hqn|repeat constructor; auto|].
      intros a Ha [Hb'|[]]. subst a.
      apply in_map_iff in Ha as (b & Hab & Hbin).
      destruct (Hq b Hbin) as (_ & _ & Hd). apply (Hd k info Hin). symmetry. exact Hab.
    + intros b Hbin. apply in_app_or in Hbin as [Hbin|[<-|[]]].
      * destruct (Hq b Hbin) as (HP & Hn & Hd). split; [exact HP|]. split; [exact Hn|].
        intros k' i' Hin'. apply (In_erase _ _ _ _ Hok) in Hin' as [Hin' _].
        apply (Hd k' i' Hin').
      * split; [exact H1|]. split; [exact Hnofl|].
        intros k' i' Hin' E. apply (In_erase _ _ _ _ Hok) in Hin' as [Hin' Hne].
        apply Hne. apply (Ho k' i' k info Hin' Hin E).
  - intros b Hbin. apply in_app_or in Hbin as [Hbin|[<-|[]]];
      [apply (Hs b Hbin)|exact H2].
  - intros k1 i1 k2 i2 Hin1 Hin2.
    apply (In_erase _ _ _ _ Hok) in Hin1 as [Hin1 _].
    apply (In_erase _ _ _ _ Hok) in Hin2 as [Hin2 _].
    apply (Ho k1 i1 k2 i2 Hin1 Hin2).
  - intros k' i' Hin'. apply (In_erase _ _ _ _ Hok) in Hin' as [Hin' _].
    apply (Hi k' i' Hin').
Qed.

(* RkISP1Frames::create under the frame number [frm], and its action *)
Lemma Ledger_admitted fl sc frm table pb p sb s req vb :
  Ledger P fl sc frm table (pb :: p) (sb :: s) ->
  ~ In (Buffer.addr vb) P ->
  Ledger P fl (sc ++ [frm]) (frm + 1)
         (map_assign frm (mkInfo frm req pb sb vb false false false) table) p s.
Proof.
  intros [Hok Hb [Hpn Hp] Hf [Hqn Hq] Hs Ho Hi] Hvb.
  cbn [map] in Hqn. inversion Hqn as [|? ? Hpb Hqn']; subst.
  destruct (Hq pb (or_introl eq_refl)) as (HPpb & Hnpb & Hdpb).
  constructor.
  - apply table_ok_assign; [reflexivity|exact Hok].
  - intros k info Hin. apply In_assign in Hin as [Heq|Hin].
    + injection Heq as -> _. lia.
    + specialize (Hb k info Hin). lia.
  - split.
    + apply NoDup_app; [exact Hpn|repeat constructor; auto|].
      intros a Ha [Hb'|[]]. subst a. specialize (Hp frm Ha). lia.
    + intros f Hin. apply in_app_or in Hin as [Hin|[<-|[]]];
        [specialize (Hp f Hin)|]; lia.
  - exact Hf.
  - split; [exact Hqn'|]. intros b Hbin.
    destruct (Hq b (or_intror Hbin)) as (HP & Hn & Hd).
    split; [exact HP|]. split; [exact Hn|].
    intros k info Hin. apply In_assign in Hin as [Heq|Hin].
    + injection Heq as _ ->. cbn [paramBuffer]. intros E. apply Hpb.
      rewrite E. apply in_map. exact Hbin.
    + apply (Hd k info Hin).
  - intros b Hbin. apply Hs. right. exact Hbin.
  - intros k1 i1 k2 i2 Hin1 Hin2 E.
    apply In_assign in Hin1 as [Heq1|Hin1]; apply In_assign in Hin2 as [Heq2|Hin2].
    + injection Heq1 as -> _. injection Heq2 as -> _. reflexivity.
    + injection Heq1 as _ ->. cbn [paramBuffer] in E.
      exfalso. apply (Hdpb k2 i2 Hin2). symmetry. exact E.
    + injection Heq2 as _ ->. cbn [paramBuffer] in E.
      exfalso. apply (Hdpb k1 i1 Hin1). exact E.
    + apply (Ho k1 i1 k2 i2 Hin1 Hin2 E).
  - intros k info Hin. apply In_assign in Hin as [Heq|Hin].
    + injection Heq as -> ->. unfold settled.
      cbn [paramBuffer statBuffer videoBuffer paramFilled paramDequeued].
      split; [exact HPpb|]. split; [apply Hs; left; reflexivity|].
      split; [exact Hvb|]. split; [discriminate|]. split; [reflexivity|].
      intros Hfl. contradiction.
    + destruct (Hi k info Hin) as (H1 & H2 & H3 & H4 & H5 & H6).
      specialize (Hb k info Hin).
      repeat split; try assumption.
      * intros Hk. apply H5. apply in_app_or in Hk as [Hk|[Hk|[]]]; [exact Hk|lia].
      * apply H6. assumption.
      * apply H6. assumption.
      * intros Hk. destruct (H6 H) as (_ & _ & Hn). apply Hn.
        apply in_app_or in Hk as [Hk|[Hk|[]]]; [exact Hk|lia].
Qed.

(* the QueueBuffers action of frame [k] hands the parameter buffer to the
   params device *)
Lemma Ledger_queued fl sc frm table pq sq sc' k info :
  Ledger P fl sc frm table pq sq ->
  In (k, info) table ->
  paramFilled info = true ->
  In k sc -> NoDup sc' -> incl sc' sc -> ~ In k sc' ->
  Ledger P (fl ++ [Buffer.addr (paramBuffer info)]) sc' frm table pq sq.
Proof.
  intros [Hok Hb [Hpn Hp] [Hfn Hf] [Hqn Hq] Hs Ho Hi] Hin Hfilled Hk Hnd Hincl Hout.
  destruct (Hi k info Hin) as (H1 & H2 & H3 & H4 & H5 & H6).
  assert (Hnofl : ~ In (Buffer.addr (paramBuffer info)) fl).
  { intros Hfl. destruct (H6 Hfl) as (_ & _ & Hn). exact (Hn Hk). }
  constructor; try assumption.
  - split; [exact Hnd|]. intros f Hfin. apply Hp. apply Hincl. exact Hfin.
  - split.
    + apply NoDup_app; [exact Hfn|repeat constructor; auto|].
      intros a Ha [Hb'|[]]. subst a. exact (Hnofl Ha).
    + intros a Ha. apply in_app_or in Ha as [Ha|[<-|[]]]; [apply Hf; exact Ha|exact H1].
  - split; [exact Hqn|]. intros b Hbin. destruct (Hq b Hbin) as (HP & Hn & Hd).
    split; [exact HP|]. split; [|exact Hd].
    intros Ha. apply in_app_or in Ha as [Ha|[Ha|[]]]; [exact (Hn Ha)|].
    apply (Hd k info Hin). exact Ha.
  - intros k' i' Hin'. destruct (Hi k' i' Hin') as (G1 & G2 & G3 & G4 & G5 & G6).
    split; [exact G1|]. split; [exact G2|]. split; [exact G3|]. split; [exact G4|].
    split.
    + intros Hk'. apply G5. apply Hincl. exact Hk'.
    + intros Ha. apply in_app_or in Ha as [Ha|[Ha|[]]].
      * destruct (G6 Ha) as (F1 & F2 & F3). split; [exact F1|]. split; [exact F2|].
        intros Hk'. apply F3. apply Hincl. exact Hk'.
      * assert (k = k') by (apply (Ho k info k' i' Hin Hin'); exact Ha).
        subst k'. assert (i' = info) by (apply (table_ok_same_key table k); assumption).
        subst i'. split; [exact Hfilled|]. split; [apply H5; exact Hk|exact Hout].
Qed.
End Accounts.

Section OrderlySteps.
Context {W : Type} `{World W}.
Variable P : list Z.
Implicit Type st : State W.

Lemma skipn_length_app {A} (l t : list A) : skipn (List.length l) (l ++ t) = t.
Proof. induction l as [|x l IH]; [reflexivity|exact IH]. Qed.

Lemma calls_since_app st st1 t :
  trace st1 = trace st ++ t -> calls_since st st1 = t.
Proof. intros E. unfold calls_since. rewrite E. apply skipn_length_app. Qed.

Lemma calls_since_same st st1 :
  trace st1 = trace st -> calls_since st st1 = [].
Proof.
  intros E. apply calls_since_app. rewrite app_nil_r. exact E.
Qed.

Lemma inert_fold t : forall o,
  Forall (fun c => inert c = true) t -> fold_left note_call t o = o.
Proof.
  induction t as [|c t IH]; intros o Hall; [reflexivity|].
  inversion Hall as [|? ? Hc Ht]; subst. cbn [fold_left].
  assert (E : note_call o c = o).
  { destruct c; try discriminate Hc; try reflexivity.
    destruct type; try discriminate Hc; reflexivity. }
  rewrite E. apply IH. exact Ht.
Qed.

Lemma completions_snoc req t c :
  completions req (t ++ [c])
  = (completions req t + if is_completion req c then 1 else 0)%nat.
Proof.
  rewrite completions_app. unfold completions at 2. cbn [filter].
  destruct (is_completion req c); reflexivity.
Qed.

Lemma completes_filled_refl st st1 :
  (forall req, completions req (trace st1) = completions req (trace st)) ->
  completes_filled st st1.
Proof. intros E req Hne. exfalso. apply Hne. apply E. Qed.

(* tryCompleteRequest on a state of the account *)
Lemma gate_step fl sc req st st1 :
  Ledger P fl sc (frame_ st) (frameInfo_ st) (paramBuffers_ st) (statBuffers_ st) ->
  tryCompleteRequest req st = Ok (tt, st1) ->
  Ledger P fl sc (frame_ st1) (frameInfo_ st1) (paramBuffers_ st1) (statBuffers_ st1)
  /\ (exists t, trace st1 = trace st ++ t /\ Forall (fun c => inert c = true) t)
  /\ completes_filled st st1.
Proof.
  intros HL E.
  destruct (activeCamera_ st) as [camera|] eqn:Ha.
  2:{ unfold tryCompleteRequest in E.
      rewrite (bind_fault _ _ _ (activeCameraData_none _ Ha)) in E. discriminate. }
  destruct (map_search (fun i => request i =? req) (frameInfo_ st))
    as [[k info]|] eqn:Hs.
  2:{ rewrite (tryCompleteRequest_absent st camera req Ha Hs) in E.
      injection E as <-. cbn [emit frame_ frameInfo_ paramBuffers_ statBuffers_ trace].
      split; [exact HL|]. split.
      - eexists. split; [reflexivity|]. repeat constructor.
      - apply completes_filled_refl. intros r. cbn [emit trace].
        rewrite completions_snoc. cbn [is_completion]. lia. }
  pose proof (ledger_ok _ _ _ _ _ _ _ HL) as Hok.
  destruct (table_ok_search _ _ _ _ Hok Hs) as (Hfr & Hfind & Hreq).
  pose proof (map_find_In _ _ _ Hfind) as Hin.
  destruct (gate st req info) eqn:G.
  - rewrite (tryCompleteRequest_passes st camera req k info Ha Hok Hs G) in E.
    injection E as <-.
    assert (Hdeq : paramDequeued info = true).
    { unfold gate in G. apply andb_true_iff in G as [_ G]. exact G. }
    cbn [destroyed emit set_frameInfo_ set_statBuffers_ set_paramBuffers_
         frame_ frameInfo_ paramBuffers_ statBuffers_ trace].
    rewrite Hfr. split; [apply Ledger_destroyed; assumption|]. split.
    + eexists. split; [reflexivity|]. repeat constructor.
    + intros r Hne.
      cbn [destroyed emit set_frameInfo_ set_statBuffers_ set_paramBuffers_ trace]
        in Hne.
      rewrite completions_snoc in Hne. cbn [is_completion] in Hne.
      destruct (req =? r) eqn:Er; [|exfalso; apply Hne; lia].
      apply Z.eqb_eq in Er. subst r.
      exists k, info. split; [exact Hs|].
      destruct (ledger_info _ _ _ _ _ _ _ HL k info Hin) as (_ & _ & _ & H4 & _).
      apply H4. exact Hdeq.
  - rewrite (tryCompleteRequest_blocked st camera req k info Ha Hs G) in E.
    injection E as <-. split; [exact HL|]. split.
    + exists []. split; [symmetry; apply app_nil_r|constructor].
    + apply completes_filled_refl. reflexivity.
Qed.

Lemma via_gate o1 st mid st1 req t0 :
  trace mid = trace st ++ t0 ->
  ledger_of P (fold_left note_call t0 o1) mid ->
  tryCompleteRequest req mid = Ok (tt, st1) ->
  ledger_of P (fold_left note_call (calls_since st st1) o1) st1
  /\ completes_filled mid st1.
Proof.
  intros Ht HL E. unfold ledger_of in HL.
  destruct (gate_step _ _ _ _ _ HL E) as (HL1 & (t & Ht1 & Hinert) & Hc).
  split; [|exact Hc].
  rewrite (calls_since_app st st1 (t0 ++ t))
    by (rewrite Ht1, Ht, app_assoc; reflexivity).
  rewrite fold_left_app, (inert_fold t _ Hinert). exact HL1.
Qed.

(* completions seen from the state the entry point started in *)
Lemma completes_filled_from st mid st1 :
  (forall req, completions req (trace mid) = completions req (trace st)) ->
  (forall req k i',
     map_search (fun i => request i =? req) (frameInfo_ mid) = Some (k, i') ->
     exists i, map_search (fun i => request i =? req) (frameInfo_ st) = Some (k, i)
               /\ paramFilled i = paramFilled i') ->
  completes_filled mid st1 -> completes_filled st st1.
Proof.
  intros Hsame Htab Hc req Hne. rewrite <- Hsame in Hne.
  destruct (Hc req Hne) as (k & i' & Hs & Hf).
  destruct (Htab req k i' Hs) as (i & Hi & Ef).
  exists k, i. split; [exact Hi|congruence].
Qed.

(* the lookup by request after a write to a flag *)
Lemma flag_entries (m : list (Z * RkISP1FrameInfo)) k0 f :
  (forall i, request (f i) = request i /\ paramFilled (f i) = paramFilled i) ->
  forall req k i',
    map_search (fun i => request i =? req) (map_update k0 f m) = Some (k, i') ->
    exists i, map_search (fun i => request i =? req) m = Some (k, i)
              /\ paramFilled i = paramFilled i'.
Proof.
  intros Hf req. induction m as [|[k1 i1] m IH]; intros k i';
    cbn [map_update map_search]; [discriminate|].
  destruct (k0 =? k1); cbn [map_search].
  - destruct (Hf i1) as [-> Hp].
    destruct (request i1 =? req).
    + intros E. injection E as <- <-. exists i1. split; [reflexivity|].
      symmetry. exact Hp.
    + intros E. exists i'. split; [exact E|reflexivity].
  - destruct (request i1 =? req).
    + intros E. injection E as <- <-. exists i1. split; reflexivity.
    + apply IH.
Qed.

Lemma step_paramReady o o1 buffer st st1 :
  ledger_of P o st ->
  deliver (EvParamReady buffer) o = Some o1 ->
  paramReady buffer st = Ok (tt, st1) ->
  ledger_of P (fold_left note_call (calls_since st st1) o1) st1
  /\ completes_filled st st1.
Proof.
  intros HL Hd E. unfold ledger_of in HL.
  cbn [deliver] in Hd.
  destruct (take slot_eqb (Param, Buffer.addr buffer) (in_flight o)) as [q|] eqn:Ht;
    [|discriminate].
  cbn [option_map] in Hd. injection Hd as <-.
  pose proof (take_param_slots _ _ _ Ht) as Ht'. fold (flying o) in Ht'.
  destruct (ledger_flying _ _ _ _ _ _ _ HL) as [Hnd _].
  destruct (take_NoDup Z.eqb Z.eqb_eq _ _ _ Ht' Hnd) as [Hnd' Hout].
  pose proof (take_In Z.eqb Z.eqb_eq _ _ _ Ht') as Hin.
  pose proof (take_incl Z.eqb _ _ _ Ht') as Hincl.
  unfold paramReady in E.
  destruct (activeCamera_ st) as [camera|] eqn:Ha;
    [|rewrite (bind_fault _ _ _ (activeCameraData_none _ Ha)) in E; discriminate].
  rewrite (bind_ok _ _ _ _ _ (activeCameraData_some _ _ Ha)) in E.
  destruct (map_search (holds_buffer buffer) (frameInfo_ st)) as [[k info]|] eqn:Hs;
    [|rewrite (bind_ok _ _ _ _ _ (find_buffer_none _ _ Hs)) in E; discriminate].
  rewrite (bind_ok _ _ _ _ _ (find_buffer_some _ _ _ Hs)) in E.
  unfold bind at 1, modify at 1 in E.
  destruct (Ledger_dequeued P _ _ _ _ _ _ _ _ _ _ HL Hs Hin Hnd' Hincl Hout)
    as [_ HL'].
  match type of E with tryCompleteRequest _ ?m = _ => set (mid := m) in * end.
  destruct (via_gate (mkOutstanding q (scheduled o)) st mid st1 (request info) [])
    as [HL1 Hc]; [symmetry; apply app_nil_r|exact HL'|exact E|].
  split; [exact HL1|].
  apply (completes_filled_from st mid st1); [reflexivity| |exact Hc].
  apply flag_entries. intros i. split; reflexivity.
Qed.

Lemma step_statReady o o1 buffer st st1 :
  ledger_of P o st ->
  deliver (EvStatReady buffer) o = Some o1 ->
  statReady buffer st = Ok (tt, st1) ->
  ledger_of P (fold_left note_call (calls_since st st1) o1) st1
  /\ completes_filled st st1.
Proof.
  intros HL Hd E. unfold ledger_of in HL.
  cbn [deliver] in Hd.
  destruct (take slot_eqb (Stat, Buffer.addr buffer) (in_flight o)) as [q|] eqn:Ht;
    [|discriminate].
  cbn [option_map] in Hd. injection Hd as <-.
  assert (Hfl : param_slots q = flying o)
    by (apply (take_other_slots Stat (Buffer.addr buffer)); [discriminate|exact Ht]).
  unfold statReady in E.
  destruct (activeCamera_ st) as [camera|] eqn:Ha;
    [|rewrite (bind_fault _ _ _ (activeCameraData_none _ Ha)) in E; discriminate].
  rewrite (bind_ok _ _ _ _ _ (activeCameraData_some _ _ Ha)) in E.
  destruct (map_search (holds_buffer buffer) (frameInfo_ st)) as [[k info]|] eqn:Hs.
  - rewrite (bind_ok _ _ _ _ _ (find_buffer_some _ _ _ Hs)) in E.
    unfold bind, call, ret in E. injection E as <-. split.
    + rewrite (calls_since_app st _ [_]) by reflexivity.
      unfold ledger_of, flying. cbn [fold_left note_call in_flight scheduled emit
        frame_ frameInfo_ paramBuffers_ statBuffers_].
      rewrite Hfl. exact HL.
    + apply completes_filled_refl. intros r. cbn [emit trace].
      rewrite completions_snoc. cbn [is_completion]. lia.
  - rewrite (bind_ok _ _ _ _ _ (find_buffer_none _ _ Hs)) in E.
    unfold ret in E. injection E as <-. split.
    + rewrite (calls_since_app st _ [_]) by reflexivity.
      unfold ledger_of, flying. cbn [fold_left note_call in_flight scheduled emit
        frame_ frameInfo_ paramBuffers_ statBuffers_].
      rewrite Hfl. exact HL.
    + apply completes_filled_refl. intros r. cbn [emit trace].
      rewrite completions_snoc. cbn [is_completion]. lia.
Qed.

Lemma step_bufferReady o o1 buffer st st1 :
  ledger_of P o st ->
  session_event (EvBufferReady buffer) st = true ->
  deliver (EvBufferReady buffer) o = Some o1 ->
  bufferReady buffer st = Ok (tt, st1) ->
  ledger_of P (fold_left note_call (calls_since st st1) o1) st1
  /\ completes_filled st st1.
Proof.
  intros HL Hse Hd E. unfold ledger_of in HL.
  cbn [session_event] in Hse. apply andb_true_iff in Hse as [H0 Hmax].
  apply Z.leb_le in H0. apply Z.ltb_lt in Hmax.
  cbn [deliver] in Hd.
  destruct (take slot_eqb (Video, Buffer.addr buffer) (in_flight o)) as [q|] eqn:Ht;
    [|discriminate].
  cbn [option_map] in Hd. injection Hd as <-.
  assert (Hfl : param_slots q = flying o)
    by (apply (take_other_slots Video (Buffer.addr buffer)); [discriminate|exact Ht]).
  unfold bufferReady in E.
  destruct (activeCamera_ st) as [camera|] eqn:Ha;
    [|rewrite (bind_fault _ _ _ (activeCameraData_none _ Ha)) in E; discriminate].
  rewrite (bind_ok _ _ _ _ _ (activeCameraData_some _ _ Ha)) in E.
  unfold bind at 1, call at 1 in E. unfold bind at 1, get at 1 in E.
  cbn [emit frame_] in E.
  assert (Hu : uint (Buffer.sequence buffer + 1) = Buffer.sequence buffer + 1)
    by (unfold uint; apply Z.mod_small; unfold UINT_MAX in Hmax; lia).
  destruct (frame_ st <=? Buffer.sequence buffer) eqn:Hle.
  - apply Z.leb_le in Hle.
    unfold bind at 1, modify at 1 in E. unfold bind at 1, call at 1 in E.
    match type of E with tryCompleteRequest _ ?m = _ => set (mid := m) in * end.
    destruct (via_gate (mkOutstanding q (scheduled o)) st mid st1
                       (Buffer.request buffer)
                       [TimelineBufferReady buffer;
                        CompleteBuffer camera (Buffer.request buffer) buffer])
      as [HL1 Hc]; [| |exact E|].
    + subst mid. cbn [emit set_frame_ trace]. rewrite <- app_assoc. reflexivity.
    + subst mid. unfold ledger_of, flying.
      cbn [fold_left note_call in_flight scheduled emit set_frame_
           frame_ frameInfo_ paramBuffers_ statBuffers_].
      rewrite Hfl, Hu.
      apply (Ledger_weaken P _ _ _ _ _ _ _ _ _ HL);
        [apply (ledger_flying _ _ _ _ _ _ _ HL)|apply incl_refl
        |apply (ledger_pending _ _ _ _ _ _ _ HL)|apply incl_refl|lia].
    + split; [exact HL1|].
      apply (completes_filled_from st mid st1); [| |exact Hc].
      * intros r. subst mid. cbn [emit set_frame_ trace].
        rewrite !completions_snoc. cbn [is_completion]. lia.
      * intros r k i' Hin. exists i'. split; [exact Hin|reflexivity].
  - unfold bind at 1, ret at 1 in E. unfold bind at 1, call at 1 in E.
    match type of E with tryCompleteRequest _ ?m = _ => set (mid := m) in * end.
    destruct (via_gate (mkOutstanding q (scheduled o)) st mid st1
                       (Buffer.request buffer)
                       [TimelineBufferReady buffer;
                        CompleteBuffer camera (Buffer.request buffer) buffer])
      as [HL1 Hc]; [| |exact E|].
    + subst mid. cbn [emit trace]. rewrite <- app_assoc. reflexivity.
    + subst mid. unfold ledger_of, flying.
      cbn [fold_left note_call in_flight scheduled emit
           frame_ frameInfo_ paramBuffers_ statBuffers_].
      rewrite Hfl. exact HL.
    + split; [exact HL1|].
      apply (completes_filled_from st mid st1); [| |exact Hc].
      * intros r. subst mid. cbn [emit trace].
        rewrite !completions_snoc. cbn [is_completion]. lia.
      * intros r k i' Hin. exists i'. split; [exact Hin|reflexivity].
Qed.

Ltac quiet_call HL :=
  split;
  [ rewrite (calls_since_app _ _ [_]) by reflexivity;
    unfold ledger_of;
    cbn [fold_left note_call in_flight scheduled emit
         frame_ frameInfo_ paramBuffers_ statBuffers_];
    exact HL
  | apply completes_filled_refl; intros r; cbn [emit trace];
    rewrite completions_snoc; cbn [is_completion]; lia ].

Lemma step_queueFrameAction o frm action st st1 :
  ledger_of P o st ->
  queueFrameAction frm action st = Ok (tt, st1) ->
  ledger_of P (fold_left note_call (calls_since st st1) o) st1
  /\ completes_filled st st1.
Proof.
  intros HL E. unfold queueFrameAction in E.
  destruct (operation action).
  - (* V4L2_SET *)
    destruct (controls action) as [|ctrls rest]; [discriminate|].
    unfold bind, call, ret in E. injection E as <-. quiet_call HL.
  - (* PARAM_FILLED *)
    destruct (map_find frm (frameInfo_ st)) as [info|] eqn:Hf.
    + rewrite (bind_ok _ _ _ _ _ (find_frame_some _ _ _ Hf)) in E.
      unfold modify in E. injection E as <-. split.
      * rewrite (calls_since_same st _) by reflexivity.
        unfold ledger_of.
        cbn [fold_left set_frameInfo_ frame_ frameInfo_ paramBuffers_ statBuffers_].
        apply Ledger_filled. exact HL.
      * apply completes_filled_refl. reflexivity.
    + rewrite (bind_ok _ _ _ _ _ (find_frame_none _ _ Hf)) in E.
      unfold ret in E. injection E as <-. quiet_call HL.
  - (* METADATA *)
    destruct (controls action) as [|metadata rest]; [discriminate|].
    unfold metadataReady in E.
    destruct (map_find frm (frameInfo_ st)) as [info|] eqn:Hf.
    + rewrite (bind_ok _ _ _ _ _ (find_frame_some _ _ _ Hf)) in E.
      unfold bind at 1, call at 1 in E. unfold bind at 1, modify at 1 in E.
      match type of E with tryCompleteRequest _ ?m = _ => set (mid := m) in * end.
      destruct (via_gate o st mid st1 (request info)
                         [SetMetadata (request info) metadata])
        as [HL1 Hc]; [reflexivity| |exact E|].
      * subst mid. unfold ledger_of.
        cbn [fold_left note_call emit set_frameInfo_
             frame_ frameInfo_ paramBuffers_ statBuffers_].
        apply Ledger_metadata. exact HL.
      * split; [exact HL1|].
        apply (completes_filled_from st mid st1); [| |exact Hc].
        -- intros r. subst mid. cbn [emit set_frameInfo_ trace].
           rewrite completions_snoc. cbn [is_completion]. lia.
        -- subst mid. cbn [emit set_frameInfo_ frameInfo_].
           apply flag_entries. intros i. split; reflexivity.
    + rewrite (bind_ok _ _ _ _ _ (find_frame_none _ _ Hf)) in E.
      unfold ret in E. injection E as <-. quiet_call HL.
  - unfold log, bind, call, ret in E. injection E as <-. quiet_call HL.
  - unfold log, bind, call, ret in E. injection E as <-. quiet_call HL.
  - unfold log, bind, call, ret in E. injection E as <-. quiet_call HL.
Qed.

Lemma step_RkISP1ActionQueueBuffers_run o o1 frm st st1 :
  ledger_of P o st ->
  deliver (EvRunQueueBuffers frm) o = Some o1 ->
  RkISP1ActionQueueBuffers_run frm st = Ok (tt, st1) ->
  ledger_of P (fold_left note_call (calls_since st st1) o1) st1
  /\ completes_filled st st1.
Proof.
  intros HL Hd E. unfold ledger_of in HL.
  cbn [deliver] in Hd.
  destruct (take Z.eqb frm (scheduled o)) as [sc'|] eqn:Ht; [|discriminate].
  cbn [option_map] in Hd. injection Hd as <-.
  destruct (ledger_pending _ _ _ _ _ _ _ HL) as [Hnd _].
  destruct (take_NoDup Z.eqb Z.eqb_eq _ _ _ Ht Hnd) as [Hnd' Hout].
  pose proof (take_In Z.eqb Z.eqb_eq _ _ _ Ht) as Hin.
  pose proof (take_incl Z.eqb _ _ _ Ht) as Hincl.
  unfold RkISP1ActionQueueBuffers_run in E.
  destruct (map_find frm (frameInfo_ st)) as [info|] eqn:Hf.
  2:{ rewrite (bind_ok _ _ _ _ _ (find_frame_none _ _ Hf)) in E.
      unfold bind, log, call, fault in E. discriminate. }
  rewrite (bind_ok _ _ _ _ _ (find_frame_some _ _ _ Hf)) in E.
  pose proof (map_find_In _ _ _ Hf) as Hinfo.
  destruct (paramFilled info) eqn:Hfilled.
  - unfold bind, call, ret in E. injection E as <-. split.
    + rewrite (calls_since_app st _ [_; _; _])
        by (cbn [emit trace]; rewrite <- !app_assoc; reflexivity).
      unfold ledger_of, flying.
      cbn [fold_left note_call in_flight scheduled emit
           frame_ frameInfo_ paramBuffers_ statBuffers_].
      rewrite !param_slots_app. unfold param_slots at 2 3 4.
      cbn [filter fst device_eqb map snd]. rewrite !app_nil_r.
      apply (Ledger_queued P _ _ _ _ _ _ _ frm info HL); assumption.
    + apply completes_filled_refl. intros r. cbn [emit trace].
      rewrite !completions_snoc. cbn [is_completion]. lia.
  - unfold bind, log, call, ret in E. injection E as <-. split.
    + rewrite (calls_since_app st _ [_; _; _])
        by (cbn [emit trace]; rewrite <- !app_assoc; reflexivity).
      unfold ledger_of, flying.
      cbn [fold_left note_call in_flight scheduled emit
           frame_ frameInfo_ paramBuffers_ statBuffers_].
      rewrite !param_slots_app. unfold param_slots at 2 3.
      cbn [filter fst device_eqb map snd]. rewrite !app_nil_r.
      apply (Ledger_weaken P _ _ _ _ _ _ _ _ _ HL);
        [apply (ledger_flying _ _ _ _ _ _ _ HL)|apply incl_refl
        |exact Hnd'|exact Hincl|lia].
    + apply completes_filled_refl. intros r. cbn [emit trace].
      rewrite !completions_snoc. cbn [is_completion]. lia.
Qed.

Lemma step_queueRequest o camera req st a st1 :
  ledger_of P o st ->
  session_event (EvQueueRequest camera req) st = true ->
  foreign_image P (EvQueueRequest camera req) st = true ->
  queueRequest camera req st = Ok (a, st1) ->
  ledger_of P (fold_left note_call (calls_since st st1) o) st1
  /\ completes_filled st st1.
Proof.
  intros HL Hse Hfi E. unfold ledger_of in HL.
  cbn [session_event] in Hse. apply andb_true_iff in Hse as [H0 Hmax].
  apply Z.leb_le in H0. apply Z.ltb_lt in Hmax.
  cbn [foreign_image] in Hfi.
  revert E. unfold queueRequest.
  unfold bind at 1, call at 1. unfold bind at 1, get at 1.
  set (s0 := emit (BaseQueueRequest camera req) st).
  assert (Hfail : forall msg,
             ledger_of P (fold_left note_call
                            (calls_since st (emit (Log LogError msg) s0)) o)
                       (emit (Log LogError msg) s0)
             /\ completes_filled st (emit (Log LogError msg) s0)).
  { intros msg. split.
    - rewrite (calls_since_app st _ [_; _])
        by (subst s0; cbn [emit trace]; rewrite <- !app_assoc; reflexivity).
      unfold ledger_of. subst s0.
      cbn [fold_left note_call in_flight scheduled emit
           frame_ frameInfo_ paramBuffers_ statBuffers_].
      exact HL.
    - apply completes_filled_refl. intros r. subst s0. cbn [emit trace].
      rewrite !completions_snoc. cbn [is_completion]. lia. }
  destruct (paramBuffers_ s0) as [|pb p] eqn:Hp.
  { destruct (create_fails (frame_ s0) req s0 (or_introl Hp)) as [msg Hc].
    rewrite (bind_ok _ _ _ _ _ Hc). unfold ret. intros E. injection E as _ <-.
    apply Hfail. }
  destruct (statBuffers_ s0) as [|sb s] eqn:Hsb.
  { destruct (create_fails (frame_ s0) req s0 (or_intror (or_introl Hsb)))
      as [msg Hc].
    rewrite (bind_ok _ _ _ _ _ Hc). unfold ret. intros E. injection E as _ <-.
    apply Hfail. }
  destruct (findBuffer (world s0) req) as [vb|] eqn:Hvb.
  2:{ destruct (create_fails (frame_ s0) req s0 (or_intror (or_intror Hvb)))
        as [msg Hc].
      rewrite (bind_ok _ _ _ _ _ Hc). unfold ret. intros E. injection E as _ <-.
      apply Hfail. }
  clear Hfail.
  rewrite (bind_ok _ _ _ _ _ (create_succeeds _ _ _ _ _ _ _ _ Hp Hsb Hvb)).
  unfold bind, get, call, modify, ret. intros E. injection E as _ <-.
  subst s0. cbn [emit world paramBuffers_ statBuffers_ frame_] in Hp, Hsb, Hvb.
  rewrite Hvb in Hfi. apply negb_true_iff in Hfi.
  assert (Hforeign : ~ In (Buffer.addr vb) P).
  { intros Hin. assert (Hex : existsb (Z.eqb (Buffer.addr vb)) P = true).
    { apply existsb_exists. exists (Buffer.addr vb). split; [exact Hin|apply Z.eqb_refl]. }
    congruence. }
  assert (Hu : uint (frame_ st + 1) = frame_ st + 1)
    by (unfold uint; apply Z.mod_small; unfold UINT_MAX in Hmax; lia).
  split.
  - rewrite (calls_since_app st _ [_; _; _])
      by (cbn [emit set_frame_ set_frameInfo_ set_statBuffers_ set_paramBuffers_
               trace]; rewrite <- !app_assoc; reflexivity).
    unfold ledger_of, flying.
    cbn [fold_left note_call in_flight scheduled emit set_frame_ set_frameInfo_
         set_statBuffers_ set_paramBuffers_
         frame_ frameInfo_ paramBuffers_ statBuffers_].
    rewrite Hu. rewrite Hp, Hsb in HL.
    apply Ledger_admitted; assumption.
  - apply completes_filled_refl. intros r.
    cbn [emit set_frame_ set_frameInfo_ set_statBuffers_ set_paramBuffers_ trace].
    rewrite !completions_snoc. cbn [is_completion]. lia.
Qed.

Lemma param_slots_off3 d1 d2 d3 l :
  let off d := fun q : Device * Z => negb (device_eqb (fst q) d) in
  incl (param_slots (filter (off d3) (filter (off d2) (filter (off d1) l))))
       (param_slots l)
  /\ (NoDup (param_slots l) ->
      NoDup (param_slots (filter (off d3) (filter (off d2) (filter (off d1) l))))).
Proof.
  intros off.
  destruct (param_slots_off d1 l) as [I1 N1].
  destruct (param_slots_off d2 (filter (off d1) l)) as [I2 N2].
  destruct (param_slots_off d3 (filter (off d2) (filter (off d1) l))) as [I3 N3].
  split.
  - intros a Ha. apply I1, I2, I3. exact Ha.
  - intros Hnd. apply N3, N2, N1. exact Hnd.
Qed.

Lemma step_stop o camera st st1 :
  ledger_of P o st ->
  stop camera st = Ok (tt, st1) ->
  ledger_of P (fold_left note_call (calls_since st st1) o) st1
  /\ completes_filled st st1.
Proof.
  intros HL E. unfold ledger_of in HL.
  destruct (param_slots_off3 Video Stat Param (in_flight o)) as [Hincl Hnd].
  cbv zeta in Hincl, Hnd.
  revert E. unfold stop, bind, call, log, modify, ret.
  repeat match goal with
         | |- context [if negb (?x =? 0) then _ else _] =>
             destruct (negb (x =? 0))
         end;
    intros E; injection E as <-;
    (split;
     [ erewrite calls_since_app
         by (cbn [emit set_activeCamera_ trace]; rewrite <- !app_assoc; reflexivity);
       unfold ledger_of, flying;
       cbn [app fold_left note_call in_flight scheduled emit set_activeCamera_
            frame_ frameInfo_ paramBuffers_ statBuffers_];
       apply (Ledger_weaken P _ _ _ _ _ _ _ _ _ HL);
       [ apply Hnd; apply (ledger_flying _ _ _ _ _ _ _ HL)
       | exact Hincl
       | constructor
       | intros x []
       | lia ]
     | apply completes_filled_refl; intros r;
       cbn [emit set_activeCamera_ trace];
       rewrite !completions_snoc; cbn [is_completion]; lia ]).
Qed.

(* one entry point of an orderly session *)
Lemma orderly_step e o o1 st st1 :
  ledger_of P o st ->
  session_event e st = true ->
  foreign_image P e st = true ->
  deliver e o = Some o1 ->
  handle e st = Ok (tt, st1) ->
  ledger_of P (fold_left note_call (calls_since st st1) o1) st1
  /\ completes_filled st st1.
Proof.
  intros HL Hse Hfi Hd E. destruct e; cbn [handle] in E;
    try discriminate Hse.
  - injection Hd as <-. apply (step_stop o camera); assumption.
  - injection Hd as <-. apply bind_ret_tt in E as [a E].
    apply (step_queueRequest o camera req st a); assumption.
  - apply (step_bufferReady o o1 buffer); assumption.
  - apply (step_paramReady o o1 buffer); assumption.
  - apply (step_statReady o o1 buffer); assumption.
  - injection Hd as <-. apply (step_queueFrameAction o frm action); assumption.
  - apply (step_RkISP1ActionQueueBuffers_run o o1 frm); assumption.
Qed.

Lemma orderly_cons e es o st st1 :
  orderly P (e :: es) o st = true ->
  handle e st = Ok (tt, st1) ->
  session_event e st = true /\ foreign_image P e st = true
  /\ exists o1, deliver e o = Some o1
                /\ orderly P es (fold_left note_call (calls_since st st1) o1) st1 = true.
Proof.
  unfold orderly. cbn [delivered]. intros Ho E.
  apply andb_true_iff in Ho as [Ha Ho]. apply andb_true_iff in Ha as [Hs Hf].
  split; [exact Hs|]. split; [exact Hf|].
  destruct (deliver e o) as [o1|]; [|discriminate].
  exists o1. split; [reflexivity|]. rewrite E in Ho. exact Ho.
Qed.

(* the account is kept along an orderly run *)
Lemma orderly_prefix es1 : forall es2 o st st1,
  ledger_of P o st ->
  orderly P (es1 ++ es2) o st = true ->
  run es1 st = Ok (tt, st1) ->
  exists o1, ledger_of P o1 st1 /\ orderly P es2 o1 st1 = true.
Proof.
  induction es1 as [|e es1 IH]; intros es2 o st st1 HL Ho E.
  - cbn [run] in E. unfold ret in E. injection E as <-.
    exists o. split; assumption.
  - apply run_cons in E as (st0 & E0 & E).
    cbn [app] in Ho.
    destruct (orderly_cons _ _ _ _ _ Ho E0) as (Hs & Hf & o1 & Hd & Ho').
    destruct (orderly_step e o o1 st st0 HL Hs Hf Hd E0) as [HL0 _].
    apply (IH es2 _ st0 st1 HL0 Ho' E).
Qed.

Lemma ledger_fresh st :
  frameInfo_ st = [] ->
  NoDup (map Buffer.addr (paramBuffers_ st)) ->
  (forall b, In b (statBuffers_ st) ->
             ~ In (Buffer.addr b) (map Buffer.addr (paramBuffers_ st))) ->
  ledger_of (map Buffer.addr (paramBuffers_ st)) nothing_outstanding st.
Proof.
  intros Ht Hnd Hs. unfold ledger_of. rewrite Ht. constructor.
  - reflexivity.
  - intros k info [].
  - split; [constructor|intros f []].
  - split; [constructor|intros a []].
  - split; [exact Hnd|]. intros b Hb. split; [apply in_map; exact Hb|].
    split; [intros []|intros k info []].
  - exact Hs.
  - intros k1 i1 k2 i2 [].
  - intros k info [].
Qed.
End OrderlySteps.

(** X26. In a streaming session that starts with no frame in the table and
    distinct parameter buffers, in which the counters do not wrap, every
    buffer that comes back had been queued on its device, every QueueBuffers
    action run had been scheduled, and no request carries a parameter buffer
    as its image, [paramDequeued] is only ever set on a FrameInfo whose
    [paramFilled] is set.  So whenever an entry point of the session
    completes a request, the FrameInfo that find(request) returned for it
    when the entry point was called had [paramFilled] set: there the
    completion gate, which tests [paramDequeued] and [metadataProcessed],
    lets a request through only when all three flags are set. *)
Theorem session_completes_filled {W : Type} `{World W}
        (es : list Event) (st st' : State W) :
  frameInfo_ st = [] ->
  NoDup (map Buffer.addr (paramBuffers_ st)) ->
  (forall b, In b (statBuffers_ st) ->
             ~ In (Buffer.addr b) (map Buffer.addr (paramBuffers_ st))) ->
  orderly (map Buffer.addr (paramBuffers_ st)) es nothing_outstanding st = true ->
  run es st = Ok (tt, st') ->
  (forall k info, In (k, info) (frameInfo_ st') ->
                  paramDequeued info = true -> paramFilled info = true)
  /\ (forall es1 e es2 st1 st2,
        es = es1 ++ e :: es2 ->
        run es1 st = Ok (tt, st1) ->
        handle e st1 = Ok (tt, st2) ->
        completes_filled st1 st2).
Proof.
  intros Ht Hnd Hs Ho E.
  pose proof (ledger_fresh st Ht Hnd Hs) as HL.
  split.
  - rewrite <- (app_nil_r es) in Ho.
    destruct (orderly_prefix _ es [] _ st st' HL Ho E) as (o' & HL' & _).
    intros k info Hin.
    destruct (ledger_info _ _ _ _ _ _ _ HL' k info Hin) as (_ & _ & _ & H4 & _).
    exact H4.
  - intros es1 e es2 st1 st2 -> E1 E2.
    destruct (orderly_prefix _ es1 (e :: es2) _ st st1 HL Ho E1) as (o1 & HL1 & Ho1).
    destruct (orderly_cons _ _ _ _ _ _ Ho1 E2) as (Hse & Hfi & o2 & Hd & _).
    apply (orderly_step _ e o1 o2 st1 st2 HL1 Hse Hfi Hd E2).
Qed.

Lemma session_completes_filled_witness :
  completions 70 (trace session_after) = S (completions 70 (trace session_before))
  /\ exists k info,
       map_search (fun i => request i =? 70) (frameInfo_ session_before)
       = Some (k, info)
       /\ paramFilled info = true.
Proof.
  split; [vm_compute; reflexivity|].
  assert (Hnd : NoDup (map Buffer.addr (paramBuffers_ camera_ready))).
  { vm_compute. repeat (constructor; [cbn; intuition discriminate|]). constructor. }
  assert (Hs : forall b, In b (statBuffers_ camera_ready) ->
                 ~ In (Buffer.addr b) (map Buffer.addr (paramBuffers_ camera_ready))).
  { intros b Hb Hin. cbn in Hb.
    repeat (destruct Hb as [<-|Hb]; [cbn in Hin; intuition discriminate|]).
    exact Hb. }
  destruct (session_completes_filled (H:=Script_World)
              (session_events ++ [EvBufferReady (captured 0 0)])
              camera_ready session_after eq_refl Hnd Hs
              ltac:(vm_compute; reflexivity) ltac:(vm_compute; reflexivity))
    as [_ Hc].
  apply (Hc session_events (EvBufferReady (captured 0 0)) [] session_before
            session_after eq_refl
            ltac:(vm_compute; reflexivity) ltac:(vm_compute; reflexivity) 70).
  vm_compute. discriminate.
Defined.
